(** * SparseSC: placebo inference and penalty bounds

    A shallow embedding of [SparseSC/utils/metrics_utils.py] and
    [SparseSC/utils/penalty_utils.py].

    Conventions of the embedding.
    - Python integers are [Z]; array shapes and loop indices are [nat].
    - A float64 value is the rational number [Q] it denotes; the model covers
      the ordinary floats, not [nan] and [inf].  What the placebo engine
      compares, counts or turns into an index is computed as the floats
      compute it: [np.mean] and [np.sqrt] are parameters of the engine
      (classes [Mean] and [Sqrt]), so that its theorems hold for numpy's
      float64 reductions as for the exact ones; [np.square] and the
      arithmetic of the order-statistic index are rounded to float64 by [fl].
      Values that are only returned (p-values, interval ends, the three
      numbers of [simulation_eval], penalty bounds) are the exact rationals
      that the floats approximate.
    - numpy returns [nan] for the mean of an empty axis and [inf] on
      overflow.  Statements about values are made on [valid_placebo_input]
      (at least one period and one treated unit, entries of moderate
      magnitude) or on non-empty arrays, where neither arises; statements
      about raised exceptions and shapes need no such hypothesis.
    - Raised exceptions are values of [exn]; a computation that may raise
      returns a [result].
    - [warnings.warn] appends to an explicit log.
    - The process-wide random generator of numpy is an explicit state that is
      threaded through the draws. *)

From Stdlib Require Import String Ascii DecimalString ZArith QArith Qabs Qround Qpower Bool Lia Lqa Arith List Permutation Sorted.
Import ListNotations.

Local Open Scope Z_scope.

(** ** Exceptions and results *)

Inductive exn : Type :=
| ValueError (msg : string)
| TypeError (msg : string)
| RuntimeError (msg : string)
| AssertionError (msg : string)
| IndexError (msg : string)
| ZeroDivisionError (msg : string)
| MemoryError.

Inductive result (A : Type) : Type :=
| Ok (a : A)
| Raise (e : exn).

Arguments Ok {A} a.
Arguments Raise {A} e.

Definition bind {A B : Type} (r : result A) (k : A -> result B) : result B :=
  match r with
  | Ok a => k a
  | Raise e => Raise e
  end.

Notation "x <- c ;; k" := (bind c (fun x => k))
  (at level 61, c at next level, right associativity).

Fixpoint mapM {A B : Type} (f : A -> result B) (l : list A) : result (list B) :=
  match l with
  | [] => Ok []
  | a :: l' => b <- f a ;; bs <- mapM f l' ;; Ok (b :: bs)
  end.

(** ** Python built-ins used by the sources *)

(** [range(start, stop, step)] for a non-zero step. *)
Definition py_range (start stop step : Z) : list Z :=
  let len :=
    if 0 <? step then Z.max 0 ((stop - start + step - 1) / step)
    else Z.max 0 ((start - stop - step - 1) / (- step)) in
  map (fun i => start + Z.of_nat i * step) (seq 0 (Z.to_nat len)).

(** [functools.reduce(op.mul, l, init)]. *)
Definition reduce_mul (l : list Z) (init : Z) : Z := fold_left Z.mul l init.

(** The nested helper [_ncr] of [_gen_placebo_stats_from_diffs]. *)
Definition _ncr (n r : Z) : Z :=
  let r := Z.min r (n - r) in
  let numer := reduce_mul (py_range n (n - r) (-1)) 1 in
  let denom := reduce_mul (py_range 1 (r + 1) 1) 1 in
  numer / denom.

(** The binomial coefficient, by Pascal's rule: the C(N0,N1) of the
    specification. *)
Fixpoint binom (n k : nat) : nat :=
  match n, k with
  | _, O => 1
  | O, S _ => 0
  | S n', S k' => binom n' k' + binom n' (S k')
  end%nat.


(** ** numpy on one- and two-dimensional float arrays *)

Local Open Scope Q_scope.

Definition vector := list Q.

(** A two-dimensional array with its [shape]; [rows] holds [shape0] rows of
    [shape1] entries each. *)
Record ndarray2 : Type := mk_ndarray2 {
  shape0 : nat;
  shape1 : nat;
  rows : list vector
}.

Definition column (t : nat) (rs : list vector) : vector :=
  map (fun r => nth t r 0) rs.

(** [np.mean].  The float64 result of a reduction depends on the rounding of
    every partial sum and on the order in which numpy adds (pairwise along a
    contiguous axis, row after row along the first axis of a matrix), so the
    three reductions the sources use are parameters: [np_mean v] is
    [np.mean(v)] of a one-dimensional array, [np_mean_axis0 m] is
    [np.mean(m, axis=0)] (one value per column) and [np_mean_axis1 m] is
    [np.mean(m, axis=1)] (one value per row).  Only the shapes of their
    results are assumed.  On an empty axis numpy returns [nan]; statements
    about values are made for non-empty axes. *)
Class Mean : Type := {
  np_mean : vector -> Q;
  np_mean_axis0 : ndarray2 -> vector;
  np_mean_axis1 : ndarray2 -> vector;
  np_mean_axis0_shape : forall m, length (np_mean_axis0 m) = shape1 m;
  np_mean_axis1_shape : forall m, length (np_mean_axis1 m) = length (rows m)
}.

(** The mean in exact arithmetic, the real number that [np.mean]
    approximates. *)
Definition Qsum (v : vector) : Q := fold_left Qplus v 0.

Definition Qmean (v : vector) : Q :=
  Qsum v / inject_Z (Z.of_nat (length v)).

(** The exact reductions.  This is the instance wherever no other one is
    named: in [simulation_eval] and [w_pen_guestimate], whose means are only
    returned, and in the runs on sample data. *)
#[local] Instance rational_mean : Mean := {|
  np_mean := Qmean;
  np_mean_axis0 := fun m => map (fun t => Qmean (column t (rows m))) (seq 0 (shape1 m));
  np_mean_axis1 := fun m => map Qmean (rows m);
  np_mean_axis0_shape := fun m =>
    eq_trans (length_map _ (seq 0 (shape1 m))) (length_seq (shape1 m) 0);
  np_mean_axis1_shape := fun m => length_map Qmean (rows m)
|}.

(** Integer-array indexing [a[comb]] / [a.take(comb)]; numpy raises
    [IndexError] for an index outside the axis. *)
Definition np_take {A : Type} (a : list A) (comb : list nat) : result (list A) :=
  mapM (fun i => match nth_error a i with
                 | Some x => Ok x
                 | None => Raise (IndexError "index is out of bounds for axis 0")
                 end) comb.

(** [m[comb, :]]. *)
Definition take_rows (m : ndarray2) (comb : list nat) : result ndarray2 :=
  rs <- np_take (rows m) comb ;;
  Ok (mk_ndarray2 (length comb) (shape1 m) rs).

(** [a[idx] = v] on a pre-allocated array. *)
Fixpoint set_item {A : Type} (a : list A) (idx : nat) (v : A) : result (list A) :=
  match a, idx with
  | [], _ => Raise (IndexError "index is out of bounds for axis 0")
  | _ :: a', O => Ok (v :: a')
  | x :: a', S i => a'' <- set_item a' i v ;; Ok (x :: a'')
  end.

(** [a[i]] for a Python integer [i]: negative indices count from the end. *)
Definition get_item (a : vector) (i : Z) : result Q :=
  let n := Z.of_nat (length a) in
  if ((i <? n) && (- n <=? i))%Z then
    Ok (nth (Z.to_nat (if (i <? 0)%Z then i + n else i)%Z) a 0)
  else Raise (IndexError "index is out of bounds for axis 0").

(** [np.sort], ascending. *)
Fixpoint insert_sorted (x : Q) (l : vector) : vector :=
  match l with
  | [] => [x]
  | y :: l' => if Qle_bool x y then x :: l else y :: insert_sorted x l'
  end.

Definition np_sort (l : vector) : vector := fold_right insert_sorted [] l.

(** [np.sign]. *)
Definition np_sign (x : Q) : Z :=
  match Qcompare x 0 with
  | Lt => (-1)%Z
  | Eq => 0%Z
  | Gt => 1%Z
  end.

(** [x != 0] on floats. *)
Definition Qneq_bool (x y : Q) : bool := negb (Qeq_bool x y).

(** [a >= b] on floats. *)
Definition Qge_bool (a b : Q) : bool := Qle_bool b a.

(** Python 3 [round(x)]: to the nearest integer, ties to the even one. *)
Definition py_round (x : Q) : Z :=
  let f := Qfloor x in
  match Qcompare (x - inject_Z f) (1 # 2) with
  | Lt => f
  | Gt => (f + 1)%Z
  | Eq => if Z.even f then f else (f + 1)%Z
  end.

(** Rounding to float64 (IEEE 754 binary64, round to nearest, ties to
    even) of a real number below the overflow threshold.  [ilog2 x] is
    [floor (log2 x)] for a positive [x]; a float has 53 significant bits, and
    below [2^-1022] the spacing stays [2^-1074] (subnormal numbers). *)
Definition ilog2 (x : Q) : Z :=
  let e := (Z.log2 (Qnum x) - Z.log2 (Zpos (Qden x)))%Z in
  if Qle_bool (2 ^ e) x then e else (e - 1)%Z.

Definition fl_pos (x : Q) : Q :=
  let e := Z.max (ilog2 x) (-1022) in
  Qred (inject_Z (py_round (x * 2 ^ (52 - e))) * 2 ^ (e - 52)).

Definition fl (x : Q) : Q :=
  let x := Qred x in
  match Qcompare x 0 with
  | Eq => 0
  | Gt => fl_pos x
  | Lt => - fl_pos (- x)
  end.

(** [np.square] on floats: the rounded product. *)
Definition np_square (x : Q) : Q := fl (x * x).

(** A bool added to a number counts as 0 or 1. *)
Definition int_of_bool (b : bool) : Z := if b then 1%Z else 0%Z.

(** [itertools.combinations(l, r)], in lexicographic order. *)
Fixpoint combinations (l : list nat) (r : nat) {struct l} : list (list nat) :=
  match r, l with
  | O, _ => [[]]
  | S _, [] => []
  | S r', x :: l' => map (cons x) (combinations l' r') ++ combinations l' r
  end.

(** ** The value classes of [metrics_utils.py] *)

(** A numpy value held by a result: a numpy float64 scalar (which has a
    [size], as the engine's averages and interval ends do; a plain Python
    float has none) or a one-dimensional array. *)
Inductive ndvalue : Type :=
| Scalar (x : Q)
| Array (v : vector).

(** [a.size]. *)
Definition size (a : ndvalue) : nat :=
  match a with
  | Scalar _ => 1
  | Array v => length v
  end.

(** The Python objects a [__contains__] method of this module can return. *)
Inductive pyobj : Type :=
| PyBool (b : bool)
| PyBoolArray (l : list bool)
| PyException (e : exn).

(** Truth-value testing, as [bool(o)] does it: an exception instance is an
    ordinary object and so is true; a numpy array of one element has the truth
    value of that element, a longer one raises.  An empty array is false in
    the numpy releases of the sources' time (later releases deprecate, then
    refuse it); no statement below uses that case. *)
Definition truthy (o : pyobj) : result bool :=
  match o with
  | PyBool b => Ok b
  | PyBoolArray [] => Ok false
  | PyBoolArray [b] => Ok b
  | PyBoolArray _ =>
      Raise (ValueError "The truth value of an array with more than one element is ambiguous. Use a.any() or a.all()")
  | PyException _ => Ok true
  end.

(** [a < x] and [x < b] for a numpy value and a float. *)
Definition nd_lt_scalar (a : ndvalue) (x : Q) : pyobj :=
  match a with
  | Scalar y => PyBool (negb (Qle_bool x y))
  | Array v => PyBoolArray (map (fun y => negb (Qle_bool x y)) v)
  end.

Definition scalar_lt_nd (x : Q) (b : ndvalue) : pyobj :=
  match b with
  | Scalar y => PyBool (negb (Qle_bool y x))
  | Array v => PyBoolArray (map (fun y => negb (Qle_bool y x)) v)
  end.

Record CI_int : Type := mk_CI_int {
  ci_low : ndvalue;
  ci_high : ndvalue;
  level : Q
}.

(** [CI_int.__contains__]: the guard for more than one interval *returns* the
    [RuntimeError] object; the chained comparison [low < x < high] is
    [(low < x) and (x < high)]. *)
Definition CI_int__contains__ (self : CI_int) (x : Q) : result pyobj :=
  if (1 <? size (ci_low self))%nat then
    Ok (PyException
          (RuntimeError "`in` is not defined for more than one Confidence Interval"))
  else
    let t1 := nd_lt_scalar (ci_low self) x in
    b1 <- truthy t1 ;;
    if b1 then Ok (scalar_lt_nd x (ci_high self)) else Ok t1.

(** The operator [x in ci]: the value of [__contains__] is converted to a
    bool. *)
Definition in_CI_int (x : Q) (ci : CI_int) : result bool :=
  o <- CI_int__contains__ ci x ;; truthy o.

(** The retained placebo draws: a vector for a joint effect, a matrix (one
    row per draw) for the per-period effects. *)
Inductive placebo_store : Type :=
| Placebos1 (v : vector)
| Placebos2 (m : list vector).

Record EstResultCI : Type := mk_EstResultCI {
  effect : ndvalue;
  p : ndvalue;
  ci : option CI_int;
  placebos : option placebo_store
}.

(** [EstResultCI.__contains__]: [not self.ci] holds exactly for [None], since
    [CI_int] defines neither [__bool__] nor [__len__]. *)
Definition EstResultCI__contains__ (self : EstResultCI) (x : Q) : result pyobj :=
  match ci self with
  | None => Raise (RuntimeError "EstResultCI does not contain a confidence interval")
  | Some c => b <- in_CI_int x c ;; Ok (PyBool b)
  end.

Definition in_EstResultCI (x : Q) (r : EstResultCI) : result bool :=
  o <- EstResultCI__contains__ r x ;; truthy o.

Record PlaceboResults : Type := mk_PlaceboResults {
  effect_vec : EstResultCI;
  avg_joint_effect : EstResultCI;
  rms_joint_effect : EstResultCI;
  N_placebo : Z
}.

(** [_calculate_p_value].  The counts are integers (the per-period counts
    are held in a float array, with integer values); the true division of
    Python integers raises on a zero divisor.  The engine calls it with
    [npl + addition = comb_len + 1], which is never zero. *)
Definition _calculate_p_value (npl_at_least_as_large : Z) (npl : Z)
    (incl_actual_in_set : bool) : result Q :=
  let addition := int_of_bool incl_actual_in_set in
  if (npl + addition =? 0)%Z then Raise (ZeroDivisionError "division by zero")
  else Ok (inject_Z (npl_at_least_as_large + addition) / inject_Z (npl + addition)).

(** Element-wise binary operation on one-dimensional arrays under numpy's
    broadcasting rule (equal lengths, or one operand of length one). *)
Definition elementwise {A B C : Type} (f : A -> B -> C) (a : list A) (b : list B)
  : result (list C) :=
  if (length a =? length b)%nat then Ok (map (fun ab => f (fst ab) (snd ab)) (combine a b))
  else match a, b with
       | [x], _ => Ok (map (f x) b)
       | _, [y] => Ok (map (fun x => f x y) a)
       | _, _ => Raise (ValueError "operands could not be broadcast together")
       end.

Definition broadcast_ge : vector -> vector -> result (list bool) := elementwise Qge_bool.
Definition broadcast_le : vector -> vector -> result (list bool) := elementwise Qle_bool.
Definition broadcast_and : list bool -> list bool -> result (list bool) := elementwise andb.
Definition broadcast_sub : vector -> vector -> result vector := elementwise Qminus.

(** [simulation_eval] (source lines 9-15), on one-dimensional arrays: the
    mean squared error of the effects, the share of effects inside their
    interval, and the mean interval length.  The element-wise operations
    follow numpy's broadcasting.  The three means are returned and not
    compared: they are the exact means ([rational_mean]). *)
Definition simulation_eval (effects CI_lowers CI_uppers : vector) (true_effect : Q)
  : result (Q * Q * Q) :=
  let te_mse := np_mean (map (fun e => np_square (e - true_effect)) effects) in
  ge <- broadcast_ge effects CI_lowers ;;
  le <- broadcast_le effects CI_uppers ;;
  both <- broadcast_and ge le ;;
  let cov := np_mean (map (fun b => inject_Z (int_of_bool b)) both) in
  d <- broadcast_sub CI_uppers CI_lowers ;;
  let ci_len := np_mean d in
  Ok (te_mse, cov, ci_len).

(** ** Effects: the random generator and the warning channel *)

Inductive warning : Type :=
| SparseSCWarning (msg : string).

(** numpy's process-wide generator.  [permutation g n] is
    [np.random.permutation(n)]: it returns a rearrangement of [range(n)] and
    the next generator state. *)
Class RandomState : Type := {
  rng : Type;
  permutation : rng -> nat -> list nat * rng;
  permutation_perm : forall g n, Permutation (fst (permutation g n)) (seq 0 n)
}.

(** [np.sqrt] on floats. *)
Class Sqrt : Type := { np_sqrt : Q -> Q }.

Record world `{RandomState} : Type := mk_world {
  gen : rng;
  log : list warning
}.

(** Computations that read and advance the generator, write warnings and may
    raise; the state survives a raise. *)
Definition M `{RandomState} (A : Type) : Type := world -> result A * world.

Definition ret `{RandomState} {A : Type} (a : A) : M A := fun w => (Ok a, w).

Definition raise `{RandomState} {A : Type} (e : exn) : M A := fun w => (Raise e, w).

Definition bindM `{RandomState} {A B : Type} (c : M A) (k : A -> M B) : M B :=
  fun w => match c w with
           | (Ok a, w') => k a w'
           | (Raise e, w') => (Raise e, w')
           end.

Definition lift `{RandomState} {A : Type} (r : result A) : M A := fun w => (r, w).

Definition warn `{RandomState} (m : warning) : M unit :=
  fun w => (Ok tt, mk_world _ (gen w) (log w ++ [m])).

Notation "x <~ c ;; k" := (bindM c (fun x => k))
  (at level 61, c at next level, right associativity).

(** [np.random.choice(n, c, replace=False)]: the first [c] entries of a random
    permutation of [range(n)], after numpy's two argument checks (an empty
    population with samples requested; more samples than the population
    holds). *)
Definition np_random_choice `{RandomState} (n c : nat) : M (list nat) :=
  fun w =>
    if ((n =? 0) && negb (c =? 0))%nat then
      (Raise (ValueError "a must be greater than 0 unless no samples are taken"), w)
    else if (n <? c)%nat then
      (Raise (ValueError "Cannot take a larger sample than population when 'replace=False'"), w)
    else
      let (perm, g') := permutation (gen w) n in
      (Ok (firstn c perm), mk_world _ g' (log w)).

(** ** The combination iterators *)

(** The two producers the engine can iterate over: the lazily consumed
    [itertools.combinations] and the generator [_random_combinations], whose
    state is its counter [i]. *)
Inductive comb_iter : Type :=
| IterCombinations (pending : list (list nat))
| IterRandom (i num : Z) (n c : nat).

Definition itertools_combinations (n r : nat) : comb_iter :=
  IterCombinations (combinations (seq 0 n) r).

Definition _random_combinations (num : Z) (n c : nat) : comb_iter :=
  IterRandom 0 num n c.

(** One [next()]: [None] when the iterator is exhausted. *)
Definition next_comb `{RandomState} (it : comb_iter)
  : M (option (list nat * comb_iter)) :=
  match it with
  | IterCombinations [] => ret None
  | IterCombinations (comb :: rest) => ret (Some (comb, IterCombinations rest))
  | IterRandom i num n c =>
      if (i <? num)%Z then
        comb <~ np_random_choice n c ;;
        ret (Some (comb, IterRandom (i + 1) num n c))
      else ret None
  end.

(** The number of items an iterator still yields. *)
Definition iter_len (it : comb_iter) : nat :=
  match it with
  | IterCombinations pending => length pending
  | IterRandom i num _ _ => Z.to_nat (num - i)
  end.

(** [for idx, comb in enumerate(it): st = body idx comb st], started at index
    [idx]; [fuel] bounds the number of items taken. *)
Fixpoint for_enumerate `{RandomState} {S : Type} (fuel : nat) (idx : nat)
    (it : comb_iter) (body : nat -> list nat -> S -> result S) (st : S) : M S :=
  match fuel with
  | O => ret st
  | Datatypes.S fuel' =>
      nx <~ next_comb it ;;
      match nx with
      | None => ret st
      | Some (comb, it') =>
          st' <~ lift (body idx comb st) ;;
          for_enumerate fuel' (Datatypes.S idx) it' body st'
      end
  end.

(** ** The placebo engine *)

(** Element-wise binary operation on one-dimensional arrays under numpy's
    broadcasting: equal lengths, or one operand of length one. *)
Definition broadcast2 {A B C : Type} (f : A -> B -> C) (a : list A) (b : list B)
  : result (list C) :=
  if (length a =? length b)%nat then Ok (map (fun ab => f (fst ab) (snd ab)) (combine a b))
  else match a, b with
       | [x], _ => Ok (map (f x) b)
       | _, [y] => Ok (map (fun x => f x y) a)
       | _, _ => Raise (ValueError "operands could not be broadcast together")
       end.

(** In-place [a += b] / [a[idx, :] = b]: [b] is broadcast to the shape of
    [a]. *)
Definition broadcast_to {A B C : Type} (f : A -> B -> C) (a : list A) (b : list B)
  : result (list C) :=
  if (length a =? length b)%nat then Ok (map (fun ab => f (fst ab) (snd ab)) (combine a b))
  else match b with
       | [y] => Ok (map (fun x => f x y) a)
       | _ => Raise (ValueError "non-broadcastable output operand")
       end.

(** The local variables the draw loop updates. *)
Record loop_state : Type := mk_loop_state {
  vec_p : list Z;
  rms_joint_p : Z;
  avg_joint_p : Z;
  placebo_effect_vecs : option (list vector);
  placebo_avg_joint_effects : option vector;
  placebo_rms_joint_effects : option vector
}.

(** The three aggregates of one draw [comb] (source lines 194-196). *)
Definition placebo_draw `{Mean} (control_effect_vecs : ndarray2)
    (control_rms_joint_effects control_avg_joint_effects : vector)
    (comb : list nat) : result (vector * Q * Q) :=
  sel <- take_rows control_effect_vecs comb ;;
  let placebo_effect_vec := np_mean_axis0 sel in
  rms_sel <- np_take control_rms_joint_effects comb ;;
  let placebo_rms_joint_effect := np_mean rms_sel in
  avg_sel <- np_take control_avg_joint_effects comb ;;
  let placebo_avg_joint_effect := np_mean avg_sel in
  Ok (placebo_effect_vec, placebo_rms_joint_effect, placebo_avg_joint_effect).

(** The counter updates of one draw (source lines 200-202). *)
Definition count_draw (effect_vec : vector) (rms_joint_effect avg_joint_effect : Q)
    (placebo_effect_vec : vector)
    (placebo_rms_joint_effect placebo_avg_joint_effect : Q)
    (st : loop_state) : result loop_state :=
  ge <- broadcast2 (fun pl ob => Qge_bool (Qabs pl) (Qabs ob))
          placebo_effect_vec effect_vec ;;
  vec_p' <- broadcast_to (fun c b => (c + int_of_bool b)%Z) (vec_p st) ge ;;
  let rms_joint_p' :=
    (rms_joint_p st + int_of_bool (Qge_bool placebo_rms_joint_effect rms_joint_effect))%Z in
  let avg_joint_p' :=
    (avg_joint_p st
     + int_of_bool (Qge_bool (Qabs placebo_avg_joint_effect) (Qabs avg_joint_effect)))%Z in
  Ok (mk_loop_state vec_p' rms_joint_p' avg_joint_p'
        (placebo_effect_vecs st) (placebo_avg_joint_effects st)
        (placebo_rms_joint_effects st)).

(** Retaining one draw at row [idx] (source lines 203-206); without
    [keep_pl] the arrays are [None] and nothing is stored. *)
Definition store_draw (idx : nat) (placebo_effect_vec : vector)
    (placebo_rms_joint_effect placebo_avg_joint_effect : Q)
    (st : loop_state) : result loop_state :=
  match placebo_effect_vecs st, placebo_avg_joint_effects st,
        placebo_rms_joint_effects st with
  | Some pev, Some pavg, Some prms =>
      row <- match nth_error pev idx with
             | Some old => broadcast_to (fun _ x => x) old placebo_effect_vec
             | None => Raise (IndexError "index is out of bounds for axis 0")
             end ;;
      pev' <- set_item pev idx row ;;
      pavg' <- set_item pavg idx placebo_avg_joint_effect ;;
      prms' <- set_item prms idx placebo_rms_joint_effect ;;
      Ok (mk_loop_state (vec_p st) (rms_joint_p st) (avg_joint_p st)
            (Some pev') (Some pavg') (Some prms'))
  | _, _, _ => Ok st
  end.

(** The body of the draw loop (source lines 194-206). *)
Definition loop_body `{Mean} (control_effect_vecs : ndarray2)
    (control_rms_joint_effects control_avg_joint_effects : vector)
    (effect_vec : vector) (rms_joint_effect avg_joint_effect : Q)
    (idx : nat) (comb : list nat) (st : loop_state) : result loop_state :=
  d <- placebo_draw control_effect_vecs control_rms_joint_effects
         control_avg_joint_effects comb ;;
  let '(placebo_effect_vec, placebo_rms_joint_effect, placebo_avg_joint_effect) := d in
  st1 <- count_draw effect_vec rms_joint_effect avg_joint_effect
           placebo_effect_vec placebo_rms_joint_effect placebo_avg_joint_effect st ;;
  store_draw idx placebo_effect_vec placebo_rms_joint_effect
    placebo_avg_joint_effect st1.

(** The test of source line 174, [max_n_pl > 0 & n_pl > max_n_pl].  In Python
    [&] binds tighter than a comparison, so this is the chained comparison
    [max_n_pl > (0 & n_pl) > max_n_pl]. *)
Definition randomize_test (max_n_pl n_pl : Z) : bool :=
  ((max_n_pl >? Z.land 0 n_pl) && (Z.land 0 n_pl >? max_n_pl))%Z.

(** Source lines 174-179: the iterator and [comb_len]. *)
Definition choose_iter (max_n_pl n_pl : Z) (N0 N1 : nat) : comb_iter * Z :=
  if randomize_test max_n_pl n_pl then
    (itertools_combinations N0 N1, max_n_pl)
  else
    (_random_combinations n_pl N0 N1, n_pl).

(** The nested helper [_gen_CI] (source lines 225-240). *)
Definition _gen_CI `{RandomState} (placebo_effects : vector) (alpha_ind : Z)
    (effect : Q) (null_is_zero : bool) : M (Q * Q) :=
  let npl := Z.of_nat (length placebo_effects) in
  let sorted_eff := np_sort placebo_effects in
  low_avg_effect <~ lift (get_item sorted_eff alpha_ind) ;;
  high_avg_effect <~ lift (get_item sorted_eff ((npl + 1) - alpha_ind)%Z) ;;
  _ <~ (if null_is_zero
           && (np_sign low_avg_effect =? np_sign high_avg_effect)%Z
           && Qneq_bool low_avg_effect 0
           && Qneq_bool high_avg_effect 0
        then warn (SparseSCWarning
                     "CI doesn't contain 0. You might not have enough placebo effects.")
        else ret tt) ;;
  ret (effect - high_avg_effect, effect - low_avg_effect).

(** [for t in range(T1): CI_vec[:, t] = _gen_CI(placebo_effect_vecs[:, t],
    alpha_ind, effect_vec[t])] over the periods [ts]. *)
Fixpoint gen_CI_vec `{RandomState} (ts : list nat) (placebo_effect_vecs : list vector)
    (alpha_ind : Z) (effect_vec : vector) : M (list (Q * Q)) :=
  match ts with
  | [] => ret []
  | t :: ts' =>
      e <~ lift (match nth_error effect_vec t with
                 | Some e => Ok e
                 | None => Raise (IndexError "index is out of bounds for axis 0")
                 end) ;;
      c <~ _gen_CI (column t placebo_effect_vecs) alpha_ind e true ;;
      cs <~ gen_CI_vec ts' placebo_effect_vecs alpha_ind effect_vec ;;
      ret (c :: cs)
  end.

(** [np.empty(n)] / [np.empty((n, m))]: the cells are unspecified until
    written; they are modelled as [0]. *)
Definition np_empty1 (n : Z) : vector := repeat 0 (Z.to_nat n).
Definition np_empty2 (n : Z) (m : nat) : list vector :=
  repeat (repeat 0 m) (Z.to_nat n).

(** The confidence intervals of the three views (source lines 219-252).
    The index [alpha_ind] is computed in floats: [1 - level], [2 / n_pl] and
    their quotient are each rounded, and [round] is applied to the rounded
    quotient; a quotient by the float zero raises. *)
Definition gen_CIs `{RandomState} (level : Q) (n_pl : Z) (T1 : nat)
    (st : loop_state) (effect_vec : vector) (avg_joint_effect rms_joint_effect : Q)
  : M (CI_int * CI_int * CI_int) :=
  if negb (negb (Qle_bool level 0) && negb (Qle_bool 1 level) && negb (Qle_bool level 0))
  then raise (AssertionError "Use a level in [0,1]")
  else
    let alpha := fl (1 - level) in
    if (n_pl =? 0)%Z then raise (ZeroDivisionError "division by zero")
    else
      let p2min := fl (2 / inject_Z n_pl) in
      if Qeq_bool p2min 0 then raise (ZeroDivisionError "float division by zero")
      else
      let alpha_ind := Z.max 1 (py_round (fl (alpha / p2min))) in
      match placebo_effect_vecs st, placebo_avg_joint_effects st,
            placebo_rms_joint_effects st with
      | Some pev, Some pavg, Some prms =>
          cv <~ gen_CI_vec (seq 0 T1) pev alpha_ind effect_vec ;;
          let CI_vec := mk_CI_int (Array (map fst cv)) (Array (map snd cv)) level in
          ca <~ _gen_CI pavg alpha_ind avg_joint_effect true ;;
          let CI_avg := mk_CI_int (Scalar (fst ca)) (Scalar (snd ca)) level in
          cr <~ _gen_CI prms alpha_ind rms_joint_effect false ;;
          let CI_rms := mk_CI_int (Scalar (fst cr)) (Scalar (snd cr)) level in
          ret (CI_vec, CI_avg, CI_rms)
      | _, _, _ => raise (TypeError "'NoneType' object is not subscriptable")
      end.

(** The aggregates computed before the loop (source lines 152-161);
    [rms_per_unit m] is [np.sqrt(np.mean(np.square(m), axis=1))]. *)
Definition rms_per_unit `{Sqrt} `{Mean} (m : ndarray2) : vector :=
  map np_sqrt
    (np_mean_axis1 (mk_ndarray2 (shape0 m) (shape1 m) (map (map np_square) (rows m)))).

Definition obs_effect_vec `{Mean} (effect_vecs : ndarray2) : vector :=
  np_mean_axis0 effect_vecs.

Definition obs_rms_joint_effect `{Sqrt} `{Mean} (effect_vecs : ndarray2) : Q :=
  np_mean (rms_per_unit effect_vecs).

Definition obs_avg_joint_effect `{Mean} (effect_vecs : ndarray2) : Q :=
  np_mean (np_mean_axis1 effect_vecs).

(** Source lines 181-191: the arrays and counters before the first draw. *)
Definition init_state (keep_pl : bool) (comb_len : Z) (T1 : nat) : loop_state :=
  if keep_pl then
    mk_loop_state (repeat 0%Z T1) 0 0
      (Some (np_empty2 comb_len T1)) (Some (np_empty1 comb_len))
      (Some (np_empty1 comb_len))
  else mk_loop_state (repeat 0%Z T1) 0 0 None None None.

(** Source lines 173-206: the choice of the iterator and the draw loop. *)
Definition draw_loop `{RandomState} `{Sqrt} `{Mean}
    (control_effect_vecs effect_vecs : ndarray2)
    (max_n_pl : Z) (keep_pl : bool) : M loop_state :=
  let N1 := shape0 effect_vecs in
  let N0 := shape0 control_effect_vecs in
  let T1 := shape1 effect_vecs in
  let n_pl := _ncr (Z.of_nat N0) (Z.of_nat N1) in
  let '(comb_iter, comb_len) := choose_iter max_n_pl n_pl N0 N1 in
  for_enumerate (iter_len comb_iter) 0 comb_iter
    (loop_body control_effect_vecs (rms_per_unit control_effect_vecs)
       (np_mean_axis1 control_effect_vecs) (obs_effect_vec effect_vecs)
       (obs_rms_joint_effect effect_vecs) (obs_avg_joint_effect effect_vecs))
    (init_state keep_pl comb_len T1).

(** [_gen_placebo_stats_from_diffs] (source lines 120-266). *)
Definition _gen_placebo_stats_from_diffs `{RandomState} `{Sqrt} `{Mean}
    (control_effect_vecs effect_vecs : ndarray2)
    (max_n_pl : Z) (ret_pl ret_CI : bool) (level : Q) : M PlaceboResults :=
  let N1 := shape0 effect_vecs in
  let N0 := shape0 control_effect_vecs in
  let T1 := shape1 effect_vecs in
  let keep_pl := ret_pl || ret_CI in
  let effect_vec := obs_effect_vec effect_vecs in
  let rms_joint_effect := obs_rms_joint_effect effect_vecs in
  let avg_joint_effect := obs_avg_joint_effect effect_vecs in
  let n_pl := _ncr (Z.of_nat N0) (Z.of_nat N1) in
  let comb_len := snd (choose_iter max_n_pl n_pl N0 N1) in
  st <~ draw_loop control_effect_vecs effect_vecs max_n_pl keep_pl ;;
  vec_p' <~ lift (mapM (fun c => _calculate_p_value c comb_len true) (vec_p st)) ;;
  rms_joint_p' <~ lift (_calculate_p_value (rms_joint_p st) comb_len true) ;;
  avg_joint_p' <~ lift (_calculate_p_value (avg_joint_p st) comb_len true) ;;
  cis <~ (if ret_CI then
            c <~ gen_CIs level n_pl T1 st effect_vec avg_joint_effect rms_joint_effect ;;
            let '(CI_vec, CI_avg, CI_rms) := c in
            ret (Some CI_vec, Some CI_avg, Some CI_rms)
          else ret (None, None, None)) ;;
  let '(CI_vec, CI_avg, CI_rms) := cis in
  ret (mk_PlaceboResults
         (mk_EstResultCI (Array effect_vec) (Array vec_p') CI_vec
            (option_map Placebos2 (placebo_effect_vecs st)))
         (mk_EstResultCI (Scalar avg_joint_effect) (Scalar avg_joint_p') CI_avg
            (option_map Placebos1 (placebo_avg_joint_effects st)))
         (mk_EstResultCI (Scalar rms_joint_effect) (Scalar rms_joint_p') CI_rms
            (option_map Placebos1 (placebo_rms_joint_effects st)))
         comb_len).

(** ** A concrete generator and square root, for running the engine *)

(** A deterministic stand-in for the generator: the state is a counter, and
    the permutation is [range(n)] rotated by the counter. *)
Definition rotate (k : nat) (l : list nat) : list nat := skipn k l ++ firstn k l.

#[local] Instance counter_rng : RandomState.
Proof.
  refine {| rng := nat;
            permutation := fun g n => (rotate (g mod n) (seq 0 n), Datatypes.S g) |}.
  intros g n; unfold rotate; cbn [fst].
  rewrite Permutation_app_comm.
  now rewrite firstn_skipn.
Defined.

(** The reductions in float64 with the entries added in index order, every
    partial sum and the final quotient rounded.  This is the order of numpy
    along the first axis of a matrix, and along a contiguous axis of fewer
    than eight entries (longer ones are added pairwise). *)
Definition fl_sum (v : vector) : Q := fold_left (fun a x => fl (a + x)) v 0.

Definition fl_mean (v : vector) : Q :=
  fl (fl_sum v / inject_Z (Z.of_nat (length v))).

Definition float64_mean : Mean := {|
  np_mean := fl_mean;
  np_mean_axis0 := fun m => map (fun t => fl_mean (column t (rows m))) (seq 0 (shape1 m));
  np_mean_axis1 := fun m => map fl_mean (rows m);
  np_mean_axis0_shape := fun m =>
    eq_trans (length_map _ (seq 0 (shape1 m))) (length_seq (shape1 m) 0);
  np_mean_axis1_shape := fun m => length_map fl_mean (rows m)
|}.

(** A rational approximation of the square root (exact on the squares of
    multiples of 1/1000). *)
Definition approx_sqrt (x : Q) : Q :=
  let s := Qred (x * inject_Z 1000000) in
  inject_Z (Z.sqrt (Qnum s / Zpos (Qden s))) / inject_Z 1000.

#[local] Instance rational_sqrt : Sqrt := {| np_sqrt := approx_sqrt |}.

Definition run `{RandomState} {A : Type} (c : M A) (g : rng) : result A * world :=
  c (mk_world _ g []).

(** ** [penalty_utils.py] *)

(** What [np.asmatrix] makes of an argument: a matrix, or a [ValueError]. *)
Inductive raw_data : Type :=
| Coercible (m : ndarray2)
| NotCoercible.

(** A value passed for [X_treat] / [Y_treat], and more generally as a keyword
    option: [None], an [np.matrix], or anything else. *)
Inductive pyarg : Type :=
| ArgNone
| ArgMatrix (m : ndarray2)
| ArgOther (repr : string).

(** [**kwargs]: keyword options in call order. *)
Definition kwargs := list (string * pyarg).

(** [key in kwargs]. *)
Definition kw_mem (key : string) (kw : kwargs) : bool :=
  existsb (fun e => String.eqb key (fst e)) kw.

Definition kw_get (key : string) (kw : kwargs) : option pyarg :=
  option_map snd (find (fun e => String.eqb key (fst e)) kw).

Definition kw_remove (key : string) (kw : kwargs) : kwargs :=
  filter (fun e => negb (String.eqb key (fst e))) kw.

(** The [w_pen] argument: omitted, a single number, or an iterable of
    numbers. *)
Inductive w_pen_arg : Type :=
| WNone
| WScalar (w : Q)
| WIter (ws : list Q).

(** The value returned to the caller: one bound, or a list of bounds. *)
Inductive PenaltyBound : Type :=
| Single (b : Q)
| Many (bs : list Q).

Definition _GRADIENT_MESSAGE : string :=
  "Calculating maximum covariate penalty (i.e. the gradient at zero)".

(** The three gradient strategies imported from [SparseSC.fit_loo],
    [SparseSC.fit_fold] and [SparseSC.fit_ct].  Their bodies are outside this
    module; they are taken as functions of their arguments
    ([X], [Y], [w_pen], the unit index sets for the held-out-treated strategy,
    [return_max_v_pen], [gradient_message], [**kwargs]) that return the bound
    or raise. *)
Class GradientStrategies : Type := {
  loo_v_matrix : ndarray2 -> ndarray2 -> Q -> bool -> string -> kwargs -> result Q;
  fold_v_matrix : ndarray2 -> ndarray2 -> Q -> bool -> string -> kwargs -> result Q;
  ct_v_matrix : ndarray2 -> ndarray2 -> Q -> list nat -> list nat -> bool -> string
                -> kwargs -> result Q
}.

(** [np.var(v)]: the population variance.  The penalty guess is returned to
    the strategies and not compared here: its means are the exact ones
    ([rational_mean]). *)
Definition np_var (v : vector) : Q :=
  let m := np_mean v in np_mean (map (fun x => np_square (Qabs (x - m))) v).

(** [w_pen_guestimate]: [np.mean(np.var(X, axis=0))]. *)
Definition w_pen_guestimate (X : ndarray2) : Q :=
  np_mean (map (fun t => np_var (column t (rows X))) (seq 0 (shape1 X))).

(** [np.vstack((a, b))]. *)
Definition np_vstack (a b : ndarray2) : result ndarray2 :=
  if (shape1 a =? shape1 b)%nat then
    Ok (mk_ndarray2 (shape0 a + shape0 b) (shape1 a) (rows a ++ rows b))
  else Raise (ValueError "all the input array dimensions except for the concatenation axis must match exactly").

(** [np.arange(start, stop)]. *)
Definition np_arange (start stop : nat) : list nat := seq start (stop - start).

(** ["%s" % n] for a shape entry. *)
Definition str_of_nat (n : nat) : string :=
  NilEmpty.string_of_uint (Nat.to_uint n).

Definition memory_message : string :=
  "MemoryError encountered.  Try setting `grad_splits` parameter to reduce memory requirements.".

(** [try: ... except MemoryError: raise RuntimeError(...)]. *)
Definition except_MemoryError {A : Type} (r : result A) : result A :=
  match r with
  | Raise MemoryError => Raise (RuntimeError memory_message)
  | _ => r
  end.

(** The parameter checks of [get_max_v_pen] (source lines 43-64); they return
    the two matrices. *)
Definition parameter_qc (X Y : raw_data) (X_treat Y_treat : pyarg)
  : result (ndarray2 * ndarray2) :=
  X <- match X with
       | Coercible m => Ok m
       | NotCoercible => Raise (ValueError "X is not coercible to a matrix")
       end ;;
  Y <- match Y with
       | Coercible m => Ok m
       | NotCoercible => Raise (ValueError "Y is not coercible to a matrix")
       end ;;
  let is_none a := match a with ArgNone => true | _ => false end in
  if negb (Bool.eqb (is_none X_treat) (is_none Y_treat)) then
    Raise (ValueError "parameters `X_treat` and `Y_treat` must both be Matrices or None")
  else if (shape1 X =? 0)%nat then Raise (ValueError "X.shape[1] == 0")
  else if (shape1 Y =? 0)%nat then Raise (ValueError "Y.shape[1] == 0")
  else if negb (shape0 X =? shape0 Y)%nat then
    Raise (ValueError ("X and Y have different number of rows ("
                       ++ str_of_nat (shape0 X) ++ " and "
                       ++ str_of_nat (shape0 Y) ++ ")")%string)
  else Ok (X, Y).

(** The checks on the treated pair (source lines 70-83). *)
Definition treat_qc (X Y : ndarray2) (X_treat Y_treat : pyarg)
  : result (ndarray2 * ndarray2) :=
  match X_treat with
  | ArgMatrix Xt =>
      match Y_treat with
      | ArgMatrix Yt =>
          if (shape1 Xt =? 0)%nat then Raise (ValueError "X_treat.shape[1] == 0")
          else if (shape1 Yt =? 0)%nat then Raise (ValueError "Y_treat.shape[1] == 0")
          else if negb (shape0 Xt =? shape0 Yt)%nat then
            Raise (ValueError ("X_treat and Y_treat have different number of rows ("
                               ++ str_of_nat (shape0 X) ++ " and "
                               ++ str_of_nat (shape0 Y) ++ ")")%string)
          else Ok (Xt, Yt)
      | _ => Raise (TypeError "Y_treat is not a matrix")
      end
  | _ => Raise (TypeError "X_treat is not a matrix")
  end.

(** One call of the held-out-treated strategy on the stacked design. *)
Definition call_ct `{GradientStrategies} (X Y Xt Yt : ndarray2)
    (control_units treated_units : list nat) (kw : kwargs) (w_pen : Q) : result Q :=
  Xs <- np_vstack X Xt ;;
  Ys <- np_vstack Y Yt ;;
  ct_v_matrix Xs Ys w_pen control_units treated_units true _GRADIENT_MESSAGE kw.

(** [get_max_v_pen] (source lines 32-182). *)
Definition get_max_v_pen `{GradientStrategies} (X Y : raw_data) (w_pen : w_pen_arg)
    (X_treat Y_treat : pyarg) (kw : kwargs) : result PenaltyBound :=
  XY <- parameter_qc X Y X_treat Y_treat ;;
  let '(X, Y) := XY in
  let w_pen := match w_pen with
               | WNone => WScalar (w_pen_guestimate X)
               | _ => w_pen
               end in
  match X_treat with
  | ArgNone =>
      match w_pen with
      | WIter ws =>
          if kw_mem "grad_splits" kw then
            bs <- mapM (fun _w_pen => fold_v_matrix X Y _w_pen true _GRADIENT_MESSAGE kw) ws ;;
            Ok (Many bs)
          else
            bs <- except_MemoryError
                    (mapM (fun _w_pen => loo_v_matrix X Y _w_pen true _GRADIENT_MESSAGE kw) ws) ;;
            Ok (Many bs)
      | WScalar w =>
          if kw_mem "grad_splits" kw then
            b <- fold_v_matrix X Y w true _GRADIENT_MESSAGE kw ;;
            Ok (Single b)
          else
            b <- except_MemoryError (loo_v_matrix X Y w true _GRADIENT_MESSAGE kw) ;;
            Ok (Single b)
      | WNone => Raise (TypeError "unreachable")
      end
  | _ =>
      XYt <- treat_qc X Y X_treat Y_treat ;;
      let '(Xt, Yt) := XYt in
      let control_units := np_arange 0 (shape0 X) in
      let treated_units := np_arange (shape0 X) (shape0 X + shape0 Xt) in
      match w_pen with
      | WIter ws =>
          bs <- mapM (call_ct X Y Xt Yt control_units treated_units kw) ws ;;
          Ok (Many bs)
      | WScalar w =>
          b <- call_ct X Y Xt Yt control_units treated_units kw w ;;
          Ok (Single b)
      | WNone => Raise (TypeError "unreachable")
      end
  end.

(** Binding [**kwargs] to the signature of [get_max_v_pen] when [w_pen] is
    also passed by keyword: a second [w_pen] is a [TypeError]; [X_treat] and
    [Y_treat] are taken out of the options. *)
Definition call_get_max_v_pen `{GradientStrategies} (X Y : raw_data) (w_pen : w_pen_arg)
    (kw : kwargs) : result PenaltyBound :=
  if kw_mem "w_pen" kw then
    Raise (TypeError "get_max_v_pen() got multiple values for keyword argument 'w_pen'")
  else
    let X_treat := match kw_get "X_treat" kw with Some a => a | None => ArgNone end in
    let Y_treat := match kw_get "Y_treat" kw with Some a => a | None => ArgNone end in
    get_max_v_pen X Y w_pen X_treat Y_treat
      (kw_remove "X_treat" (kw_remove "Y_treat" kw)).

(** [bound / v_pen]; a Python float division by zero raises. *)
Definition div_bound (b : PenaltyBound) (v_pen : Q) : result PenaltyBound :=
  match b with
  | Single r =>
      if Qeq_bool v_pen 0 then Raise (ZeroDivisionError "float division by zero")
      else Ok (Single (r / v_pen))
  | Many _ => Raise (TypeError "unsupported operand type(s) for /: 'list' and 'float'")
  end.

(** [get_max_w_pen] (source lines 23-30). *)
Definition get_max_w_pen `{GradientStrategies} (X Y : raw_data) (v_pen : Q)
    (kw : kwargs) : result PenaltyBound :=
  b <- call_get_max_v_pen X Y (WScalar 1) kw ;;
  div_bound b v_pen.

(** Gradient strategies for running the dispatcher: [affine_strategies]
    returns a bound that depends on [w_pen] and on the strategy;
    [exhausted_strategies] runs out of memory in every strategy. *)
#[local] Instance affine_strategies : GradientStrategies := {|
  loo_v_matrix := fun _ _ w _ _ _ => Ok (w + 1);
  fold_v_matrix := fun _ _ w _ _ _ => Ok (w + 2);
  ct_v_matrix := fun _ _ w _ _ _ _ _ => Ok (w + 3)
|}.

#[local] Instance exhausted_strategies : GradientStrategies := {|
  loo_v_matrix := fun _ _ _ _ _ _ => Raise MemoryError;
  fold_v_matrix := fun _ _ _ _ _ _ => Raise MemoryError;
  ct_v_matrix := fun _ _ _ _ _ _ _ _ => Raise MemoryError
|}.

(** Strategies of which only the cross-fold one returns. *)
#[local] Instance fold_only_strategies : GradientStrategies := {|
  loo_v_matrix := fun _ _ _ _ _ _ => Raise MemoryError;
  fold_v_matrix := fun _ _ w _ _ _ => Ok (w + 2);
  ct_v_matrix := fun _ _ _ _ _ _ _ _ => Raise MemoryError
|}.

(** Sample data: three (four) control units and one treated unit over one
    period; one unit over no period. *)
Definition control3 : ndarray2 := mk_ndarray2 3 1 [[1]; [2]; [3]].
Definition control4 : ndarray2 := mk_ndarray2 4 1 [[1]; [2]; [3]; [4]].
Definition treated1 : ndarray2 := mk_ndarray2 1 1 [[5]].
Definition treated5 : ndarray2 := mk_ndarray2 5 1 [[1]; [1]; [1]; [1]; [1]].
Definition no_period : ndarray2 := mk_ndarray2 1 0 [[]].

(** Four control units whose two upper order statistics are positive, with a
    treated unit between them; four control units around zero, with a
    treated unit far above them. *)
Definition control_upper : ndarray2 := mk_ndarray2 4 1 [[-1]; [0]; [1]; [3]].
Definition treated_between : ndarray2 := mk_ndarray2 1 1 [[3 # 2]].
Definition control_around : ndarray2 := mk_ndarray2 4 1 [[-3]; [-2]; [-1]; [2]].
Definition treated_above : ndarray2 := mk_ndarray2 1 1 [[10]].
Definition X52 : ndarray2 :=
  mk_ndarray2 5 2 [[1; 2]; [2; 3]; [3; 5]; [4; 7]; [5; 11]].

(** ** Predicates used in the statements *)

(** A matrix as numpy holds it: [shape0] rows of [shape1] entries. *)
Definition well_formed (m : ndarray2) : Prop :=
  length (rows m) = shape0 m /\ Forall (fun r => length r = shape1 m) (rows m).

(** Every entry is at most [2^400] in magnitude.  No square, sum or mean
    over such entries leaves the float64 range, so every float of a run on
    them is an ordinary number, neither [inf] nor [nan]. *)
Definition finite_range (m : ndarray2) : Prop :=
  Forall (Forall (fun x => Qabs x <= 2 ^ 400)) (rows m).

(** The inputs on which the placebo engine is meant to run: two matrices over
    the same [T1 >= 1] periods, with [1 <= N1 <= N0] units, whose entries are
    in range. *)
Definition valid_placebo_input (control effect : ndarray2) : Prop :=
  well_formed control /\ well_formed effect
  /\ shape1 control = shape1 effect
  /\ (1 <= shape0 effect <= shape0 control)%nat
  /\ (1 <= shape1 effect)%nat
  /\ finite_range control /\ finite_range effect.

(** After [idx] draws every counter lies between [0] and [idx]. *)
Definition counts_ok (idx : nat) (st : loop_state) : Prop :=
  (Forall (fun c => 0 <= c <= Z.of_nat idx) (vec_p st)
   /\ 0 <= rms_joint_p st <= Z.of_nat idx
   /\ 0 <= avg_joint_p st <= Z.of_nat idx)%Z.

(** The arrays of the loop have the shapes they were allocated with: [T1]
    counters and, when draws are retained, [L] rows of [T1] cells. *)
Definition shape_ok (T1 L : nat) (st : loop_state) : Prop :=
  length (vec_p st) = T1
  /\ match placebo_effect_vecs st, placebo_avg_joint_effects st,
           placebo_rms_joint_effects st with
     | Some pev, Some pavg, Some prms =>
         length pev = L /\ Forall (fun r => length r = T1) pev
         /\ length pavg = L /\ length prms = L
     | None, None, None => True
     | _, _, _ => False
     end.

(** The specification's wording of the degenerate-interval condition: both
    bounds are nonzero and share the same sign. *)
Definition both_nonzero_same_sign (low high : Q) : Prop :=
  (0 < low /\ 0 < high) \/ (low < 0 /\ high < 0).

(** The warning of [_gen_CI]. *)
Definition ci_warning : warning :=
  SparseSCWarning "CI doesn't contain 0. You might not have enough placebo effects.".

(** The order-statistic index of source line 222, as the floats give it. *)
Definition alpha_index (level : Q) (n_pl : Z) : Z :=
  Z.max 1 (py_round (fl (fl (1 - level) / fl (2 / inject_Z n_pl)))).

(** [warned] tells whether the two order statistics that [_gen_CI] reads from
    the distribution [pl] are both nonzero and of the same sign. *)
Definition degenerate_flag (alpha_ind : Z) (pl : vector) (warned : bool) : Prop :=
  exists low high,
    get_item (np_sort pl) alpha_ind = Ok low
    /\ get_item (np_sort pl) ((Z.of_nat (length pl) + 1) - alpha_ind)%Z = Ok high
    /\ (warned = true <-> both_nonzero_same_sign low high).

(** The log entries of a sequence of interval computations. *)
Definition warnings_of (flags : list bool) : list warning :=
  flat_map (fun b : bool => if b then [ci_warning] else []) flags.

(** The specification's wording of a p-value under the inclusive convention:
    [(count + 1) / (comb_len + 1)] for a count between [0] and [comb_len]. *)
Definition inclusive_p_value (count comb_len : Z) : Q :=
  inject_Z (count + 1) / inject_Z (comb_len + 1).

(** The inputs the dispatcher accepts: the parameter checks pass, and so do
    the checks on the treated pair when one is given. *)
Definition valid_inputs (X Y : raw_data) (X_treat Y_treat : pyarg) : Prop :=
  exists Xm Ym,
    parameter_qc X Y X_treat Y_treat = Ok (Xm, Ym)
    /\ (X_treat = ArgNone
        \/ exists Xt Yt, treat_qc Xm Ym X_treat Y_treat = Ok (Xt, Yt)).

(** The single bound of a call made with one [w_pen]. *)
Definition single_bound (r : result PenaltyBound) : result Q :=
  match r with
  | Ok (Single b) => Ok b
  | Ok (Many _) => Raise (TypeError "a list of bounds where one bound is expected")
  | Raise e => Raise e
  end.

(** The generator state after [k] calls of [np.random.permutation(n)]. *)
Fixpoint gen_after `{RandomState} (k n : nat) (g : rng) : rng :=
  match k with
  | O => g
  | Datatypes.S k' => gen_after k' n (snd (permutation g n))
  end.

(** The combinations that [k] successive calls of
    [np.random.choice(n, c, replace=False)] return, from generator state
    [g]. *)
Fixpoint drawn `{RandomState} (k n c : nat) (g : rng) : list (list nat) :=
  match k with
  | O => []
  | Datatypes.S k' =>
      firstn c (fst (permutation g n)) :: drawn k' n c (snd (permutation g n))
  end.

(** The aggregates of the draw [comb] when every index is in range: the
    per-period means, the mean RMS and the mean average of the selected
    control units. *)
Definition draw_vec `{Mean} (control : ndarray2) (comb : list nat) : vector :=
  np_mean_axis0
    (mk_ndarray2 (length comb) (shape1 control)
       (map (fun i => nth i (rows control) []) comb)).

Definition draw_mean `{Mean} (per_unit : vector) (comb : list nat) : Q :=
  np_mean (map (fun i => nth i per_unit 0) comb).

(** The number of list entries that satisfy a test. *)
Definition count_if {A : Type} (f : A -> bool) (l : list A) : Z :=
  Z.of_nat (length (filter f l)).

(** The interval [_gen_CI] returns when both of its indices are in range:
    the two order statistics of the distribution, flipped around the
    effect. *)
Definition flipped_interval (pl : vector) (alpha_ind : Z) (effect : Q) : Q * Q :=
  (effect - nth (Z.to_nat (Z.of_nat (length pl) + 1 - alpha_ind)) (np_sort pl) 0,
   effect - nth (Z.to_nat alpha_ind) (np_sort pl) 0).

(** The state of the draw loop after the draws [done], for arrays allocated
    with [L] rows: each counter is the number of draws at least as extreme as
    the observed value, and the retained arrays hold the aggregates of the
    draws in draw order, followed by the untouched cells. *)
Definition loop_inv `{Mean} (control : ndarray2) (crms cavg ev : vector)
    (rms_obs avg_obs : Q)
    (keep : bool) (L : nat) (done : list (list nat)) (st : loop_state) : Prop :=
  length (vec_p st) = length ev
  /\ (forall t, (t < length ev)%nat ->
        nth t (vec_p st) 0%Z
        = count_if (fun comb => Qge_bool (Qabs (nth t (draw_vec control comb) 0))
                                  (Qabs (nth t ev 0))) done)
  /\ rms_joint_p st = count_if (fun comb => Qge_bool (draw_mean crms comb) rms_obs) done
  /\ avg_joint_p st
     = count_if (fun comb => Qge_bool (Qabs (draw_mean cavg comb)) (Qabs avg_obs)) done
  /\ placebo_effect_vecs st
     = (if keep then
          Some (map (draw_vec control) done
                ++ repeat (repeat 0 (length ev)) (L - length done))
        else None)
  /\ placebo_avg_joint_effects st
     = (if keep then Some (map (draw_mean cavg) done ++ repeat 0 (L - length done))
        else None)
  /\ placebo_rms_joint_effects st
     = (if keep then Some (map (draw_mean crms) done ++ repeat 0 (L - length done))
        else None).

(** * Properties *)

(** ** The combination count *)

Local Open Scope Z_scope.

(** The test of line 174 never holds: it asks [max_n_pl > 0 > max_n_pl]. *)
Lemma randomize_test_false (max_n_pl n_pl : Z) :
  randomize_test max_n_pl n_pl = false.
Proof.
  unfold randomize_test.
  rewrite Z.land_0_l.
  destruct (max_n_pl >? 0) eqn:E1, (0 >? max_n_pl) eqn:E2; try reflexivity.
  rewrite Z.gtb_lt in E1, E2. lia.
Qed.

Lemma choose_iter_random (max_n_pl n_pl : Z) (N0 N1 : nat) :
  choose_iter max_n_pl n_pl N0 N1 = (_random_combinations n_pl N0 N1, n_pl).
Proof. unfold choose_iter. now rewrite randomize_test_false. Qed.

Lemma py_range_down (n : Z) (r : nat) :
  py_range n (n - Z.of_nat r) (-1) = map (fun i => n - Z.of_nat i) (seq 0 r).
Proof.
  unfold py_range. cbn [Z.ltb Z.compare].
  replace (n - (n - Z.of_nat r) - -1 - 1) with (Z.of_nat r) by lia.
  change (- -1) with 1. rewrite Z.div_1_r, Z.max_r by lia.
  rewrite Nat2Z.id. apply map_ext. intros; lia.
Qed.

Lemma py_range_up (r : nat) :
  py_range 1 (Z.of_nat r + 1) 1 = map (fun i => 1 + Z.of_nat i) (seq 0 r).
Proof.
  unfold py_range. cbn [Z.ltb Z.compare].
  replace (Z.of_nat r + 1 - 1 + 1 - 1) with (Z.of_nat r) by lia.
  rewrite Z.div_1_r, Z.max_r by lia.
  rewrite Nat2Z.id. apply map_ext. intros; lia.
Qed.

Lemma py_range_empty_down (start stop : Z) :
  start <= stop -> py_range start stop (-1) = [].
Proof.
  intros H. unfold py_range. cbn [Z.ltb Z.compare].
  change (- -1) with 1. rewrite Z.div_1_r, Z.max_l by lia. reflexivity.
Qed.

Lemma py_range_empty_up (start stop : Z) :
  stop <= start -> py_range start stop 1 = [].
Proof.
  intros H. unfold py_range. cbn [Z.ltb Z.compare].
  rewrite Z.div_1_r, Z.max_l by lia. reflexivity.
Qed.

Lemma binom_gt (n k : nat) : (n < k)%nat -> binom n k = 0%nat.
Proof.
  revert k. induction n as [|n IH]; intros [|k] H; cbn [binom]; try lia.
  rewrite !IH by lia. reflexivity.
Qed.

Lemma binom_fact (n k : nat) :
  (k <= n)%nat -> (binom n k * fact k * fact (n - k) = fact n)%nat.
Proof.
  revert k. induction n as [|n IH]; intros [|k] H.
  - reflexivity.
  - lia.
  - cbn [binom]. rewrite Nat.sub_0_r. cbn [fact]. lia.
  - cbn [binom]. replace (S n - S k)%nat with (n - k)%nat by lia.
    destruct (Nat.eq_dec k n) as [->|Hne].
    + rewrite (binom_gt n (S n)) by lia.
      specialize (IH n (Nat.le_refl n)). rewrite Nat.sub_diag in *.
      cbn [fact] in *. nia.
    + pose proof (IH k ltac:(lia)) as H1.
      pose proof (IH (S k) ltac:(lia)) as H2.
      replace (n - k)%nat with (S (n - S k)) in * by lia.
      cbn [fact] in *. 
      assert (E : (n - S k + k = n - 1)%nat) by lia.
      nia.
Qed.

Lemma binom_sym (n k : nat) : (k <= n)%nat -> binom n (n - k) = binom n k.
Proof.
  intros H.
  pose proof (binom_fact n k H) as H1.
  pose proof (binom_fact n (n - k) ltac:(lia)) as H2.
  replace (n - (n - k))%nat with k in H2 by lia.
  pose proof (lt_O_fact k). pose proof (lt_O_fact (n - k)).
  apply (Nat.mul_cancel_r _ _ (fact k * fact (n - k))); [nia | lia].
Qed.

Lemma reduce_mul_up (r : nat) :
  reduce_mul (map (fun i => 1 + Z.of_nat i) (seq 0 r)) 1 = Z.of_nat (fact r).
Proof.
  induction r as [|r IH].
  - reflexivity.
  - rewrite seq_S, map_app. unfold reduce_mul in *.
    rewrite fold_left_app, IH. cbn [map fold_left Nat.add fact]. lia.
Qed.

Lemma reduce_mul_down (n r : nat) :
  (r <= n)%nat ->
  reduce_mul (map (fun i => Z.of_nat n - Z.of_nat i) (seq 0 r)) 1
  * Z.of_nat (fact (n - r)) = Z.of_nat (fact n).
Proof.
  induction r as [|r IH]; intros H.
  - cbn. rewrite Nat.sub_0_r. destruct (Z.of_nat (fact n)); reflexivity.
  - rewrite seq_S, map_app. unfold reduce_mul in *.
    rewrite fold_left_app. cbn [map fold_left Nat.add].
    specialize (IH ltac:(lia)).
    replace (n - r)%nat with (S (n - S r)) in IH by lia.
    cbn [fact] in IH. nia.
Qed.

Lemma ncr_small (n m : nat) :
  (m <= n)%nat ->
  reduce_mul (py_range (Z.of_nat n) (Z.of_nat n - Z.of_nat m) (-1)) 1
  / reduce_mul (py_range 1 (Z.of_nat m + 1) 1) 1 = Z.of_nat (binom n m).
Proof.
  intros H.
  rewrite py_range_down, py_range_up, reduce_mul_up.
  pose proof (reduce_mul_down n m H) as Hd.
  pose proof (binom_fact n m H) as Hb.
  pose proof (lt_O_fact m). pose proof (lt_O_fact (n - m)).
  set (numer := reduce_mul _ 1) in *.
  assert (E : numer = Z.of_nat (binom n m) * Z.of_nat (fact m)) by nia.
  rewrite E. apply Z.div_mul. lia.
Qed.

(** [_ncr] computes the binomial coefficient when [0 <= r <= n]. *)
Lemma ncr_binom (n r : nat) :
  (r <= n)%nat -> _ncr (Z.of_nat n) (Z.of_nat r) = Z.of_nat (binom n r).
Proof.
  intros H. unfold _ncr.
  destruct (Z.min_spec (Z.of_nat r) (Z.of_nat n - Z.of_nat r)) as [[_ ->]|[_ ->]].
  - now apply ncr_small.
  - replace (Z.of_nat n - Z.of_nat r) with (Z.of_nat (n - r)) by lia.
    rewrite ncr_small by lia. now rewrite binom_sym.
Qed.

(** With more treated than control units both ranges of [_ncr] are empty and
    the count is [1]. *)
Lemma ncr_degenerate (n r : nat) :
  (n < r)%nat -> _ncr (Z.of_nat n) (Z.of_nat r) = 1.
Proof.
  intros H. unfold _ncr.
  rewrite Z.min_r by lia.
  rewrite py_range_empty_down, py_range_empty_up by lia.
  reflexivity.
Qed.

Lemma binom_pos (n k : nat) : (k <= n)%nat -> (0 < binom n k)%nat.
Proof.
  intros H. pose proof (binom_fact n k H). pose proof (lt_O_fact n).
  destruct (binom n k); [cbn in *; lia | lia].
Qed.

Lemma ncr_pos (n r : nat) : 1 <= _ncr (Z.of_nat n) (Z.of_nat r).
Proof.
  destruct (le_lt_dec r n) as [H|H].
  - rewrite ncr_binom by assumption. pose proof (binom_pos n r H). lia.
  - rewrite ncr_degenerate by assumption. lia.
Qed.

(** ** The draw loop *)

Section DrawLoop.

Context `{RS : RandomState}.

Lemma np_random_choice_ok (n c : nat) (w : world) :
  (c <= n)%nat ->
  exists comb w',
    np_random_choice n c w = (Ok comb, w')
    /\ Forall (fun i => (i < n)%nat) comb
    /\ log w' = log w.
Proof.
  intros H. unfold np_random_choice.
  assert (E1 : ((n =? 0) && negb (c =? 0))%nat = false).
  { destruct (Nat.eqb_spec n 0), (Nat.eqb_spec c 0); cbn; try reflexivity; lia. }
  rewrite E1.
  assert (E2 : (n <? c)%nat = false) by (apply Nat.ltb_ge; lia).
  rewrite E2.
  pose proof (permutation_perm (gen w) n) as Hp.
  destruct (permutation (gen w) n) as [perm g'] eqn:Eperm. cbn [fst] in Hp.
  exists (firstn c perm), (mk_world _ g' (log w)).
  split; [reflexivity|]. split; [|reflexivity].
  apply Forall_forall. intros x Hx.
  assert (Hx' : In x perm).
  { rewrite <- (firstn_skipn c perm). apply in_or_app. now left. }
  apply (Permutation_in _ Hp) in Hx'.
  rename Hx' into Hy. clear Hx. rename Hy into Hx.
  apply in_seq in Hx. lia.
Qed.

Lemma np_random_choice_too_many (n c : nat) (w : world) :
  (n < c)%nat ->
  exists msg, np_random_choice n c w = (Raise (ValueError msg), w).
Proof.
  intros H. unfold np_random_choice.
  destruct ((n =? 0) && negb (c =? 0))%nat.
  - eexists; reflexivity.
  - assert (E2 : (n <? c)%nat = true) by (apply Nat.ltb_lt; lia).
    rewrite E2. eexists; reflexivity.
Qed.

Lemma np_random_choice_log (n c : nat) (w w' : world) (r : result (list nat)) :
  np_random_choice n c w = (r, w') -> log w' = log w.
Proof.
  unfold np_random_choice.
  destruct ((n =? 0) && negb (c =? 0))%nat; [intros [= _ <-]; reflexivity|].
  destruct (n <? c)%nat; [intros [= _ <-]; reflexivity|].
  destruct (permutation (gen w) n). intros [= _ <-]. reflexivity.
Qed.

(** An exhausted iterator yields nothing, so a loop that stops when its fuel
    [iter_len it] is used up has taken every item. *)
Lemma next_comb_exhausted (it : comb_iter) (w : world) :
  (forall i num n c, it = IterRandom i num n c -> (i <= num)%Z) ->
  iter_len it = 0%nat -> next_comb it w = (Ok None, w).
Proof.
  intros Hle H. destruct it as [[|x l]|i num n c]; cbn in *; try reflexivity; try lia.
  specialize (Hle _ _ _ _ eq_refl).
  assert (E : (i <? num) = false) by (apply Z.ltb_ge; lia).
  now rewrite E.
Qed.

Variable S : Type.
Variable body : nat -> list nat -> S -> result S.
Variable P : nat -> S -> Prop.

(** An invariant kept by the body holds after the loop, which writes no
    warning. *)
Lemma for_enumerate_random_inv :
  (forall idx comb st st', P idx st -> body idx comb st = Ok st' -> P (Datatypes.S idx) st') ->
  forall fuel idx i num n c st w st' w',
    fuel = Z.to_nat (num - i) ->
    P idx st ->
    for_enumerate fuel idx (IterRandom i num n c) body st w = (Ok st', w') ->
    P (idx + fuel)%nat st' /\ log w' = log w.
Proof.
  intros Hbody fuel.
  induction fuel as [|fuel IH]; intros idx i num n c st w st' w' Hfuel HP Hrun.
  - cbn in Hrun. injection Hrun as <- <-. rewrite Nat.add_0_r. now split.
  - cbn [for_enumerate next_comb] in Hrun. unfold bindM in Hrun.
    assert (E : (i <? num) = true) by (apply Z.ltb_lt; lia).
    rewrite E in Hrun.
    destruct (np_random_choice n c w) as [[comb|e] w1] eqn:Ech; [|discriminate].
    apply np_random_choice_log in Ech.
    cbn [ret lift] in Hrun.
    destruct (body idx comb st) as [st1|e] eqn:Eb; [|discriminate].
    apply IH in Hrun; [|lia|eauto].
    destruct Hrun as [HP' Hlog]. split.
    + now replace (idx + Datatypes.S fuel)%nat with (Datatypes.S idx + fuel)%nat by lia.
    + congruence.
Qed.

(** When the body cannot fail on in-range draws, the loop over
    [_random_combinations] completes. *)
Lemma for_enumerate_random_total (n c bound : nat) :
  (c <= n)%nat ->
  (forall idx comb st,
      P idx st -> Forall (fun i => (i < n)%nat) comb -> (idx < bound)%nat ->
      exists st', body idx comb st = Ok st' /\ P (Datatypes.S idx) st') ->
  forall fuel idx i num st w,
    fuel = Z.to_nat (num - i) ->
    (idx + fuel <= bound)%nat ->
    P idx st ->
    exists st' w',
      for_enumerate fuel idx (IterRandom i num n c) body st w = (Ok st', w')
      /\ P (idx + fuel)%nat st' /\ log w' = log w.
Proof.
  intros Hc Hbody fuel.
  induction fuel as [|fuel IH]; intros idx i num st w Hfuel Hb HP.
  - exists st, w. cbn. rewrite Nat.add_0_r. auto.
  - cbn [for_enumerate next_comb]. unfold bindM.
    assert (E : (i <? num) = true) by (apply Z.ltb_lt; lia).
    rewrite E.
    destruct (np_random_choice_ok n c w Hc) as (comb & w1 & -> & Hin & Hlog1).
    cbn [ret lift].
    destruct (Hbody idx comb st HP Hin ltac:(lia)) as (st1 & -> & HP1).
    destruct (IH (Datatypes.S idx) (i + 1) num st1 w1 ltac:(lia) ltac:(lia) HP1)
      as (st' & w' & Hrun & HP' & Hlog).
    exists st', w'. split; [exact Hrun|]. split.
    + now replace (idx + Datatypes.S fuel)%nat with (Datatypes.S idx + fuel)%nat by lia.
    + congruence.
Qed.

(** With more items requested than the population holds, the first draw
    raises inside [np.random.choice], before the body runs. *)
Lemma for_enumerate_random_fails (n c : nat) (num : Z) (st : S) (w : world) :
  (n < c)%nat -> 1 <= num ->
  exists msg,
    np_random_choice n c w = (Raise (ValueError msg), w)
    /\ for_enumerate (Z.to_nat (num - 0)) 0 (IterRandom 0 num n c) body st w
       = (Raise (ValueError msg), w).
Proof.
  intros Hc Hnum.
  destruct (np_random_choice_too_many n c w Hc) as (msg & E).
  exists msg. split; [exact E|].
  destruct (Z.to_nat (num - 0)) as [|fuel] eqn:Ef; [lia|].
  cbn [for_enumerate next_comb]. unfold bindM.
  assert (E0 : (0 <? num) = true) by (apply Z.ltb_lt; lia).
  rewrite E0, E. reflexivity.
Qed.

End DrawLoop.

(** ** Array helpers *)

Lemma mapM_ok_length {A B : Type} (f : A -> result B) (l : list A) (bs : list B) :
  mapM f l = Ok bs -> length bs = length l.
Proof.
  revert bs. induction l as [|a l IH]; intros bs H; cbn in H.
  - now injection H as <-.
  - destruct (f a); [|discriminate]. cbn in H.
    destruct (mapM f l) as [bs'|]; [|discriminate]. cbn in H.
    injection H as <-. cbn. now rewrite (IH bs').
Qed.

Lemma mapM_Forall2 {A B : Type} (f : A -> result B) (l : list A) (bs : list B) :
  mapM f l = Ok bs <-> Forall2 (fun a b => f a = Ok b) l bs.
Proof.
  revert bs. induction l as [|a l IH]; intros bs; cbn.
  - split.
    + intros [= <-]. constructor.
    + intros H. inversion H. reflexivity.
  - split.
    + destruct (f a) as [b|] eqn:E; [|discriminate]. cbn.
      destruct (mapM f l) as [bs'|]; [|discriminate]. cbn.
      intros [= <-]. constructor; [exact E|]. now apply IH.
    + intros H. inversion H as [|? b ? bs' Hab Hrest]; subst.
      rewrite Hab. cbn. apply IH in Hrest. rewrite Hrest. reflexivity.
Qed.

Lemma np_take_ok {A : Type} (a : list A) (comb : list nat) :
  Forall (fun i => (i < length a)%nat) comb ->
  exists l, np_take a comb = Ok l /\ length l = length comb.
Proof.
  unfold np_take. induction 1 as [|i comb Hi _ (l & IH & Hl)]; cbn.
  - exists []. auto.
  - destruct (nth_error a i) as [x|] eqn:E.
    + cbn. rewrite IH. cbn. exists (x :: l). cbn. auto.
    + apply nth_error_None in E. lia.
Qed.

Lemma set_item_ok {A : Type} (a : list A) (idx : nat) (v : A) :
  (idx < length a)%nat ->
  exists a', set_item a idx v = Ok a'
             /\ length a' = length a
             /\ forall Q : A -> Prop, Q v -> Forall Q a -> Forall Q a'.
Proof.
  revert idx. induction a as [|x a IH]; intros idx H; cbn in H; [lia|].
  destruct idx as [|idx]; cbn.
  - exists (v :: a). repeat split; auto.
    intros Q Hv Ha. inversion Ha; subst. now constructor.
  - destruct (IH idx ltac:(lia)) as (a' & -> & Hlen & HQ). cbn.
    exists (x :: a'). repeat split; cbn; auto.
    intros Q Hv Ha. inversion Ha; subst. constructor; auto.
Qed.

Lemma broadcast2_same {A B C : Type} (f : A -> B -> C) (a : list A) (b : list B) :
  length a = length b ->
  broadcast2 f a b = Ok (map (fun ab => f (fst ab) (snd ab)) (combine a b)).
Proof. intros H. unfold broadcast2. rewrite H, Nat.eqb_refl. reflexivity. Qed.

Lemma broadcast_to_same {A B C : Type} (f : A -> B -> C) (a : list A) (b : list B) :
  length a = length b ->
  broadcast_to f a b = Ok (map (fun ab => f (fst ab) (snd ab)) (combine a b)).
Proof. intros H. unfold broadcast_to. rewrite H, Nat.eqb_refl. reflexivity. Qed.

Lemma length_map_combine {A B C : Type} (f : A * B -> C) (a : list A) (b : list B) :
  length a = length b -> length (map f (combine a b)) = length a.
Proof. intros H. rewrite length_map, length_combine. lia. Qed.

Lemma nth_map_combine {A B C : Type} (f : A -> B -> C) (a : list A) (b : list B)
    (t : nat) (da : A) (db : B) (dc : C) :
  (t < length a)%nat -> length a = length b ->
  nth t (map (fun ab => f (fst ab) (snd ab)) (combine a b)) dc
  = f (nth t a da) (nth t b db).
Proof.
  revert b t. induction a as [|x a IH]; intros [|y b] t Ht Hlen; cbn in *; try lia.
  destruct t as [|t]; [reflexivity|apply IH; lia].
Qed.

(** Whatever the broadcast, each cell of an in-place sum is an old cell plus
    zero or one. *)
Lemma broadcast_to_counts (a : list Z) (b : list bool) (a' : list Z) :
  broadcast_to (fun c x => c + int_of_bool x) a b = Ok a' ->
  length a' = length a
  /\ forall lo hi, Forall (fun c => lo <= c <= hi) a ->
                   Forall (fun c => lo <= c <= hi + 1) a'.
Proof.
  unfold broadcast_to.
  assert (Hmap : forall (l : list Z) (m : list bool) lo hi,
             Forall (fun c => lo <= c <= hi) l ->
             Forall (fun c => lo <= c <= hi + 1)
               (map (fun ab => fst ab + int_of_bool (snd ab)) (combine l m))).
  { induction l as [|c l IH]; intros [|x m] lo hi H; cbn in *; try constructor.
    - inversion H; subst. destruct x; cbn; lia.
    - inversion H; subst. auto. }
  destruct (length a =? length b)%nat eqn:E.
  - apply Nat.eqb_eq in E. intros [= <-]. split.
    + now apply length_map_combine.
    + intros lo hi H. now apply Hmap.
  - destruct b as [|y [|? ?]]; try discriminate.
    intros [= <-]. split; [apply length_map|].
    intros lo hi H. clear E. induction H; cbn; constructor; auto.
    destruct y; cbn; lia.
Qed.

(** ** Shapes of the aggregates *)

Lemma obs_effect_vec_length `{MN : Mean} (m : ndarray2) :
  length (obs_effect_vec m) = shape1 m.
Proof. apply np_mean_axis0_shape. Qed.

Lemma rms_per_unit_length `{SQ : Sqrt} `{MN : Mean} (m : ndarray2) :
  length (rms_per_unit m) = length (rows m).
Proof.
  unfold rms_per_unit. rewrite length_map, np_mean_axis1_shape. cbn [rows].
  apply length_map.
Qed.

(** ** One draw *)

Lemma store_draw_counters (idx : nat) (pv : vector) (prms pavg : Q)
    (st st' : loop_state) :
  store_draw idx pv prms pavg st = Ok st' ->
  vec_p st' = vec_p st /\ rms_joint_p st' = rms_joint_p st
  /\ avg_joint_p st' = avg_joint_p st.
Proof.
  unfold store_draw.
  destruct (placebo_effect_vecs st) as [pev|];
    [|intros [= <-]; auto].
  destruct (placebo_avg_joint_effects st) as [pa|];
    [|intros [= <-]; auto].
  destruct (placebo_rms_joint_effects st) as [pr|];
    [|intros [= <-]; auto].
  destruct (nth_error pev idx) as [old|]; [|discriminate].
  destruct (broadcast_to _ old pv) as [row|]; [|discriminate]. cbn.
  destruct (set_item pev idx row); [|discriminate]. cbn.
  destruct (set_item pa idx pavg); [|discriminate]. cbn.
  destruct (set_item pr idx prms); [|discriminate]. cbn.
  intros [= <-]. auto.
Qed.

Lemma store_draw_ok (T1 L idx : nat) (pv : vector) (prms pavg : Q) (st : loop_state) :
  shape_ok T1 L st -> length pv = T1 -> (idx < L)%nat ->
  exists st', store_draw idx pv prms pavg st = Ok st' /\ shape_ok T1 L st'.
Proof.
  intros [Hvec Hst] Hpv Hidx. unfold store_draw, shape_ok.
  destruct (placebo_effect_vecs st) as [pev|] eqn:E1;
    destruct (placebo_avg_joint_effects st) as [pa|] eqn:E2;
    destruct (placebo_rms_joint_effects st) as [pr|] eqn:E3;
    try contradiction.
  - destruct Hst as (Hl1 & Hrows & Hl2 & Hl3).
    destruct (nth_error pev idx) as [old|] eqn:En.
    2:{ apply nth_error_None in En. lia. }
    assert (Hold : length old = T1).
    { apply nth_error_In in En. rewrite Forall_forall in Hrows. now apply Hrows. }
    rewrite broadcast_to_same by congruence. cbn.
    set (row := map _ (combine old pv)).
    assert (Hrow : length row = T1).
    { unfold row. rewrite length_map_combine; congruence. }
    destruct (set_item_ok pev idx row ltac:(lia)) as (pev' & -> & Hlen1 & HQ1). cbn.
    destruct (set_item_ok pa idx pavg ltac:(lia)) as (pa' & -> & Hlen2 & _). cbn.
    destruct (set_item_ok pr idx prms ltac:(lia)) as (pr' & -> & Hlen3 & _). cbn.
    eexists. split; [reflexivity|]. cbn.
    repeat split; try congruence. now apply HQ1.
  - exists st. split; [reflexivity|]. rewrite E1, E2, E3. auto.
Qed.

Lemma count_draw_same (effect_vec : vector) (rms_obs avg_obs : Q)
    (pv : vector) (prms pavg : Q) (st : loop_state) :
  length pv = length effect_vec -> length (vec_p st) = length effect_vec ->
  count_draw effect_vec rms_obs avg_obs pv prms pavg st
  = Ok (mk_loop_state
          (map (fun cb => fst cb + int_of_bool (snd cb))
             (combine (vec_p st)
                (map (fun po => Qge_bool (Qabs (fst po)) (Qabs (snd po)))
                   (combine pv effect_vec))))
          (rms_joint_p st + int_of_bool (Qge_bool prms rms_obs))
          (avg_joint_p st + int_of_bool (Qge_bool (Qabs pavg) (Qabs avg_obs)))
          (placebo_effect_vecs st) (placebo_avg_joint_effects st)
          (placebo_rms_joint_effects st)).
Proof.
  intros H1 H2. unfold count_draw.
  rewrite broadcast2_same by assumption. cbn [bind].
  rewrite broadcast_to_same; [reflexivity|].
  rewrite length_map_combine; congruence.
Qed.

Lemma count_draw_counts (effect_vec : vector) (rms_obs avg_obs : Q)
    (pv : vector) (prms pavg : Q) (idx : nat) (st st' : loop_state) :
  count_draw effect_vec rms_obs avg_obs pv prms pavg st = Ok st' ->
  counts_ok idx st -> counts_ok (Datatypes.S idx) st'.
Proof.
  unfold count_draw. intros H (Hv & Hr & Ha).
  destruct (broadcast2 _ pv effect_vec) as [ge|]; [|discriminate]. cbn in H.
  destruct (broadcast_to _ (vec_p st) ge) as [v'|] eqn:E; [|discriminate]. cbn in H.
  injection H as <-. apply broadcast_to_counts in E. destruct E as [_ E].
  unfold counts_ok. cbn [vec_p rms_joint_p avg_joint_p].
  rewrite Nat2Z.inj_succ. unfold Z.succ.
  split; [now apply E|].
  split; [destruct (Qge_bool prms rms_obs)|destruct (Qge_bool (Qabs pavg) (Qabs avg_obs))];
    cbn; lia.
Qed.

Lemma loop_body_counts `{MN : Mean} (control : ndarray2) (crms cavg effect_vec : vector)
    (rms_obs avg_obs : Q) (idx : nat) (comb : list nat) (st st' : loop_state) :
  counts_ok idx st ->
  loop_body control crms cavg effect_vec rms_obs avg_obs idx comb st = Ok st' ->
  counts_ok (Datatypes.S idx) st'.
Proof.
  intros Hc. unfold loop_body.
  destruct (placebo_draw control crms cavg comb) as [[[pv prms] pavg]|]; [|discriminate].
  cbn [bind].
  destruct (count_draw effect_vec rms_obs avg_obs pv prms pavg st) as [st1|] eqn:E1;
    [|discriminate].
  cbn [bind]. intros Hs.
  apply store_draw_counters in Hs. destruct Hs as (Hv & Hr & Ha).
  pose proof (count_draw_counts _ _ _ _ _ _ _ _ _ E1 Hc) as (H1 & H2 & H3).
  unfold counts_ok. rewrite Hv, Hr, Ha. auto.
Qed.

Lemma loop_body_total `{MN : Mean} (control : ndarray2) (crms cavg effect_vec : vector)
    (rms_obs avg_obs : Q) (T1 L idx : nat) (comb : list nat) (st : loop_state) :
  length (rows control) = shape0 control ->
  shape1 control = T1 -> length effect_vec = T1 ->
  length crms = shape0 control -> length cavg = shape0 control ->
  Forall (fun i => (i < shape0 control)%nat) comb ->
  shape_ok T1 L st -> (idx < L)%nat ->
  exists st',
    loop_body control crms cavg effect_vec rms_obs avg_obs idx comb st = Ok st'
    /\ shape_ok T1 L st'.
Proof.
  intros Hrows HT Hev Hcrms Hcavg Hcomb Hshape Hidx.
  unfold loop_body, placebo_draw, take_rows.
  destruct (np_take_ok (rows control) comb) as (rs & -> & _);
    [now rewrite Hrows|]. cbn [bind].
  destruct (np_take_ok crms comb) as (l1 & -> & _); [now rewrite Hcrms|]. cbn [bind].
  destruct (np_take_ok cavg comb) as (l2 & -> & _); [now rewrite Hcavg|]. cbn [bind].
  set (pv := np_mean_axis0 _).
  assert (Hpv : length pv = T1).
  { unfold pv. now rewrite np_mean_axis0_shape. }
  destruct Hshape as [Hvec Hst].
  rewrite count_draw_same by congruence. cbn [bind].
  apply store_draw_ok; [|exact Hpv|exact Hidx].
  split; cbn [vec_p placebo_effect_vecs placebo_avg_joint_effects
                placebo_rms_joint_effects]; [|exact Hst].
  rewrite length_map_combine; [exact Hvec|].
  rewrite length_map_combine; congruence.
Qed.

Lemma init_state_shape (keep_pl : bool) (comb_len : Z) (T1 : nat) :
  shape_ok T1 (Z.to_nat comb_len) (init_state keep_pl comb_len T1).
Proof.
  unfold init_state, shape_ok, np_empty1, np_empty2.
  destruct keep_pl; cbn; rewrite ?repeat_length; repeat split; auto.
  apply Forall_forall. intros r Hr. apply repeat_spec in Hr. subst.
  apply repeat_length.
Qed.

Lemma init_state_counts (keep_pl : bool) (comb_len : Z) (T1 : nat) :
  counts_ok 0 (init_state keep_pl comb_len T1).
Proof.
  unfold init_state, counts_ok.
  destruct keep_pl; cbn; repeat split; try lia;
    apply Forall_forall; intros c Hc; apply repeat_spec in Hc; lia.
Qed.

Section Engine.

Context `{RS : RandomState} `{SQ : Sqrt} `{MN : Mean}.

(** The loop always runs over [_random_combinations n_pl N0 N1]. *)
Lemma draw_loop_unfold (control effect : ndarray2) (max_n_pl : Z) (keep_pl : bool) :
  let n_pl := _ncr (Z.of_nat (shape0 control)) (Z.of_nat (shape0 effect)) in
  draw_loop control effect max_n_pl keep_pl
  = for_enumerate (Z.to_nat (n_pl - 0)) 0
      (IterRandom 0 n_pl (shape0 control) (shape0 effect))
      (loop_body control (rms_per_unit control) (np_mean_axis1 control)
         (obs_effect_vec effect) (obs_rms_joint_effect effect)
         (obs_avg_joint_effect effect))
      (init_state keep_pl n_pl (shape1 effect)).
Proof.
  cbv zeta. unfold draw_loop. rewrite choose_iter_random. reflexivity.
Qed.

(** Whenever the loop completes, every counter lies between [0] and the
    number of draws [n_pl], and no warning was written. *)
Lemma draw_loop_counts (control effect : ndarray2) (max_n_pl : Z) (keep_pl : bool)
    (w w' : world) (st : loop_state) :
  draw_loop control effect max_n_pl keep_pl w = (Ok st, w') ->
  counts_ok (Z.to_nat (_ncr (Z.of_nat (shape0 control)) (Z.of_nat (shape0 effect)))) st
  /\ log w' = log w.
Proof.
  rewrite draw_loop_unfold. intros H.
  eapply (for_enumerate_random_inv _ _ counts_ok) in H.
  - rewrite Z.sub_0_r in H. exact H.
  - intros idx comb s s' Hc Hb. eapply loop_body_counts; eauto.
  - reflexivity.
  - apply init_state_counts.
Qed.

(** For well-shaped inputs with at most as many treated as control units the
    loop completes. *)
Lemma draw_loop_total (control effect : ndarray2) (max_n_pl : Z) (keep_pl : bool)
    (w : world) :
  length (rows control) = shape0 control ->
  shape1 control = shape1 effect ->
  (shape0 effect <= shape0 control)%nat ->
  let n_pl := _ncr (Z.of_nat (shape0 control)) (Z.of_nat (shape0 effect)) in
  exists st w',
    draw_loop control effect max_n_pl keep_pl w = (Ok st, w')
    /\ shape_ok (shape1 effect) (Z.to_nat n_pl) st
    /\ log w' = log w.
Proof.
  intros Hrows HT HN n_pl. rewrite draw_loop_unfold. fold n_pl.
  destruct (for_enumerate_random_total _
              (loop_body control (rms_per_unit control) (np_mean_axis1 control)
                 (obs_effect_vec effect) (obs_rms_joint_effect effect)
                 (obs_avg_joint_effect effect))
              (fun _ st => shape_ok (shape1 effect) (Z.to_nat n_pl) st)
              (shape0 control) (shape0 effect) (Z.to_nat n_pl) HN)
    with (fuel := Z.to_nat (n_pl - 0)) (idx := 0%nat) (i := 0) (num := n_pl)
         (st := init_state keep_pl n_pl (shape1 effect)) (w := w)
    as (st & w' & Hrun & Hshape & Hlog).
  - intros idx comb st HP Hin Hidx.
    eapply loop_body_total; eauto.
    + apply obs_effect_vec_length.
    + now rewrite rms_per_unit_length.
    + now rewrite np_mean_axis1_shape.
  - reflexivity.
  - lia.
  - apply init_state_shape.
  - exists st, w'. auto.
Qed.

End Engine.

Section EngineResults.

Context `{RS : RandomState} `{SQ : Sqrt} `{MN : Mean}.

(** What a completed run of the engine consists of. *)
Lemma engine_inv (control effect : ndarray2) (max_n_pl : Z) (ret_pl ret_CI : bool)
    (level : Q) (w w' : world) (res : PlaceboResults) :
  _gen_placebo_stats_from_diffs control effect max_n_pl ret_pl ret_CI level w
  = (Ok res, w') ->
  let n_pl := _ncr (Z.of_nat (shape0 control)) (Z.of_nat (shape0 effect)) in
  exists st w1 vp qr qa,
    draw_loop control effect max_n_pl (ret_pl || ret_CI) w = (Ok st, w1)
    /\ N_placebo res = n_pl
    /\ mapM (fun c => _calculate_p_value c n_pl true) (vec_p st) = Ok vp
    /\ p (effect_vec res) = Array vp
    /\ _calculate_p_value (rms_joint_p st) n_pl true = Ok qr
    /\ p (rms_joint_effect res) = Scalar qr
    /\ _calculate_p_value (avg_joint_p st) n_pl true = Ok qa
    /\ p (avg_joint_effect res) = Scalar qa
    /\ (if ret_CI then
          exists cv ca cr,
            gen_CIs level n_pl (shape1 effect) st (obs_effect_vec effect)
              (obs_avg_joint_effect effect) (obs_rms_joint_effect effect) w1
            = (Ok (cv, ca, cr), w')
            /\ ci (effect_vec res) = Some cv
            /\ ci (avg_joint_effect res) = Some ca
            /\ ci (rms_joint_effect res) = Some cr
        else
          w' = w1 /\ ci (effect_vec res) = None
          /\ ci (avg_joint_effect res) = None /\ ci (rms_joint_effect res) = None).
Proof.
  intros H n_pl. unfold _gen_placebo_stats_from_diffs in H.
  rewrite choose_iter_random in H. cbn [snd] in H. fold n_pl in H.
  unfold bindM at 1 in H.
  destruct (draw_loop control effect max_n_pl (ret_pl || ret_CI) w)
    as [[st|e] w1] eqn:Eloop; [|discriminate].
  unfold bindM at 1, lift at 1 in H.
  destruct (mapM _ (vec_p st)) as [vp|] eqn:Evp; [|discriminate].
  unfold bindM at 1, lift at 1 in H.
  destruct (_calculate_p_value (rms_joint_p st) n_pl true) as [qr|] eqn:Eqr;
    [|discriminate].
  unfold bindM at 1, lift at 1 in H.
  destruct (_calculate_p_value (avg_joint_p st) n_pl true) as [qa|] eqn:Eqa;
    [|discriminate].
  exists st, w1, vp, qr, qa.
  unfold bindM at 1 in H.
  destruct ret_CI.
  - unfold bindM at 1 in H.
    destruct (gen_CIs level n_pl (shape1 effect) st (obs_effect_vec effect)
                (obs_avg_joint_effect effect) (obs_rms_joint_effect effect) w1)
      as [[[[cv ca] cr]|e] w2] eqn:Eci; [|discriminate].
    cbn [ret] in H. injection H as <- <-. cbn.
    repeat split; try reflexivity; try assumption.
    exists cv, ca, cr. auto.
  - cbn [ret] in H. injection H as <- <-. cbn.
    repeat split; try reflexivity; assumption.
Qed.

End EngineResults.

(** ** The number of placebos *)

(** Whatever [max_n_pl] is, a completed run reports the full combination
    count [_ncr N0 N1]. *)
Lemma N_placebo_is_ncr `{RS : RandomState} `{SQ : Sqrt} `{MN : Mean}
    (control effect : ndarray2) (max_n_pl : Z) (ret_pl ret_CI : bool)
    (level : Q) (w w' : world) (res : PlaceboResults) :
  _gen_placebo_stats_from_diffs control effect max_n_pl ret_pl ret_CI level w
  = (Ok res, w') ->
  N_placebo res = _ncr (Z.of_nat (shape0 control)) (Z.of_nat (shape0 effect)).
Proof.
  intros H. apply engine_inv in H.
  destruct H as (st & w1 & vp & qr & qa & _ & HN & _). exact HN.
Qed.

(** C1 (the code departs from the claim).  With three control units, one
    treated unit and [max_n_pl = 2] the claim asks for
    [comb_len = min(2, C(3,1)) = 2] randomly drawn combinations.  The run
    reports [N_placebo = 3] and has consumed three random draws: the test
    [max_n_pl > 0 & n_pl > max_n_pl] is never true, and its else-branch is
    the random generator over all [n_pl] draws. *)
Theorem C1_comb_len_ignores_cap :
  Z.min 2 (Z.of_nat (binom 3 1)) = 2
  /\ randomize_test 2 (_ncr 3 1) = false
  /\ exists res w',
       run (_gen_placebo_stats_from_diffs control3 treated1 2 false false (95 # 100))
         0%nat = (Ok res, w')
       /\ N_placebo res = 3
       /\ gen w' = 3%nat.
Proof.
  split; [reflexivity|]. split; [reflexivity|].
  eexists. eexists. split; [vm_compute; reflexivity|]. split; reflexivity.
Qed.

(** ** Order statistics of [_gen_CI] *)

Lemma insert_sorted_length (x : Q) (l : vector) :
  length (insert_sorted x l) = Datatypes.S (length l).
Proof.
  induction l as [|y l IH]; cbn; [reflexivity|].
  destruct (Qle_bool x y); cbn; [reflexivity|now rewrite IH].
Qed.

Lemma np_sort_length (l : vector) : length (np_sort l) = length l.
Proof.
  unfold np_sort. induction l as [|x l IH]; cbn [fold_right]; [reflexivity|].
  rewrite insert_sorted_length, IH. reflexivity.
Qed.

Lemma get_item_npl (a : vector) :
  get_item a (Z.of_nat (length a))
  = Raise (IndexError "index is out of bounds for axis 0").
Proof.
  unfold get_item. rewrite Z.ltb_irrefl. reflexivity.
Qed.

(** With [alpha_ind = 1] the high index [(npl + 1) - alpha_ind] is [npl], one
    past the last cell. *)
Lemma gen_CI_alpha_ind_1 `{RS : RandomState} (placebo_effects : vector)
    (effect : Q) (null_is_zero : bool) (w : world) :
  _gen_CI placebo_effects 1 effect null_is_zero w
  = (Raise (IndexError "index is out of bounds for axis 0"), w).
Proof.
  unfold _gen_CI, bindM, lift.
  destruct (get_item (np_sort placebo_effects) 1) as [low|e] eqn:E.
  - replace (Z.of_nat (length placebo_effects) + 1 - 1)
      with (Z.of_nat (length (np_sort placebo_effects)))
      by (rewrite np_sort_length; lia).
    now rewrite get_item_npl.
  - unfold get_item in E.
    destruct ((1 <? _) && _)%bool; [discriminate|].
    now injection E as <-.
Qed.

(** C2 (the code departs from the claim).  For the computed index
    [alpha_ind = 1] the high order statistic is read at index [npl] of an
    array of [npl] cells, so [_gen_CI] raises [IndexError] for every placebo
    distribution; a run with three control units, one treated unit, the
    default level [0.95] and confidence intervals requested ends in that
    error. *)
Theorem C2_high_index_out_of_range :
  (forall (RS : RandomState) (placebo_effects : vector) (effect : Q)
          (null_is_zero : bool) (w : world),
      _gen_CI placebo_effects 1 effect null_is_zero w
      = (Raise (IndexError "index is out of bounds for axis 0"), w))
  /\ Z.max 1 (py_round ((1 - (95 # 100)) / (2 / inject_Z (_ncr 3 1)))) = 1
  /\ fst (run (_gen_placebo_stats_from_diffs control3 treated1 1000000 false true
                 (95 # 100)) 0%nat)
     = Raise (IndexError "index is out of bounds for axis 0").
Proof.
  split; [intros; apply gen_CI_alpha_ind_1|].
  split; vm_compute; reflexivity.
Qed.

(** ** p-values *)

Lemma calculate_p_value_inclusive (count npl : Z) :
  0 <= npl -> _calculate_p_value count npl true = Ok (inclusive_p_value count npl).
Proof.
  intros H. unfold _calculate_p_value, inclusive_p_value. cbn [int_of_bool].
  destruct (Z.eqb_spec (npl + 1) 0); [lia|reflexivity].
Qed.

Lemma calculate_p_value_inclusive_map (counts : list Z) (npl : Z) :
  0 <= npl ->
  mapM (fun c => _calculate_p_value c npl true) counts
  = Ok (map (fun c => inclusive_p_value c npl) counts).
Proof.
  intros H. induction counts as [|c l IH]; cbn [mapM map]; [reflexivity|].
  rewrite calculate_p_value_inclusive, IH by assumption. reflexivity.
Qed.

Section EngineRuns.

Context `{RS : RandomState} `{SQ : Sqrt} `{MN : Mean}.

(** The engine after a completed draw loop. *)
Lemma engine_after_loop (control effect : ndarray2) (max_n_pl : Z)
    (ret_pl ret_CI : bool) (level : Q) (w w1 : world) (st : loop_state) :
  draw_loop control effect max_n_pl (ret_pl || ret_CI) w = (Ok st, w1) ->
  let n_pl := _ncr (Z.of_nat (shape0 control)) (Z.of_nat (shape0 effect)) in
  _gen_placebo_stats_from_diffs control effect max_n_pl ret_pl ret_CI level w
  = (cis <~ (if ret_CI then
               c <~ gen_CIs level n_pl (shape1 effect) st (obs_effect_vec effect)
                      (obs_avg_joint_effect effect) (obs_rms_joint_effect effect) ;;
               let '(CI_vec, CI_avg, CI_rms) := c in
               ret (Some CI_vec, Some CI_avg, Some CI_rms)
             else ret (None, None, None)) ;;
     let '(CI_vec, CI_avg, CI_rms) := cis in
     ret (mk_PlaceboResults
            (mk_EstResultCI (Array (obs_effect_vec effect))
               (Array (map (fun c => inclusive_p_value c n_pl) (vec_p st))) CI_vec
               (option_map Placebos2 (placebo_effect_vecs st)))
            (mk_EstResultCI (Scalar (obs_avg_joint_effect effect))
               (Scalar (inclusive_p_value (avg_joint_p st) n_pl)) CI_avg
               (option_map Placebos1 (placebo_avg_joint_effects st)))
            (mk_EstResultCI (Scalar (obs_rms_joint_effect effect))
               (Scalar (inclusive_p_value (rms_joint_p st) n_pl)) CI_rms
               (option_map Placebos1 (placebo_rms_joint_effects st)))
            n_pl)) w1.
Proof.
  intros H n_pl.
  assert (Hn : 0 <= n_pl) by (pose proof (ncr_pos (shape0 control) (shape0 effect)); lia).
  unfold _gen_placebo_stats_from_diffs.
  rewrite choose_iter_random. cbn [snd]. fold n_pl.
  unfold bindM at 1. rewrite H.
  unfold bindM at 1, lift at 1.
  rewrite calculate_p_value_inclusive_map by assumption.
  unfold bindM at 1, lift at 1.
  rewrite calculate_p_value_inclusive by assumption.
  unfold bindM at 1, lift at 1.
  rewrite calculate_p_value_inclusive by assumption.
  reflexivity.
Qed.

(** The engine when the first draw fails. *)
Lemma engine_loop_raises (control effect : ndarray2) (max_n_pl : Z)
    (ret_pl ret_CI : bool) (level : Q) (w w1 : world) (e : exn) :
  draw_loop control effect max_n_pl (ret_pl || ret_CI) w = (Raise e, w1) ->
  _gen_placebo_stats_from_diffs control effect max_n_pl ret_pl ret_CI level w
  = (Raise e, w1).
Proof.
  intros H. unfold _gen_placebo_stats_from_diffs.
  rewrite choose_iter_random. cbn [snd].
  unfold bindM at 1. now rewrite H.
Qed.

(** A result carries the observed aggregates and the arrays of the loop. *)
Lemma engine_fields (control treated : ndarray2) (max_n_pl : Z)
    (ret_pl ret_CI : bool) (level : Q) (w w1 w' : world) (st : loop_state)
    (res : PlaceboResults) :
  draw_loop control treated max_n_pl (ret_pl || ret_CI) w = (Ok st, w1) ->
  _gen_placebo_stats_from_diffs control treated max_n_pl ret_pl ret_CI level w
  = (Ok res, w') ->
  effect (effect_vec res) = Array (obs_effect_vec treated)
  /\ effect (avg_joint_effect res) = Scalar (obs_avg_joint_effect treated)
  /\ effect (rms_joint_effect res) = Scalar (obs_rms_joint_effect treated)
  /\ placebos (effect_vec res) = option_map Placebos2 (placebo_effect_vecs st)
  /\ placebos (avg_joint_effect res) = option_map Placebos1 (placebo_avg_joint_effects st)
  /\ placebos (rms_joint_effect res)
     = option_map Placebos1 (placebo_rms_joint_effects st).
Proof.
  intros Hloop Hrun.
  rewrite (engine_after_loop _ _ _ _ _ level _ _ _ Hloop) in Hrun.
  cbv zeta in Hrun. unfold bindM in Hrun.
  destruct ret_CI.
  - destruct (gen_CIs _ _ _ _ _ _ _ w1) as [[[[cv ca] cr]|e] w3]; [|discriminate].
    cbn [ret] in Hrun. injection Hrun as <- _. cbn. repeat split.
  - cbn [ret] in Hrun. injection Hrun as <- _. cbn. repeat split.
Qed.

Lemma gen_CIs_level_check (level : Q) (n_pl : Z) (T1 : nat) (st : loop_state)
    (ev : vector) (avg rms : Q) (w : world) :
  ~ (0 < level /\ level < 1)%Q ->
  gen_CIs level n_pl T1 st ev avg rms w
  = (Raise (AssertionError "Use a level in [0,1]"), w).
Proof.
  intros H. unfold gen_CIs.
  destruct (Qle_bool level 0) eqn:E1; [reflexivity|].
  destruct (Qle_bool 1 level) eqn:E2; [reflexivity|].
  exfalso. apply H. split.
  - apply Qnot_le_lt. intros Hle. apply Qle_bool_iff in Hle. congruence.
  - apply Qnot_le_lt. intros Hle. apply Qle_bool_iff in Hle. congruence.
Qed.

End EngineRuns.

(** ** Failures of the engine *)

(** C3, counterexample to the claim as stated: a run over [T1 = 0] periods
    (one control unit, one treated unit, no interval requested) raises
    nothing and returns a result. *)
Lemma C3_counterexample :
  shape1 no_period = 0%nat
  /\ exists res w',
       run (_gen_placebo_stats_from_diffs no_period no_period 1000000 false false
              (95 # 100)) 0%nat = (Ok res, w').
Proof.
  split; [reflexivity|].
  eexists. eexists. vm_compute. reflexivity.
Qed.

(** C3, as amended.  The only explicit check of the engine is the assertion
    on [level], made after the draw loop when intervals are requested: for
    well-shaped inputs with [N1 <= N0] and [level] outside (0,1) the run ends
    in that [AssertionError].  The shapes are not validated: with [N0 < N1]
    the run ends in the [ValueError] that [np.random.choice] raises on the
    first draw, and any other shape, [T1 = 0] included, raises nothing when
    no interval is requested. *)
Theorem C3_level_assertion_and_unvalidated_shapes
    (RS : RandomState) (SQ : Sqrt) (MN : Mean) (control effect : ndarray2) (max_n_pl : Z)
    (ret_pl : bool) (level : Q) (w : world) :
  (length (rows control) = shape0 control ->
   shape1 control = shape1 effect ->
   (shape0 effect <= shape0 control)%nat ->
   ~ (0 < level /\ level < 1)%Q ->
   exists w',
     _gen_placebo_stats_from_diffs control effect max_n_pl ret_pl true level w
     = (Raise (AssertionError "Use a level in [0,1]"), w')
     /\ log w' = log w)
  /\ ((shape0 control < shape0 effect)%nat ->
      forall ret_CI,
      exists msg,
        np_random_choice (shape0 control) (shape0 effect) w
        = (Raise (ValueError msg), w)
        /\ _gen_placebo_stats_from_diffs control effect max_n_pl ret_pl ret_CI level w
           = (Raise (ValueError msg), w))
  /\ (length (rows control) = shape0 control ->
      shape1 control = shape1 effect ->
      (shape0 effect <= shape0 control)%nat ->
      exists res w',
        _gen_placebo_stats_from_diffs control effect max_n_pl ret_pl false level w
        = (Ok res, w')).
Proof.
  split; [|split].
  - intros Hrows HT HN Hlevel.
    destruct (draw_loop_total control effect max_n_pl (ret_pl || true) w Hrows HT HN)
      as (st & w1 & Hloop & _ & Hlog).
    exists w1. split; [|exact Hlog].
    rewrite (engine_after_loop _ _ _ _ _ _ _ _ _ Hloop).
    unfold bindM. rewrite gen_CIs_level_check by assumption. reflexivity.
  - intros HN ret_CI.
    pose proof (ncr_degenerate _ _ HN) as Hn.
    destruct (for_enumerate_random_fails _
                (loop_body control (rms_per_unit control) (np_mean_axis1 control)
                   (obs_effect_vec effect) (obs_rms_joint_effect effect)
                   (obs_avg_joint_effect effect))
                (shape0 control) (shape0 effect) 1
                (init_state (ret_pl || ret_CI) 1 (shape1 effect)) w HN ltac:(lia))
      as (msg & Hch & Hrun).
    exists msg. split; [exact Hch|].
    apply engine_loop_raises.
    rewrite draw_loop_unfold. cbv zeta. rewrite Hn. exact Hrun.
  - intros Hrows HT HN.
    destruct (draw_loop_total control effect max_n_pl (ret_pl || false) w Hrows HT HN)
      as (st & w1 & Hloop & _ & _).
    rewrite (engine_after_loop _ _ _ _ _ _ _ _ _ Hloop).
    unfold bindM, ret. eexists. eexists. reflexivity.
Qed.

(** A run that meets each case of C3 as amended: [level = 1] with three
    control units and one treated unit; five treated units for three control
    units; no period at all. *)
Lemma C3_witness :
  (exists w',
      run (_gen_placebo_stats_from_diffs control3 treated1 1000000 false true 1) 0%nat
      = (Raise (AssertionError "Use a level in [0,1]"), w')
      /\ log w' = [])
  /\ (exists msg,
         run (_gen_placebo_stats_from_diffs control3 treated5 1000000 false true 1) 0%nat
         = (Raise (ValueError msg), mk_world counter_rng 0%nat []))
  /\ (exists res w',
         run (_gen_placebo_stats_from_diffs no_period no_period 1000000 false false 1)
           0%nat = (Ok res, w')).
Proof.
  split; [|split].
  - destruct (C3_level_assertion_and_unvalidated_shapes counter_rng rational_sqrt rational_mean
                control3 treated1 1000000 false 1 (mk_world counter_rng 0%nat []))
      as (H & _ & _).
    apply H; try reflexivity.
    + cbn. lia.
    + intros [_ H1]. unfold Qlt in H1. cbn in H1. lia.
  - destruct (C3_level_assertion_and_unvalidated_shapes counter_rng rational_sqrt rational_mean
                control3 treated5 1000000 false 1 (mk_world counter_rng 0%nat []))
      as (_ & H & _).
    destruct (H ltac:(cbn; lia) true) as (msg & _ & Hrun).
    exists msg. exact Hrun.
  - destruct (C3_level_assertion_and_unvalidated_shapes counter_rng rational_sqrt rational_mean
                no_period no_period 1000000 false 1 (mk_world counter_rng 0%nat []))
      as (_ & _ & H).
    apply H; try reflexivity; cbn; lia.
Defined.

(** ** Membership tests *)

(** A result without an interval raises on a membership test. *)
Lemma in_EstResultCI_no_interval (x : Q) (eff pv : ndvalue) (pl : option placebo_store) :
  in_EstResultCI x (mk_EstResultCI eff pv None pl)
  = Raise (RuntimeError "EstResultCI does not contain a confidence interval").
Proof. reflexivity. Qed.

(** C4 (the code departs from the claim).  For an interval whose bounds are
    vectors of two or more entries [CI_int.__contains__] returns the
    [RuntimeError] object instead of raising it, and the operator [in] turns
    that object into [True]: the membership test evaluates to a boolean,
    directly and through [EstResultCI.__contains__]. *)
Theorem C4_vector_interval_membership_is_true
    (a b : Q) (rest : vector) (high : ndvalue) (level x : Q)
    (eff pv : ndvalue) (pl : option placebo_store) :
  let ci := mk_CI_int (Array (a :: b :: rest)) high level in
  CI_int__contains__ ci x
  = Ok (PyException
          (RuntimeError "`in` is not defined for more than one Confidence Interval"))
  /\ in_CI_int x ci = Ok true
  /\ in_EstResultCI x (mk_EstResultCI eff pv (Some ci) pl) = Ok true.
Proof. cbv zeta. repeat split. Qed.

(** ** The penalty bounds *)

(** C5, counterexample to the claim as stated: with [grad_splits] supplied
    the cross-fold strategy is called outside any [try], and its
    [MemoryError] reaches the caller unchanged. *)
Lemma C5_counterexample :
  @get_max_v_pen exhausted_strategies (Coercible X52) (Coercible X52) (WScalar 1)
    ArgNone ArgNone [("grad_splits"%string, ArgOther "5")]
  = Raise MemoryError.
Proof. reflexivity. Qed.

Lemma except_MemoryError_not_MemoryError {A : Type} (r : result A) :
  except_MemoryError r <> Raise MemoryError.
Proof. destruct r as [a|[]]; cbn; discriminate. Qed.

Lemma bind_not_MemoryError {A B : Type} (r : result A) (k : A -> result B) :
  r <> Raise MemoryError -> (forall a, k a <> Raise MemoryError) ->
  bind r k <> Raise MemoryError.
Proof.
  intros Hr Hk. destruct r as [a|e]; cbn; [apply Hk|].
  intros [= ->]. now apply Hr.
Qed.

Lemma parameter_qc_not_MemoryError (X Y : raw_data) (Xt Yt : pyarg) :
  parameter_qc X Y Xt Yt <> Raise MemoryError.
Proof.
  unfold parameter_qc.
  destruct X as [Xm|]; cbn; [|discriminate].
  destruct Y as [Ym|]; cbn; [|discriminate].
  repeat match goal with
         | |- (if ?c then _ else _) <> _ => destruct c; try discriminate
         end.
Qed.

(** C5, as amended.  Without a treated pair and without [grad_splits] the
    leave-one-out strategy is called inside [try ... except MemoryError]: no
    [MemoryError] reaches the caller, and a [MemoryError] of the strategy
    becomes the [RuntimeError] that advises setting [grad_splits], for a
    single [w_pen] (given or guessed) and for an iterable one.  With
    [grad_splits] the cross-fold strategy is called outside the [try] and its
    [MemoryError] is propagated as it is, again for a single [w_pen] (given
    or guessed) and for an iterable one. *)
Theorem C5_only_leave_one_out_is_translated
    (GS : GradientStrategies) (X Y : raw_data) (w_pen : w_pen_arg) (kw : kwargs)
    (Xm Ym : ndarray2) :
  parameter_qc X Y ArgNone ArgNone = Ok (Xm, Ym) ->
  (kw_mem "grad_splits" kw = false ->
   get_max_v_pen X Y w_pen ArgNone ArgNone kw <> Raise MemoryError
   /\ (forall w,
          w_pen = WScalar w \/ (w_pen = WNone /\ w = w_pen_guestimate Xm) ->
          loo_v_matrix Xm Ym w true _GRADIENT_MESSAGE kw = Raise MemoryError ->
          get_max_v_pen X Y w_pen ArgNone ArgNone kw
          = Raise (RuntimeError memory_message))
   /\ (forall ws,
          w_pen = WIter ws ->
          mapM (fun w => loo_v_matrix Xm Ym w true _GRADIENT_MESSAGE kw) ws
          = Raise MemoryError ->
          get_max_v_pen X Y w_pen ArgNone ArgNone kw
          = Raise (RuntimeError memory_message)))
  /\ (kw_mem "grad_splits" kw = true ->
      (forall w,
          w_pen = WScalar w \/ (w_pen = WNone /\ w = w_pen_guestimate Xm) ->
          fold_v_matrix Xm Ym w true _GRADIENT_MESSAGE kw = Raise MemoryError ->
          get_max_v_pen X Y w_pen ArgNone ArgNone kw = Raise MemoryError)
      /\ (forall ws,
             w_pen = WIter ws ->
             mapM (fun w => fold_v_matrix Xm Ym w true _GRADIENT_MESSAGE kw) ws
             = Raise MemoryError ->
             get_max_v_pen X Y w_pen ArgNone ArgNone kw = Raise MemoryError)
      /\ (forall ws pre w post,
             w_pen = WIter ws -> ws = pre ++ w :: post ->
             Forall (fun u => exists b,
                        fold_v_matrix Xm Ym u true _GRADIENT_MESSAGE kw = Ok b) pre ->
             fold_v_matrix Xm Ym w true _GRADIENT_MESSAGE kw = Raise MemoryError ->
             get_max_v_pen X Y w_pen ArgNone ArgNone kw = Raise MemoryError)).
Proof.
  intros Hqc. split.
  - intros Hkw. unfold get_max_v_pen. rewrite Hqc, Hkw. cbn [bind].
    split; [|split].
    + destruct w_pen as [|w|ws]; apply bind_not_MemoryError;
        try apply except_MemoryError_not_MemoryError; discriminate.
    + intros w [->|[-> ->]] Hloo; rewrite Hloo; reflexivity.
    + intros ws -> Hloo. rewrite Hloo. reflexivity.
  - intros Hkw. unfold get_max_v_pen. rewrite Hqc, Hkw. cbn [bind].
    split; [|split].
    + intros w [->|[-> ->]] Hfold; rewrite Hfold; reflexivity.
    + intros ws -> Hfold. rewrite Hfold. reflexivity.
    + intros ws pre w post -> -> Hpre Hfold.
      assert (Hm : mapM (fun w => fold_v_matrix Xm Ym w true _GRADIENT_MESSAGE kw)
                     (pre ++ w :: post) = Raise MemoryError).
      { clear Hqc. induction Hpre as [|u pre (b & Hu) _ IH]; cbn [app mapM].
        - rewrite Hfold. reflexivity.
        - rewrite Hu. cbn [bind]. rewrite IH. reflexivity. }
      rewrite Hm. reflexivity.
Qed.

(** A leave-one-out call that runs out of memory, with a guessed and with an
    iterable [w_pen], and cross-fold calls that do, with a single, a guessed
    and an iterable [w_pen]. *)
Lemma C5_witness :
  @get_max_v_pen exhausted_strategies (Coercible X52) (Coercible X52) WNone
    ArgNone ArgNone []
  = Raise (RuntimeError memory_message)
  /\ @get_max_v_pen exhausted_strategies (Coercible X52) (Coercible X52)
       (WIter [1; 2]%Q) ArgNone ArgNone []
     = Raise (RuntimeError memory_message)
  /\ @get_max_v_pen exhausted_strategies (Coercible X52) (Coercible X52) (WScalar 1)
       ArgNone ArgNone [("grad_splits"%string, ArgOther "5")]
     = Raise MemoryError
  /\ @get_max_v_pen exhausted_strategies (Coercible X52) (Coercible X52) WNone
       ArgNone ArgNone [("grad_splits"%string, ArgOther "5")]
     = Raise MemoryError
  /\ @get_max_v_pen exhausted_strategies (Coercible X52) (Coercible X52)
       (WIter [1; 2]%Q) ArgNone ArgNone [("grad_splits"%string, ArgOther "5")]
     = Raise MemoryError.
Proof.
  split; [|split; [|split; [|split]]].
  - destruct (C5_only_leave_one_out_is_translated exhausted_strategies
                (Coercible X52) (Coercible X52) WNone [] X52 X52 eq_refl)
      as [H _].
    destruct (H eq_refl) as (_ & Hs & _).
    apply (Hs (w_pen_guestimate X52)); [right; split; reflexivity|reflexivity].
  - destruct (C5_only_leave_one_out_is_translated exhausted_strategies
                (Coercible X52) (Coercible X52) (WIter [1; 2]%Q) [] X52 X52 eq_refl)
      as [H _].
    destruct (H eq_refl) as (_ & _ & Hi).
    apply (Hi [1; 2]%Q); reflexivity.
  - destruct (C5_only_leave_one_out_is_translated exhausted_strategies
                (Coercible X52) (Coercible X52) (WScalar 1)
                [("grad_splits"%string, ArgOther "5")] X52 X52 eq_refl)
      as [_ H].
    destruct (H eq_refl) as (Hs & _).
    apply (Hs 1%Q); [now left|reflexivity].
  - destruct (C5_only_leave_one_out_is_translated exhausted_strategies
                (Coercible X52) (Coercible X52) WNone
                [("grad_splits"%string, ArgOther "5")] X52 X52 eq_refl)
      as [_ H].
    destruct (H eq_refl) as (Hs & _).
    apply (Hs (w_pen_guestimate X52)); [right; split; reflexivity|reflexivity].
  - destruct (C5_only_leave_one_out_is_translated exhausted_strategies
                (Coercible X52) (Coercible X52) (WIter [1; 2]%Q)
                [("grad_splits"%string, ArgOther "5")] X52 X52 eq_refl)
      as [_ H].
    destruct (H eq_refl) as (_ & _ & Hi).
    apply (Hi [1; 2]%Q [] 1%Q [2]%Q); try reflexivity. constructor.
Defined.

(** Without [grad_splits] and without a treated pair no [MemoryError] reaches
    the caller, whether or not the parameter checks pass. *)
Lemma loo_branch_never_MemoryError `{GS : GradientStrategies}
    (X Y : raw_data) (w_pen : w_pen_arg) (kw : kwargs) :
  kw_mem "grad_splits" kw = false ->
  get_max_v_pen X Y w_pen ArgNone ArgNone kw <> Raise MemoryError.
Proof.
  intros Hkw. unfold get_max_v_pen.
  apply bind_not_MemoryError; [apply parameter_qc_not_MemoryError|].
  intros [Xm Ym]. rewrite Hkw.
  destruct w_pen as [|w|ws]; apply bind_not_MemoryError;
    try apply except_MemoryError_not_MemoryError; discriminate.
Qed.

Local Open Scope Q_scope.

(** ** The draw loop, draw by draw *)

Lemma np_take_nth {A : Type} (a : list A) (d : A) (comb : list nat) :
  Forall (fun i => (i < length a)%nat) comb ->
  np_take a comb = Ok (map (fun i => nth i a d) comb).
Proof.
  unfold np_take. induction 1 as [|i comb Hi _ IH]; cbn [mapM map]; [reflexivity|].
  rewrite (nth_error_nth' a d Hi). cbn [bind]. rewrite IH. reflexivity.
Qed.

Lemma placebo_draw_in_range `{MN : Mean} (control : ndarray2) (crms cavg : vector)
    (comb : list nat) :
  length (rows control) = shape0 control ->
  length crms = shape0 control -> length cavg = shape0 control ->
  Forall (fun i => (i < shape0 control)%nat) comb ->
  placebo_draw control crms cavg comb
  = Ok (draw_vec control comb, draw_mean crms comb, draw_mean cavg comb).
Proof.
  intros Hr Hc1 Hc2 Hin. unfold placebo_draw, take_rows, draw_vec, draw_mean.
  rewrite (np_take_nth (rows control) []) by now rewrite Hr.
  cbn [bind].
  rewrite (np_take_nth crms 0) by now rewrite Hc1.
  cbn [bind].
  rewrite (np_take_nth cavg 0) by now rewrite Hc2.
  reflexivity.
Qed.

Lemma draw_vec_length `{MN : Mean} (control : ndarray2) (comb : list nat) :
  length (draw_vec control comb) = shape1 control.
Proof. unfold draw_vec. now rewrite np_mean_axis0_shape. Qed.

Lemma count_if_app {A : Type} (f : A -> bool) (l : list A) (a : A) :
  count_if f (l ++ [a]) = (count_if f l + int_of_bool (f a))%Z.
Proof.
  unfold count_if. rewrite filter_app, length_app. cbn [filter].
  destruct (f a); cbn [length int_of_bool]; lia.
Qed.

Lemma count_if_bounds {A : Type} (f : A -> bool) (l : list A) :
  (0 <= count_if f l <= Z.of_nat (length l))%Z.
Proof. unfold count_if. pose proof (filter_length_le f l). lia. Qed.

Lemma set_item_app {A : Type} (vals : list A) (z v : A) (k : nat) :
  set_item (vals ++ repeat z (Datatypes.S k)) (length vals) v
  = Ok ((vals ++ [v]) ++ repeat z k).
Proof.
  induction vals as [|x vals IH].
  - reflexivity.
  - cbn [app length set_item]. rewrite IH. reflexivity.
Qed.

Lemma nth_error_app_repeat {A : Type} (vals : list A) (z : A) (k : nat) :
  nth_error (vals ++ repeat z (Datatypes.S k)) (length vals) = Some z.
Proof.
  induction vals as [|x vals IH]; [reflexivity|].
  cbn [app length nth_error]. exact IH.
Qed.

Lemma map_snd_combine {A B : Type} (a : list A) (b : list B) :
  length a = length b -> map (fun ab => snd ab) (combine a b) = b.
Proof.
  revert b. induction a as [|x a IH]; intros [|y b] H; cbn in *; try lia; [reflexivity|].
  now rewrite IH by lia.
Qed.

Lemma loop_body_step `{MN : Mean} (control : ndarray2) (crms cavg ev : vector)
    (rms_obs avg_obs : Q)
    (keep : bool) (L : nat) (done : list (list nat)) (comb : list nat)
    (st : loop_state) :
  length (rows control) = shape0 control ->
  length crms = shape0 control -> length cavg = shape0 control ->
  shape1 control = length ev ->
  Forall (fun i => (i < shape0 control)%nat) comb ->
  (length done < L)%nat ->
  loop_inv control crms cavg ev rms_obs avg_obs keep L done st ->
  exists st',
    loop_body control crms cavg ev rms_obs avg_obs (length done) comb st = Ok st'
    /\ loop_inv control crms cavg ev rms_obs avg_obs keep L (done ++ [comb]) st'.
Proof.
  intros Hr Hc1 Hc2 HT Hin HL (Hlen & Hvec & Hrms & Havg & Hpev & Hpavg & Hprms).
  unfold loop_body.
  rewrite placebo_draw_in_range by assumption. cbn [bind].
  pose proof (draw_vec_length control comb) as Hpv.
  rewrite count_draw_same by congruence. cbn [bind].
  set (vec' := map _ (combine (vec_p st) _)).
  assert (Hvec' : length vec' = length ev
                  /\ forall t, (t < length ev)%nat ->
                       nth t vec' 0%Z
                       = count_if (fun c => Qge_bool (Qabs (nth t (draw_vec control c) 0))
                                              (Qabs (nth t ev 0))) (done ++ [comb])).
  { unfold vec'. split.
    - rewrite length_map_combine; [exact Hlen|].
      rewrite length_map_combine; congruence.
    - intros t Ht.
      rewrite (nth_map_combine (fun c b => (c + int_of_bool b)%Z) _ _ t 0%Z false 0%Z).
      2:{ lia. }
      2:{ rewrite length_map_combine; congruence. }
      rewrite (nth_map_combine (fun pl ob => Qge_bool (Qabs pl) (Qabs ob)) _ _ t 0 0 false).
      2:{ lia. }
      2:{ congruence. }
      rewrite count_if_app, (Hvec t Ht). reflexivity. }
  clearbody vec'. destruct Hvec' as [Hlen' Hnth'].
  assert (Hlen_done : length (done ++ [comb]) = Datatypes.S (length done)).
  { rewrite length_app. cbn. lia. }
  unfold store_draw.
  cbn [placebo_effect_vecs placebo_avg_joint_effects placebo_rms_joint_effects
         vec_p rms_joint_p avg_joint_p].
  rewrite Hpev, Hpavg, Hprms.
  destruct keep.
  - destruct (L - length done)%nat as [|k] eqn:Ek; [lia|].
    assert (Ek' : (L - length (done ++ [comb]))%nat = k) by (rewrite Hlen_done; lia).
    pose proof (nth_error_app_repeat (map (draw_vec control) done)
                  (repeat 0 (length ev)) k) as Hn.
    pose proof (set_item_app (map (draw_vec control) done) (repeat 0 (length ev))
                  (draw_vec control comb) k) as S1.
    pose proof (set_item_app (map (draw_mean cavg) done) 0 (draw_mean cavg comb) k) as S2.
    pose proof (set_item_app (map (draw_mean crms) done) 0 (draw_mean crms comb) k) as S3.
    rewrite length_map in Hn, S1, S2, S3.
    cbv beta iota. unfold vector in *. rewrite Hn.
    rewrite broadcast_to_same by (rewrite repeat_length; congruence).
    replace (map (fun ab : Q * Q => snd ab) (combine (repeat 0 (length ev))
                                               (draw_vec control comb)))
      with (draw_vec control comb)
      by (symmetry; apply map_snd_combine; rewrite repeat_length; congruence).
    cbn [bind]. rewrite S1. cbn [bind]. rewrite S2. cbn [bind]. rewrite S3. cbn [bind].
    eexists. split; [reflexivity|].
    unfold loop_inv.
    cbn [placebo_effect_vecs placebo_avg_joint_effects placebo_rms_joint_effects
           vec_p rms_joint_p avg_joint_p].
    rewrite Ek', !map_app, !count_if_app, Hrms, Havg. cbn [map].
    repeat split; auto.
  - eexists. split; [reflexivity|].
    unfold loop_inv.
    cbn [placebo_effect_vecs placebo_avg_joint_effects placebo_rms_joint_effects
           vec_p rms_joint_p avg_joint_p].
    rewrite !count_if_app, Hrms, Havg.
    repeat split; auto.
Qed.

Lemma init_state_inv `{MN : Mean} (control : ndarray2) (crms cavg ev : vector)
    (rms_obs avg_obs : Q)
    (keep : bool) (comb_len : Z) :
  loop_inv control crms cavg ev rms_obs avg_obs keep (Z.to_nat comb_len) []
    (init_state keep comb_len (length ev)).
Proof.
  unfold loop_inv, init_state, np_empty1, np_empty2.
  destruct keep; cbn; rewrite ?repeat_length, ?Nat.sub_0_r;
    repeat split; auto; intros t Ht; now rewrite nth_repeat.
Qed.

Section DrawByDraw.

Context `{RS : RandomState}.

Lemma np_random_choice_value (n c : nat) (w : world) :
  (c <= n)%nat ->
  np_random_choice n c w
  = (Ok (firstn c (fst (permutation (gen w) n))),
     mk_world _ (snd (permutation (gen w) n)) (log w))
  /\ Forall (fun i => (i < n)%nat) (firstn c (fst (permutation (gen w) n))).
Proof.
  intros H.
  destruct (np_random_choice_ok n c w H) as (comb & w' & Hrun & Hin & _).
  unfold np_random_choice in *.
  destruct ((n =? 0) && negb (c =? 0))%nat; [discriminate|].
  destruct (n <? c)%nat; [discriminate|].
  destruct (permutation (gen w) n) as [perm g'] eqn:E. cbn [fst snd].
  injection Hrun as <- <-. split; [reflexivity|exact Hin].
Qed.

(** The loop over [_random_combinations], for a body that follows the
    invariant: it completes, has processed the draws in order and has
    advanced the generator once per draw. *)
Lemma for_enumerate_drawn {S : Type} (body : nat -> list nat -> S -> result S)
    (Inv : list (list nat) -> S -> Prop) (n c L : nat) :
  (c <= n)%nat ->
  (forall done comb st,
      Inv done st -> Forall (fun i => (i < n)%nat) comb -> (length done < L)%nat ->
      exists st', body (length done) comb st = Ok st' /\ Inv (done ++ [comb]) st') ->
  forall fuel done i num st w,
    fuel = Z.to_nat (num - i) ->
    (length done + fuel <= L)%nat ->
    Inv done st ->
    exists st' w',
      for_enumerate fuel (length done) (IterRandom i num n c) body st w = (Ok st', w')
      /\ Inv (done ++ drawn fuel n c (gen w)) st'
      /\ gen w' = gen_after fuel n (gen w)
      /\ log w' = log w.
Proof.
  intros Hc Hbody fuel.
  induction fuel as [|fuel IH]; intros done i num st w Hfuel Hb HP.
  - exists st, w. cbn. rewrite app_nil_r. auto.
  - cbn [for_enumerate next_comb]. unfold bindM at 1.
    assert (E : (i <? num)%Z = true) by (apply Z.ltb_lt; lia).
    rewrite E. unfold bindM at 1.
    destruct (np_random_choice_value n c w Hc) as [-> Hin].
    cbn [ret]. unfold bindM at 1, lift at 1.
    destruct (Hbody done _ st HP Hin ltac:(lia)) as (st1 & -> & HP1).
    set (comb := firstn c (fst (permutation (gen w) n))) in *.
    set (w1 := mk_world _ (snd (permutation (gen w) n)) (log w)).
    destruct (IH (done ++ [comb]) (i + 1)%Z num st1 w1) as (st' & w' & Hrun & HP' & Hg & Hl).
    + lia.
    + rewrite length_app. cbn. lia.
    + exact HP1.
    + exists st', w'.
      replace (length (done ++ [comb])) with (Datatypes.S (length done)) in Hrun
        by (rewrite length_app; cbn; lia).
      split; [exact Hrun|].
      cbn [drawn gen_after]. fold comb.
      rewrite <- app_assoc in HP'. cbn [app] in HP'.
      repeat split; assumption.
Qed.

(** Each draw is a selection of [c] different indices below [n]. *)
Lemma drawn_spec (k n c : nat) (g : rng) :
  (c <= n)%nat ->
  length (drawn k n c g) = k
  /\ Forall (fun comb => length comb = c /\ NoDup comb
                         /\ Forall (fun i => (i < n)%nat) comb) (drawn k n c g).
Proof.
  intros Hc. revert g. induction k as [|k IH]; intros g; cbn [drawn].
  - split; [reflexivity|constructor].
  - destruct (IH (snd (permutation g n))) as [Hl Hf].
    split; [cbn; now rewrite Hl|].
    constructor; [|exact Hf].
    pose proof (permutation_perm g n) as Hp.
    assert (Hlen : length (fst (permutation g n)) = n).
    { rewrite (Permutation_length Hp). apply length_seq. }
    assert (Hnd : NoDup (fst (permutation g n))).
    { apply (Permutation_NoDup (Permutation_sym Hp)). apply seq_NoDup. }
    split; [rewrite length_firstn; lia|]. split.
    + rewrite <- (firstn_skipn c) in Hnd. now apply NoDup_app_remove_r in Hnd.
    + apply Forall_forall. intros x Hx.
      assert (Hx' : In x (fst (permutation g n))).
      { rewrite <- (firstn_skipn c). apply in_or_app. now left. }
      apply (Permutation_in _ Hp) in Hx'. apply in_seq in Hx'. lia.
Qed.

End DrawByDraw.

Section DrawLoopSpec.

Context `{RS : RandomState} `{SQ : Sqrt} `{MN : Mean}.

Lemma draw_loop_spec (control effect : ndarray2) (max_n_pl : Z) (keep : bool)
    (w : world) :
  length (rows control) = shape0 control ->
  shape1 control = shape1 effect ->
  (shape0 effect <= shape0 control)%nat ->
  let C := binom (shape0 control) (shape0 effect) in
  let draws := drawn C (shape0 control) (shape0 effect) (gen w) in
  exists st w',
    draw_loop control effect max_n_pl keep w = (Ok st, w')
    /\ loop_inv control (rms_per_unit control) (np_mean_axis1 control)
         (obs_effect_vec effect) (obs_rms_joint_effect effect)
         (obs_avg_joint_effect effect) keep C draws st
    /\ gen w' = gen_after C (shape0 control) (gen w)
    /\ log w' = log w.
Proof.
  intros Hrows HT HN C draws.
  rewrite draw_loop_unfold. cbv zeta.
  rewrite (ncr_binom _ _ HN). fold C.
  assert (Hev : length (obs_effect_vec effect) = shape1 effect)
    by apply obs_effect_vec_length.
  rewrite Z.sub_0_r, Nat2Z.id.
  destruct (for_enumerate_drawn
              (loop_body control (rms_per_unit control) (np_mean_axis1 control)
                 (obs_effect_vec effect) (obs_rms_joint_effect effect)
                 (obs_avg_joint_effect effect))
              (loop_inv control (rms_per_unit control) (np_mean_axis1 control)
                 (obs_effect_vec effect) (obs_rms_joint_effect effect)
                 (obs_avg_joint_effect effect) keep C)
              (shape0 control) (shape0 effect) C HN)
    with (fuel := C) (done := @nil (list nat)) (i := 0%Z) (num := Z.of_nat C)
         (st := init_state keep (Z.of_nat C) (shape1 effect)) (w := w)
    as (st & w' & Hrun & Hinv & Hg & Hl).
  - intros done comb st Hinv Hin Hlt.
    apply loop_body_step; try assumption.
    + now rewrite rms_per_unit_length.
    + now rewrite np_mean_axis1_shape.
    + congruence.
  - lia.
  - cbn. lia.
  - rewrite <- Hev. rewrite <- (Nat2Z.id C) at 1. apply init_state_inv.
  - exists st, w'. cbn [length app] in *. auto.
Qed.

End DrawLoopSpec.

(** ** The range of a p-value *)

Lemma inclusive_p_value_bounds (count comb_len : Z) :
  (0 <= count <= comb_len)%Z ->
  1 / inject_Z (comb_len + 1) <= inclusive_p_value count comb_len
  /\ inclusive_p_value count comb_len <= 1
  /\ (count = comb_len -> inclusive_p_value count comb_len == 1).
Proof.
  intros H. unfold inclusive_p_value.
  destruct (comb_len + 1)%Z as [|d|d] eqn:E; try lia.
  change 1 with (inject_Z 1) at 1.
  rewrite <- !Qmake_Qdiv.
  unfold Qle, Qeq. cbn [Qnum Qden].
  repeat split; try intros ->; try nia.
Qed.

Lemma calculate_p_value_exclusive (count npl : Z) :
  npl <> 0%Z ->
  _calculate_p_value count npl false = Ok (inject_Z count / inject_Z npl).
Proof.
  intros H. unfold _calculate_p_value. cbn [int_of_bool].
  rewrite !Z.add_0_r.
  destruct (Z.eqb_spec npl 0); [contradiction|reflexivity].
Qed.

(** C6.  In every completed run each returned p-value is
    [(count + 1) / (comb_len + 1)], where [count] is the final value of the
    corresponding counter of the draw loop and [comb_len] the reported number
    of placebos; [_calculate_p_value] yields [count / comb_len] under the
    other convention.  Each count lies between [0] and [comb_len], so each
    p-value lies in [[1/(comb_len+1), 1]] and equals [1] when the count is
    [comb_len].  On valid input the run has made [comb_len = C(N0,N1)] draws,
    and each counter is the number of those draws whose aggregate is at least
    as extreme as the observed one: in absolute value for a period and for
    the average, as it is for the RMS.  This holds for every choice of the
    reductions and of the square root, so for numpy's float64 ones. *)
Theorem C6_p_value_formula_and_range
    (RS : RandomState) (SQ : Sqrt) (MN : Mean) (control effect : ndarray2)
    (max_n_pl : Z) (ret_pl ret_CI : bool) (level : Q) (w w' : world)
    (res : PlaceboResults) :
  _gen_placebo_stats_from_diffs control effect max_n_pl ret_pl ret_CI level w
  = (Ok res, w') ->
  let comb_len := N_placebo res in
  exists st w1,
    draw_loop control effect max_n_pl (ret_pl || ret_CI) w = (Ok st, w1)
    /\ p (effect_vec res)
       = Array (map (fun count => inclusive_p_value count comb_len) (vec_p st))
    /\ p (avg_joint_effect res) = Scalar (inclusive_p_value (avg_joint_p st) comb_len)
    /\ p (rms_joint_effect res) = Scalar (inclusive_p_value (rms_joint_p st) comb_len)
    /\ (forall count,
           _calculate_p_value count comb_len true
           = Ok (inject_Z (count + 1) / inject_Z (comb_len + 1))
           /\ _calculate_p_value count comb_len false
              = Ok (inject_Z count / inject_Z comb_len))
    /\ (forall count,
           In count (avg_joint_p st :: rms_joint_p st :: vec_p st) ->
           (0 <= count <= comb_len)%Z
           /\ 1 / inject_Z (comb_len + 1) <= inclusive_p_value count comb_len
           /\ inclusive_p_value count comb_len <= 1
           /\ (count = comb_len -> inclusive_p_value count comb_len == 1))
    /\ (valid_placebo_input control effect ->
        let draws :=
          drawn (Z.to_nat comb_len) (shape0 control) (shape0 effect) (gen w) in
        comb_len = Z.of_nat (binom (shape0 control) (shape0 effect))
        /\ Z.of_nat (length draws) = comb_len
        /\ length (vec_p st) = shape1 effect
        /\ (forall t, (t < shape1 effect)%nat ->
              nth t (vec_p st) 0%Z
              = count_if (fun comb =>
                            Qge_bool (Qabs (nth t (draw_vec control comb) 0))
                              (Qabs (nth t (obs_effect_vec effect) 0))) draws)
        /\ avg_joint_p st
           = count_if (fun comb =>
                         Qge_bool (Qabs (draw_mean (np_mean_axis1 control) comb))
                           (Qabs (obs_avg_joint_effect effect))) draws
        /\ rms_joint_p st
           = count_if (fun comb =>
                         Qge_bool (draw_mean (rms_per_unit control) comb)
                           (obs_rms_joint_effect effect)) draws).
Proof.
  intros H comb_len.
  pose proof (N_placebo_is_ncr _ _ _ _ _ _ _ _ _ H) as HN.
  pose proof (ncr_pos (shape0 control) (shape0 effect)) as Hpos.
  destruct (_gen_placebo_stats_from_diffs control effect max_n_pl ret_pl ret_CI level w)
    as [r w2] eqn:Erun.
  injection H as -> ->.
  destruct (draw_loop control effect max_n_pl (ret_pl || ret_CI) w)
    as [[st|e] w1] eqn:Eloop.
  2:{ rewrite (engine_loop_raises _ _ _ _ _ _ _ _ _ Eloop) in Erun. discriminate. }
  pose proof (engine_after_loop _ _ _ ret_pl ret_CI level _ _ _ Eloop) as Hafter.
  cbv zeta in Hafter. rewrite Erun in Hafter.
  pose proof (draw_loop_counts _ _ _ _ _ _ _ Eloop) as [(Hv & Hr & Ha) _].
  exists st, w1. split; [reflexivity|].
  assert (Hres : p (effect_vec res)
                 = Array (map (fun c => inclusive_p_value c comb_len) (vec_p st))
                 /\ p (avg_joint_effect res)
                    = Scalar (inclusive_p_value (avg_joint_p st) comb_len)
                 /\ p (rms_joint_effect res)
                    = Scalar (inclusive_p_value (rms_joint_p st) comb_len)).
  { unfold comb_len. rewrite HN. unfold bindM in Hafter.
    destruct ret_CI.
    - destruct (gen_CIs _ _ _ _ _ _ _ w1) as [[[[cv ca] cr]|e] w3];
        [|discriminate].
      cbn [ret] in Hafter. injection Hafter as -> _. cbn. auto.
    - cbn [ret] in Hafter. injection Hafter as -> _. cbn. auto. }
  destruct Hres as (Hp1 & Hp2 & Hp3).
  split; [exact Hp1|]. split; [exact Hp2|]. split; [exact Hp3|].
  assert (Hlen : (1 <= comb_len)%Z) by (unfold comb_len; lia).
  split; [|split].
  - intros count. split.
    + apply calculate_p_value_inclusive. lia.
    + apply calculate_p_value_exclusive. lia.
  - intros count Hin.
    assert (Hc : (0 <= count <= comb_len)%Z).
    { unfold comb_len. rewrite HN.
      destruct Hin as [<-|[<-|Hin]]; try lia.
      rewrite Forall_forall in Hv. specialize (Hv _ Hin). lia. }
    split; [exact Hc|]. now apply inclusive_p_value_bounds.
  - intros ((Hrows & _) & _ & HT & HNs & _).
    assert (HN0 : (shape0 effect <= shape0 control)%nat) by lia.
    unfold comb_len. rewrite HN, (ncr_binom _ _ HN0), Nat2Z.id.
    destruct (draw_loop_spec control effect max_n_pl (ret_pl || ret_CI) w Hrows HT HN0)
      as (st' & w1' & Hrun' & Hinv & _).
    rewrite Eloop in Hrun'. injection Hrun' as <- <-.
    destruct (drawn_spec (binom (shape0 control) (shape0 effect)) (shape0 control)
                (shape0 effect) (gen w) HN0) as [Hdl _].
    destruct Hinv as (I1 & I2 & I3 & I4 & _).
    rewrite obs_effect_vec_length in I1, I2.
    cbv zeta. rewrite Hdl. repeat split; assumption.
Qed.

(** A completed run on three control units with effects 1, 2, 3 and one
    treated unit with effect 2: two of the three draws are at least as
    extreme, and the p-value of the average effect is (2 + 1) / (3 + 1). *)
Lemma C6_witness :
  exists res w',
    run (_gen_placebo_stats_from_diffs control3 (mk_ndarray2 1 1 [[2]]) 2 false false
           (95 # 100)) 0%nat = (Ok res, w')
    /\ N_placebo res = 3%Z
    /\ drawn 3 3 1 0%nat = [[0]; [1]; [2]]%nat
    /\ p (avg_joint_effect res) = Scalar (inclusive_p_value 2 3)
    /\ 1 / inject_Z (3 + 1) <= inclusive_p_value 2 3
    /\ inclusive_p_value 2 3 <= 1.
Proof.
  assert (Hrun : exists res w',
             run (_gen_placebo_stats_from_diffs control3 (mk_ndarray2 1 1 [[2]]) 2
                    false false (95 # 100)) 0%nat = (Ok res, w')).
  { eexists. eexists. vm_compute. reflexivity. }
  destruct Hrun as (res & w' & Hrun).
  destruct (C6_p_value_formula_and_range counter_rng rational_sqrt rational_mean
              control3 (mk_ndarray2 1 1 [[2]]) 2 false false (95 # 100)
              (mk_world counter_rng 0%nat []) w' res Hrun)
    as (st & w1 & Hloop & _ & Hp & _ & _ & Hrange & Hcount).
  assert (Hvalid : valid_placebo_input control3 (mk_ndarray2 1 1 [[2]])).
  { repeat split; repeat constructor; cbn; try lia; vm_compute; discriminate. }
  destruct (Hcount Hvalid) as (HN & _ & _ & _ & Havg & _).
  cbv zeta in Havg. rewrite HN in *.
  change (binom (shape0 control3) (shape0 (mk_ndarray2 1 1 [[2]]))) with 3%nat in *.
  change (Z.of_nat 3) with 3%Z in *.
  assert (Hc : avg_joint_p st = 2%Z) by (rewrite Havg; vm_compute; reflexivity).
  destruct (Hrange (avg_joint_p st) (or_introl eq_refl)) as (_ & Hlo & Hhi & _).
  rewrite Hc in Hp, Hlo, Hhi.
  exists res, w'.
  repeat split; try assumption; reflexivity.
Defined.

(** The reductions matter to a count.  One control unit with the float
    effects 0.1 and 0.3 and one treated unit with the float effects 0.2 and
    0.2: in floats (0.1 + 0.3) / 2 is the float 0.2, the draw ties with the
    observed average and is counted, and the p-value is (1 + 1) / (1 + 1);
    the exact mean of the two control floats is below the float 0.2, and the
    draw is not counted. *)
Example rounded_means_tie :
  let control := mk_ndarray2 1 2 [[fl (1 # 10); fl (3 # 10)]] in
  let treated := mk_ndarray2 1 2 [[fl (2 # 10); fl (2 # 10)]] in
  (exists res w',
      @_gen_placebo_stats_from_diffs counter_rng rational_sqrt float64_mean
        control treated 1000000 false false (95 # 100) (mk_world counter_rng 0%nat [])
      = (Ok res, w')
      /\ p (avg_joint_effect res) = Scalar (inclusive_p_value 1 1))
  /\ (exists res w',
         @_gen_placebo_stats_from_diffs counter_rng rational_sqrt rational_mean
           control treated 1000000 false false (95 # 100) (mk_world counter_rng 0%nat [])
         = (Ok res, w')
         /\ p (avg_joint_effect res) = Scalar (inclusive_p_value 0 1)).
Proof.
  cbv zeta. split; eexists; eexists; split; vm_compute; reflexivity.
Qed.

(** ** The counters of one draw *)

Lemma placebo_draw_length `{MN : Mean} (control : ndarray2) (crms cavg : vector)
    (comb : list nat)
    (pv : vector) (prms pavg : Q) :
  placebo_draw control crms cavg comb = Ok (pv, prms, pavg) ->
  length pv = shape1 control.
Proof.
  unfold placebo_draw, take_rows.
  destruct (np_take (rows control) comb) as [rs|]; [|discriminate]. cbn [bind].
  destruct (np_take crms comb); [|discriminate]. cbn [bind].
  destruct (np_take cavg comb); [|discriminate]. cbn [bind].
  intros [= <- _ _]. now rewrite np_mean_axis0_shape.
Qed.

Lemma int_of_bool_Qge (a b : Q) (c : Z) :
  (b <= a -> (c + int_of_bool (Qge_bool a b) = c + 1)%Z)
  /\ (~ b <= a -> (c + int_of_bool (Qge_bool a b) = c)%Z).
Proof.
  unfold Qge_bool.
  destruct (Qle_bool b a) eqn:E; cbn [int_of_bool].
  - split; [reflexivity|]. intros H. exfalso. apply H. now apply Qle_bool_iff.
  - split; [|intros; lia]. intros H. apply Qle_bool_iff in H. congruence.
Qed.

Lemma Qabs_opposite (x y : Q) : x == - y -> Qabs y <= Qabs x.
Proof. intros ->. rewrite Qabs_opp. apply Qle_refl. Qed.

(** C7.  One pass of the loop body over a draw [comb] with aggregates
    [(pv, prms, pavg)] adds one to the counter of period [t] exactly when
    [|pv[t]| >= |effect_vec[t]|], to the average-effect counter exactly when
    [|pavg| >= |avg_joint_effect|], and to the RMS counter exactly when
    [prms >= rms_joint_effect]; a period or average value equal to the
    negated observed one is counted. *)
Theorem C7_counter_increments
    (MN : Mean) (control : ndarray2) (crms cavg effect_vec : vector)
    (rms_obs avg_obs : Q)
    (idx : nat) (comb : list nat) (st st' : loop_state) :
  shape1 control = length effect_vec ->
  length (vec_p st) = length effect_vec ->
  loop_body control crms cavg effect_vec rms_obs avg_obs idx comb st = Ok st' ->
  exists pv prms pavg,
    placebo_draw control crms cavg comb = Ok (pv, prms, pavg)
    /\ (forall t, (t < length effect_vec)%nat ->
          let old := nth t (vec_p st) 0%Z in
          let new := nth t (vec_p st') 0%Z in
          (Qabs (nth t effect_vec 0) <= Qabs (nth t pv 0) -> new = (old + 1)%Z)
          /\ (~ Qabs (nth t effect_vec 0) <= Qabs (nth t pv 0) -> new = old)
          /\ (nth t pv 0 == - nth t effect_vec 0 -> new = (old + 1)%Z))
    /\ ((Qabs avg_obs <= Qabs pavg -> avg_joint_p st' = (avg_joint_p st + 1)%Z)
        /\ (~ Qabs avg_obs <= Qabs pavg -> avg_joint_p st' = avg_joint_p st)
        /\ (pavg == - avg_obs -> avg_joint_p st' = (avg_joint_p st + 1)%Z))
    /\ ((rms_obs <= prms -> rms_joint_p st' = (rms_joint_p st + 1)%Z)
        /\ (~ rms_obs <= prms -> rms_joint_p st' = rms_joint_p st)).
Proof.
  intros HT Hvec Hbody. unfold loop_body in Hbody.
  destruct (placebo_draw control crms cavg comb) as [[[pv prms] pavg]|] eqn:Ed;
    [|discriminate].
  cbn [bind] in Hbody.
  pose proof (placebo_draw_length _ _ _ _ _ _ _ Ed) as Hpv.
  rewrite count_draw_same in Hbody by congruence. cbn [bind] in Hbody.
  apply store_draw_counters in Hbody.
  cbn [vec_p rms_joint_p avg_joint_p] in Hbody. destruct Hbody as (Hv & Hr & Ha).
  exists pv, prms, pavg. split; [reflexivity|]. split; [|split].
  - intros t Ht. cbv zeta. rewrite Hv.
    rewrite (nth_map_combine (fun c b => (c + int_of_bool b)%Z) _ _ t 0%Z false 0%Z).
    2:{ lia. }
    2:{ rewrite length_map_combine; congruence. }
    rewrite (nth_map_combine (fun pl ob => Qge_bool (Qabs pl) (Qabs ob)) _ _ t 0 0 false).
    2:{ lia. }
    2:{ congruence. }
    destruct (int_of_bool_Qge (Qabs (nth t pv 0)) (Qabs (nth t effect_vec 0))
                (nth t (vec_p st) 0%Z)) as [H1 H2].
    split; [exact H1|]. split; [exact H2|].
    intros Hopp. apply H1. now apply Qabs_opposite.
  - rewrite Ha.
    destruct (int_of_bool_Qge (Qabs pavg) (Qabs avg_obs) (avg_joint_p st)) as [H1 H2].
    split; [exact H1|]. split; [exact H2|].
    intros Hopp. apply H1. now apply Qabs_opposite.
  - rewrite Hr. apply int_of_bool_Qge.
Qed.

(** A draw with the period values [(-5, 1)] against the observed [(5, 3)],
    the average [-2] against [2] and the RMS [4] against [4]. *)
Lemma C7_witness :
  exists st',
    loop_body (mk_ndarray2 1 2 [[-5; 1]]) [4] [-2] [5; 3] 4 2 0 [0%nat]
      (init_state false 1 2) = Ok st'
    /\ nth 0 (vec_p st') 0%Z = 1%Z
    /\ nth 1 (vec_p st') 0%Z = 0%Z
    /\ avg_joint_p st' = 1%Z
    /\ rms_joint_p st' = 1%Z.
Proof.
  assert (Hbody : exists st',
             loop_body (mk_ndarray2 1 2 [[-5; 1]]) [4] [-2] [5; 3] 4 2 0 [0%nat]
               (init_state false 1 2) = Ok st').
  { eexists. vm_compute. reflexivity. }
  destruct Hbody as (st' & Hbody). exists st'. split; [exact Hbody|].
  destruct (C7_counter_increments rational_mean (mk_ndarray2 1 2 [[-5; 1]]) [4] [-2]
              [5; 3] 4 2
              0 [0%nat] (init_state false 1 2) st' eq_refl eq_refl Hbody)
    as (pv & prms & pavg & Hd & Hvec & Havg & Hrms).
  vm_compute in Hd. injection Hd as <- <- <-.
  destruct (Hvec 0%nat ltac:(cbn; lia)) as (_ & _ & H0).
  destruct (Hvec 1%nat ltac:(cbn; lia)) as (_ & H1 & _).
  destruct Havg as (_ & _ & Ha). destruct Hrms as (Hr & _).
  repeat split.
  - apply H0. reflexivity.
  - apply H1. cbn. unfold Qle. cbn. lia.
  - apply Ha. reflexivity.
  - apply Hr. unfold Qle. cbn. lia.
Defined.

(** ** The degenerate-interval warning *)

Lemma np_sign_cases (x : Q) :
  (x == 0 /\ np_sign x = 0%Z /\ Qneq_bool x 0 = false)
  \/ (x < 0 /\ np_sign x = (-1)%Z /\ Qneq_bool x 0 = true)
  \/ (0 < x /\ np_sign x = 1%Z /\ Qneq_bool x 0 = true).
Proof.
  unfold np_sign, Qneq_bool.
  destruct (Qcompare x 0) eqn:C.
  - apply Qeq_alt in C. left. repeat split; [exact C|].
    apply Qeq_bool_iff in C. now rewrite C.
  - apply Qlt_alt in C. right. left. repeat split; [exact C|].
    destruct (Qeq_bool x 0) eqn:E; [|reflexivity].
    apply Qeq_bool_iff in E. lra.
  - apply Qgt_alt in C. right. right. repeat split; [exact C|].
    destruct (Qeq_bool x 0) eqn:E; [|reflexivity].
    apply Qeq_bool_iff in E. lra.
Qed.

Lemma warning_test_spec (low high : Q) :
  ((np_sign low =? np_sign high)%Z && Qneq_bool low 0 && Qneq_bool high 0)%bool = true
  <-> both_nonzero_same_sign low high.
Proof.
  unfold both_nonzero_same_sign.
  destruct (np_sign_cases low) as [(Hl & -> & ->)|[(Hl & -> & ->)|(Hl & -> & ->)]];
    destruct (np_sign_cases high) as [(Hh & -> & ->)|[(Hh & -> & ->)|(Hh & -> & ->)]];
    cbn; split; try discriminate; auto; intros [[H1 H2]|[H1 H2]]; lra.
Qed.

Section Intervals.

Context `{RS : RandomState}.

(** [_gen_CI] when both order statistics exist: it returns the flipped
    interval and appends the warning exactly when the null is zero and the
    two statistics are nonzero of one sign. *)
Lemma gen_CI_spec (placebo_effects : vector) (alpha_ind : Z) (effect : Q)
    (null_is_zero : bool) (w : world) (low high : Q) :
  get_item (np_sort placebo_effects) alpha_ind = Ok low ->
  get_item (np_sort placebo_effects)
    ((Z.of_nat (length placebo_effects) + 1) - alpha_ind)%Z = Ok high ->
  exists w',
    _gen_CI placebo_effects alpha_ind effect null_is_zero w
    = (Ok (effect - high, effect - low), w')
    /\ gen w' = gen w
    /\ (null_is_zero = true /\ both_nonzero_same_sign low high ->
        log w' = log w ++ [ci_warning])
    /\ (~ (null_is_zero = true /\ both_nonzero_same_sign low high) ->
        log w' = log w).
Proof.
  intros Hlow Hhigh. unfold _gen_CI, bindM, lift. rewrite Hlow, Hhigh.
  destruct (null_is_zero && (np_sign low =? np_sign high)%Z && Qneq_bool low 0
            && Qneq_bool high 0)%bool eqn:E.
  - eexists. split; [reflexivity|]. cbn. split; [reflexivity|].
    split; [reflexivity|].
    intros Hn. exfalso. apply Hn.
    destruct null_is_zero; [|discriminate]. split; [reflexivity|].
    now apply warning_test_spec.
  - eexists. split; [reflexivity|]. cbn. split; [reflexivity|].
    split; [|reflexivity].
    intros [-> Hd]. apply warning_test_spec in Hd.
    cbn [andb] in E. congruence.
Qed.

Lemma gen_CI_inv (placebo_effects : vector) (alpha_ind : Z) (effect : Q)
    (null_is_zero : bool) (w w' : world) (c : Q * Q) :
  _gen_CI placebo_effects alpha_ind effect null_is_zero w = (Ok c, w') ->
  exists low high,
    get_item (np_sort placebo_effects) alpha_ind = Ok low
    /\ get_item (np_sort placebo_effects)
         ((Z.of_nat (length placebo_effects) + 1) - alpha_ind)%Z = Ok high
    /\ c = (effect - high, effect - low).
Proof.
  intros H.
  destruct (get_item (np_sort placebo_effects) alpha_ind) as [low|e] eqn:El.
  2:{ unfold _gen_CI, bindM, lift in H. rewrite El in H. discriminate. }
  destruct (get_item (np_sort placebo_effects)
              ((Z.of_nat (length placebo_effects) + 1) - alpha_ind)%Z)
    as [high|e] eqn:Eh.
  2:{ unfold _gen_CI, bindM, lift in H. rewrite El, Eh in H. discriminate. }
  exists low, high. repeat split.
  destruct (gen_CI_spec _ _ effect null_is_zero w _ _ El Eh) as (w2 & Hrun & _).
  congruence.
Qed.

(** The log after [_gen_CI] with [null_is_zero = True], by a flag. *)
Lemma gen_CI_flag (pl : vector) (alpha_ind : Z) (effect : Q) (w w' : world)
    (c : Q * Q) :
  _gen_CI pl alpha_ind effect true w = (Ok c, w') ->
  exists b, degenerate_flag alpha_ind pl b
            /\ gen w' = gen w /\ log w' = log w ++ warnings_of [b].
Proof.
  intros H. destruct (gen_CI_inv _ _ _ _ _ _ _ H) as (low & high & El & Eh & _).
  destruct (gen_CI_spec _ _ effect true w _ _ El Eh) as (w2 & Hrun & Hg & Hy & Hn).
  assert (w2 = w') by congruence. subst w2.
  destruct ((np_sign low =? np_sign high)%Z && Qneq_bool low 0 && Qneq_bool high 0)%bool
    eqn:E.
  - apply warning_test_spec in E. exists true. split.
    + exists low, high. repeat split; auto.
    + split; [exact Hg|]. cbn. rewrite Hy by auto. reflexivity.
  - exists false. split.
    + exists low, high. repeat split; auto; try discriminate.
      intros Hd. apply warning_test_spec in Hd. congruence.
    + split; [exact Hg|]. cbn. rewrite app_nil_r. apply Hn.
      intros [_ Hd]. apply warning_test_spec in Hd. congruence.
Qed.

(** With [null_is_zero = False] nothing is logged. *)
Lemma gen_CI_null_not_zero (pl : vector) (alpha_ind : Z) (effect : Q) (w w' : world)
    (r : result (Q * Q)) :
  _gen_CI pl alpha_ind effect false w = (r, w') -> w' = w.
Proof.
  unfold _gen_CI, bindM, lift.
  destruct (get_item (np_sort pl) alpha_ind); [|now intros [= _ <-]].
  destruct (get_item (np_sort pl) _); [|now intros [= _ <-]].
  cbn. now intros [= _ <-].
Qed.

Lemma warnings_of_app (f1 f2 : list bool) :
  warnings_of (f1 ++ f2) = warnings_of f1 ++ warnings_of f2.
Proof. unfold warnings_of. apply flat_map_app. Qed.

Lemma gen_CI_vec_flags (ts : list nat) (pev : list vector) (alpha_ind : Z)
    (ev : vector) (w w' : world) (cs : list (Q * Q)) :
  gen_CI_vec ts pev alpha_ind ev w = (Ok cs, w') ->
  exists flags,
    Forall2 (degenerate_flag alpha_ind) (map (fun t => column t pev) ts) flags
    /\ gen w' = gen w /\ log w' = log w ++ warnings_of flags.
Proof.
  revert w w' cs. induction ts as [|t ts IH]; intros w w' cs H.
  - cbn in H. injection H as <- <-. exists []. cbn.
    rewrite app_nil_r. repeat split. constructor.
  - cbn [gen_CI_vec] in H. unfold bindM at 1, lift at 1 in H.
    destruct (nth_error ev t) as [e|]; [|discriminate].
    unfold bindM at 1 in H.
    destruct (_gen_CI (column t pev) alpha_ind e true w) as [[c|x] w1] eqn:E1;
      [|discriminate].
    unfold bindM at 1 in H.
    destruct (gen_CI_vec ts pev alpha_ind ev w1) as [[cs'|x] w2] eqn:E2;
      [|discriminate].
    cbn [ret] in H. injection H as <- <-.
    destruct (gen_CI_flag _ _ _ _ _ _ E1) as (b & Hb & Hg1 & Hl1).
    destruct (IH _ _ _ E2) as (flags & Hf & Hg2 & Hl2).
    exists (b :: flags). split; [cbn; now constructor|].
    split; [congruence|].
    rewrite Hl2, Hl1. change (b :: flags) with ([b] ++ flags).
    rewrite warnings_of_app. now rewrite app_assoc.
Qed.

(** The intervals of a run: the log grows by the warnings of the per-period
    distributions and of the average distribution, in that order; the RMS
    distribution contributes none. *)
Lemma gen_CIs_flags (level : Q) (n_pl : Z) (T1 : nat) (st : loop_state)
    (ev : vector) (avg rms : Q) (w w' : world) (cis : CI_int * CI_int * CI_int) :
  gen_CIs level n_pl T1 st ev avg rms w = (Ok cis, w') ->
  exists pev pavg prms flags,
    placebo_effect_vecs st = Some pev
    /\ placebo_avg_joint_effects st = Some pavg
    /\ placebo_rms_joint_effects st = Some prms
    /\ Forall2 (degenerate_flag (alpha_index level n_pl))
         (map (fun t => column t pev) (seq 0 T1) ++ [pavg]) flags
    /\ gen w' = gen w
    /\ log w' = log w ++ warnings_of flags.
Proof.
  unfold gen_CIs. fold (alpha_index level n_pl).
  destruct (negb _); [discriminate|].
  destruct (n_pl =? 0)%Z; [discriminate|].
  destruct (Qeq_bool _ 0); [discriminate|].
  destruct (placebo_effect_vecs st) as [pev|]; [|discriminate].
  destruct (placebo_avg_joint_effects st) as [pavg|]; [|discriminate].
  destruct (placebo_rms_joint_effects st) as [prms|]; [|discriminate].
  intros H. unfold bindM at 1 in H.
  destruct (gen_CI_vec (seq 0 T1) pev (alpha_index level n_pl) ev w)
    as [[cv|x] w1] eqn:E1; [|discriminate].
  unfold bindM at 1 in H.
  destruct (_gen_CI pavg (alpha_index level n_pl) avg true w1) as [[ca|x] w2] eqn:E2;
    [|discriminate].
  unfold bindM at 1 in H.
  destruct (_gen_CI prms (alpha_index level n_pl) rms false w2) as [[cr|x] w3] eqn:E3;
    [|discriminate].
  cbn [ret] in H. injection H as _ <-.
  apply gen_CI_null_not_zero in E3. subst w3.
  destruct (gen_CI_vec_flags _ _ _ _ _ _ _ E1) as (flags & Hf & Hg1 & Hl1).
  destruct (gen_CI_flag _ _ _ _ _ _ E2) as (b & Hb & Hg2 & Hl2).
  exists pev, pavg, prms, (flags ++ [b]).
  repeat split; try reflexivity.
  - apply Forall2_app; [exact Hf|]. now constructor.
  - congruence.
  - rewrite Hl2, Hl1, warnings_of_app. now rewrite app_assoc.
Qed.

End Intervals.

(** C8, counterexample to the claim as stated.  Read on the interval that
    is returned, the claim fails in both directions.  With control effects
    -1, 0, 1, 3, a treated effect 3/2 and level 1/4 the returned interval of
    the average effect is (-3/2, 1/2), whose bounds have opposite signs, and
    the warning is emitted; with control effects -3, -2, -1, 2 and a treated
    effect 10 the returned interval is (8, 11), both bounds nonzero and of
    one sign, and no warning is emitted. *)
Lemma C8_counterexample :
  (exists res w' low high,
      run (_gen_placebo_stats_from_diffs control_upper treated_between 1000000 false
             true (1 # 4)) 0%nat = (Ok res, w')
      /\ ci (avg_joint_effect res) = Some (mk_CI_int (Scalar low) (Scalar high) (1 # 4))
      /\ low == - (3 # 2) /\ high == 1 # 2
      /\ ~ both_nonzero_same_sign low high
      /\ In ci_warning (log w'))
  /\ (exists res w' low high,
         run (_gen_placebo_stats_from_diffs control_around treated_above 1000000 false
                true (1 # 4)) 0%nat = (Ok res, w')
         /\ ci (avg_joint_effect res)
            = Some (mk_CI_int (Scalar low) (Scalar high) (1 # 4))
         /\ low == 8 /\ high == 11
         /\ both_nonzero_same_sign low high
         /\ log w' = []).
Proof.
  split.
  - eexists. eexists. eexists. eexists.
    split; [vm_compute; reflexivity|].
    split; [vm_compute; reflexivity|].
    split; [reflexivity|]. split; [reflexivity|].
    split; [|now left].
    unfold both_nonzero_same_sign. intros [[H _]|[_ H]]; revert H; vm_compute;
      intros H; discriminate.
  - eexists. eexists. eexists. eexists.
    split; [vm_compute; reflexivity|].
    split; [vm_compute; reflexivity|].
    split; [reflexivity|]. split; [reflexivity|].
    split; [|reflexivity].
    left. split; reflexivity.
Qed.

(** C8, as amended.  The sign test of [_gen_CI] is made on the two order
    statistics [low = sorted[alpha_ind]] and [high = sorted[npl + 1 -
    alpha_ind]] of the placebo distribution, before they are flipped around
    the observed effect: with the null at zero the warning is appended
    exactly when both are nonzero and of one sign, and the interval
    [(effect - high, effect - low)] is returned whether or not it warns.  In
    a completed run with intervals requested the placebo distributions are
    returned with the result, the log grows by exactly the warnings of the
    per-period distributions followed by that of the average distribution,
    each decided at the index the floats give (the RMS distribution is
    computed with [null_is_zero=False] and adds none), and the result
    carries all three intervals. *)
Theorem C8_degenerate_interval_warning
    (RS : RandomState) (SQ : Sqrt) (MN : Mean) (control effect : ndarray2)
    (max_n_pl : Z) (ret_pl : bool) (level : Q) (w w' : world)
    (res : PlaceboResults) :
  _gen_placebo_stats_from_diffs control effect max_n_pl ret_pl true level w
  = (Ok res, w') ->
  (forall (pl : vector) (alpha_ind : Z) (eff : Q) (null_is_zero : bool)
          (w0 : world) (low high : Q),
      get_item (np_sort pl) alpha_ind = Ok low ->
      get_item (np_sort pl) ((Z.of_nat (length pl) + 1) - alpha_ind)%Z = Ok high ->
      exists w1,
        _gen_CI pl alpha_ind eff null_is_zero w0 = (Ok (eff - high, eff - low), w1)
        /\ (null_is_zero = true /\ both_nonzero_same_sign low high ->
            log w1 = log w0 ++ [ci_warning])
        /\ (~ (null_is_zero = true /\ both_nonzero_same_sign low high) ->
            log w1 = log w0))
  /\ exists st w1 pev pavg prms flags,
       draw_loop control effect max_n_pl (ret_pl || true) w = (Ok st, w1)
       /\ placebo_effect_vecs st = Some pev
       /\ placebo_avg_joint_effects st = Some pavg
       /\ placebo_rms_joint_effects st = Some prms
       /\ placebos (effect_vec res) = Some (Placebos2 pev)
       /\ placebos (avg_joint_effect res) = Some (Placebos1 pavg)
       /\ placebos (rms_joint_effect res) = Some (Placebos1 prms)
       /\ Forall2 (degenerate_flag (alpha_index level (N_placebo res)))
            (map (fun t => column t pev) (seq 0 (shape1 effect)) ++ [pavg]) flags
       /\ log w' = log w ++ warnings_of flags
       /\ (exists cv ca cr,
              ci (effect_vec res) = Some cv
              /\ ci (avg_joint_effect res) = Some ca
              /\ ci (rms_joint_effect res) = Some cr).
Proof.
  intros H. split.
  - intros pl alpha_ind eff nz w0 low high Hl Hh.
    destruct (gen_CI_spec pl alpha_ind eff nz w0 low high Hl Hh)
      as (w1 & Hrun & _ & Hy & Hn).
    exists w1. auto.
  - destruct (engine_inv _ _ _ _ _ _ _ _ _ H)
      as (st & w1 & vp & qr & qa & Hloop & HN & _ & _ & _ & _ & _ & _ & Hci).
    destruct Hci as (cv & ca & cr & Hgen & Hcv & Hca & Hcr).
    destruct (draw_loop_counts _ _ _ _ _ _ _ Hloop) as [_ Hlog].
    destruct (engine_fields _ _ _ _ _ _ _ _ _ _ _ Hloop H)
      as (_ & _ & _ & P1 & P2 & P3).
    destruct (gen_CIs_flags _ _ _ _ _ _ _ _ _ _ Hgen)
      as (pev & pavg & prms & flags & E1 & E2 & E3 & Hf & _ & Hl).
    rewrite E1 in P1. rewrite E2 in P2. rewrite E3 in P3.
    exists st, w1, pev, pavg, prms, flags.
    rewrite HN. repeat split; try assumption.
    + congruence.
    + exists cv, ca, cr. auto.
Qed.

(** The first run of the counterexample, by the theorem: its log consists of
    the warnings of its flags, and both the per-period and the average
    distribution, whose order statistics read at index 2 are 1 and 3, are
    flagged. *)
Lemma C8_witness :
  exists res w' flags,
    run (_gen_placebo_stats_from_diffs control_upper treated_between 1000000 false
           true (1 # 4)) 0%nat = (Ok res, w')
    /\ alpha_index (1 # 4) (N_placebo res) = 2%Z
    /\ Forall2 (degenerate_flag 2) [[-1; 0; 1; 3]; [-1; 0; 1; 3]] flags
    /\ log w' = warnings_of flags
    /\ ci (rms_joint_effect res) <> None.
Proof.
  assert (Hrun : exists res w',
             run (_gen_placebo_stats_from_diffs control_upper treated_between 1000000
                    false true (1 # 4)) 0%nat = (Ok res, w')).
  { eexists. eexists. vm_compute. reflexivity. }
  destruct Hrun as (res & w' & Hrun).
  destruct (C8_degenerate_interval_warning counter_rng rational_sqrt rational_mean
              control_upper treated_between 1000000 false (1 # 4)
              (mk_world counter_rng 0%nat []) w' res Hrun)
    as (_ & st & w1 & pev & pavg & prms & flags & Hloop & E1 & E2 & _ & _ & _ & _
        & Hf & Hlog & Hci).
  assert (HN : N_placebo res = 4%Z).
  { apply (N_placebo_is_ncr _ _ _ _ _ _ _ _ _ Hrun). }
  assert (Ha : alpha_index (1 # 4) 4 = 2%Z) by (vm_compute; reflexivity).
  rewrite HN, Ha in Hf.
  vm_compute in Hloop. injection Hloop as <- _.
  cbn in E1, E2. injection E1 as <-. injection E2 as <-.
  exists res, w', flags. split; [exact Hrun|].
  split; [rewrite HN; exact Ha|].
  split; [|split; [exact Hlog|]].
  - revert Hf. vm_compute. intros Hf. exact Hf.
  - destruct Hci as (cv & ca & cr & _ & _ & ->). discriminate.
Defined.

(** In that run the per-period and the average interval each warn; the RMS
    interval does not. *)
Example warnings_of_sample_run :
  log (snd (run (_gen_placebo_stats_from_diffs control_upper treated_between 1000000
                   false true (1 # 4)) 0%nat))
  = [ci_warning; ci_warning].
Proof. vm_compute. reflexivity. Qed.

(** ** Rescaling and iterable penalties *)

Section Penalties.

Context `{GS : GradientStrategies}.

(** A single [w_pen] yields a single bound. *)
Lemma get_max_v_pen_scalar_single (X Y : raw_data) (w : Q) (X_treat Y_treat : pyarg)
    (kw : kwargs) (b : PenaltyBound) :
  get_max_v_pen X Y (WScalar w) X_treat Y_treat kw = Ok b -> exists r, b = Single r.
Proof.
  unfold get_max_v_pen.
  destruct (parameter_qc X Y X_treat Y_treat) as [[Xm Ym]|]; [|discriminate].
  cbn [bind].
  destruct X_treat.
  - destruct (kw_mem "grad_splits" kw).
    + destruct (fold_v_matrix Xm Ym w true _GRADIENT_MESSAGE kw) as [r|];
        [|discriminate].
      cbn. intros [= <-]. now exists r.
    + destruct (except_MemoryError _) as [r|]; [|discriminate].
      cbn. intros [= <-]. now exists r.
  - destruct (treat_qc Xm Ym _ Y_treat) as [[Xt Yt]|]; [|discriminate]. cbn [bind].
    destruct (call_ct _ _ _ _ _ _ _ _) as [r|]; [|discriminate].
    cbn. intros [= <-]. now exists r.
  - destruct (treat_qc Xm Ym _ Y_treat) as [[Xt Yt]|]; [|discriminate]. cbn [bind].
    destruct (call_ct _ _ _ _ _ _ _ _) as [r|]; [|discriminate].
    cbn. intros [= <-]. now exists r.
Qed.

End Penalties.

(** C9.  Whenever [get_max_v_pen] called with [w_pen=1] and the same options
    returns a bound [r], [get_max_w_pen] returns [r / v_pen] for a positive
    [v_pen], and that value times [v_pen] is [r] (in exact arithmetic); a
    failure of [get_max_v_pen] is the failure of [get_max_w_pen]. *)
Theorem C9_rescaling_invariant
    (GS : GradientStrategies) (X Y : raw_data) (v_pen : Q) (kw : kwargs) :
  0 < v_pen ->
  (forall b,
      call_get_max_v_pen X Y (WScalar 1) kw = Ok b ->
      exists r,
        b = Single r
        /\ get_max_w_pen X Y v_pen kw = Ok (Single (r / v_pen))
        /\ (r / v_pen) * v_pen == r)
  /\ (forall e,
         call_get_max_v_pen X Y (WScalar 1) kw = Raise e ->
         get_max_w_pen X Y v_pen kw = Raise e).
Proof.
  intros Hv. split.
  - intros b Hb.
    assert (Hs : exists r, b = Single r).
    { unfold call_get_max_v_pen in Hb.
      destruct (kw_mem "w_pen" kw); [discriminate|].
      eapply get_max_v_pen_scalar_single; eassumption. }
    destruct Hs as (r & ->). exists r. split; [reflexivity|]. split.
    + unfold get_max_w_pen. rewrite Hb. cbn [bind div_bound].
      destruct (Qeq_bool v_pen 0) eqn:E; [|reflexivity].
      apply Qeq_bool_iff in E. lra.
    + field. lra.
  - intros e He. unfold get_max_w_pen. now rewrite He.
Qed.

(** The bound for [v_pen = 4] on sample data, with strategies that return
    [w_pen + 1]. *)
Lemma C9_witness :
  @get_max_w_pen affine_strategies (Coercible X52) (Coercible X52) 4 []
  = Ok (Single ((1 + 1) / 4))
  /\ ((1 + 1) / 4) * 4 == 1 + 1.
Proof.
  destruct (C9_rescaling_invariant affine_strategies (Coercible X52) (Coercible X52)
              4 [] ltac:(reflexivity)) as [H _].
  destruct (H (Single (1 + 1)) eq_refl) as (r & Hr & Hw & Hmul).
  injection Hr as <-. split; assumption.
Defined.

Lemma Forall2_iff_ext {A B : Type} (P Q : A -> B -> Prop) (l : list A) (l' : list B) :
  (forall a b, P a b <-> Q a b) -> (Forall2 P l l' <-> Forall2 Q l l').
Proof.
  intros H. split; intros F; induction F; constructor; auto; now apply H.
Qed.

Lemma bind_Many (r : result (list Q)) (bs : list Q) :
  (x <- r ;; Ok (Many x)) = Ok (Many bs) <-> r = Ok bs.
Proof.
  destruct r as [x|e]; cbn; split; try discriminate.
  - now intros [= ->].
  - now intros [= ->].
Qed.

Lemma bind_Single (r : result Q) (b : Q) :
  (x <- r ;; Ok (Single x)) = Ok (Single b) <-> r = Ok b.
Proof.
  destruct r as [x|e]; cbn; split; try discriminate.
  - now intros [= ->].
  - now intros [= ->].
Qed.

Lemma except_MemoryError_ok {A : Type} (r : result A) (a : A) :
  except_MemoryError r = Ok a <-> r = Ok a.
Proof. destruct r as [x|[]]; cbn; split; auto; discriminate. Qed.

(** The list returned for an iterable [w_pen] is characterised by the
    separate calls. *)
Lemma get_max_v_pen_iter_Forall2 `{GS : GradientStrategies} (X Y : raw_data)
    (ws : list Q) (X_treat Y_treat : pyarg) (kw : kwargs) (bs : list Q) :
  valid_inputs X Y X_treat Y_treat ->
  (get_max_v_pen X Y (WIter ws) X_treat Y_treat kw = Ok (Many bs)
   <-> Forall2 (fun w b =>
                  get_max_v_pen X Y (WScalar w) X_treat Y_treat kw = Ok (Single b))
         ws bs).
Proof.
  intros (Xm & Ym & Hqc & Htreat).
  unfold get_max_v_pen. rewrite Hqc. cbn [bind].
  destruct X_treat as [|Xt|s].
  - destruct (kw_mem "grad_splits" kw).
    + rewrite bind_Many, mapM_Forall2.
      apply Forall2_iff_ext. intros w b. now rewrite bind_Single.
    + rewrite bind_Many, except_MemoryError_ok, mapM_Forall2.
      apply Forall2_iff_ext. intros w b.
      now rewrite bind_Single, except_MemoryError_ok.
  - destruct Htreat as [Hnone|(Xt' & Yt' & Ht)]; [discriminate|].
    rewrite Ht. cbn [bind].
    rewrite bind_Many, mapM_Forall2.
    apply Forall2_iff_ext. intros w b. now rewrite bind_Single.
  - destruct Htreat as [Hnone|(Xt' & Yt' & Ht)]; [discriminate|].
    cbn in Ht. discriminate.
Qed.

Lemma Forall2_nth_error {A B : Type} (P : A -> B -> Prop) (l : list A) (l' : list B) :
  Forall2 P l l' ->
  length l' = length l
  /\ forall i a, nth_error l i = Some a -> exists b, nth_error l' i = Some b /\ P a b.
Proof.
  induction 1 as [|a b l l' Hab F [Hlen Hn]].
  - split; [reflexivity|]. intros [|i] a Hi; discriminate.
  - split; [cbn; now rewrite Hlen|].
    intros [|i] a' Hi; cbn in *.
    + injection Hi as <-. now exists b.
    + now apply Hn.
Qed.

(** C10.  For inputs that pass the parameter checks, [get_max_v_pen] with an
    iterable [w_pen] returns the list [bs] exactly when [bs] lists, position
    by position, the bounds that the separate calls with the single values
    [w_pen[i]] return; a returned list has the length of [w_pen] and its
    [i]-th entry is the bound of the separate call with [w_pen[i]].  The
    statement does not depend on the branch taken (held-out-treated,
    cross-fold, leave-one-out). *)
Theorem C10_iterable_w_pen_elementwise
    (GS : GradientStrategies) (X Y : raw_data) (ws : list Q)
    (X_treat Y_treat : pyarg) (kw : kwargs) (bs : list Q) :
  valid_inputs X Y X_treat Y_treat ->
  (get_max_v_pen X Y (WIter ws) X_treat Y_treat kw = Ok (Many bs)
   <-> Forall2 (fun w b =>
                  get_max_v_pen X Y (WScalar w) X_treat Y_treat kw = Ok (Single b))
         ws bs)
  /\ (get_max_v_pen X Y (WIter ws) X_treat Y_treat kw = Ok (Many bs) ->
      length bs = length ws
      /\ forall i w, nth_error ws i = Some w ->
           exists b, nth_error bs i = Some b
                     /\ get_max_v_pen X Y (WScalar w) X_treat Y_treat kw
                        = Ok (Single b)).
Proof.
  intros Hv. split; [now apply get_max_v_pen_iter_Forall2|].
  intros H. apply get_max_v_pen_iter_Forall2 in H; [|exact Hv].
  now apply Forall2_nth_error in H.
Qed.

(** The three branches on sample data, with strategies that return
    [w_pen + 1] (leave-one-out), [w_pen + 2] (cross-fold) and [w_pen + 3]
    (held-out-treated). *)
Lemma C10_witness :
  @get_max_v_pen affine_strategies (Coercible X52) (Coercible X52) (WIter [1; 2; 3])
    ArgNone ArgNone [] = Ok (Many [1 + 1; 2 + 1; 3 + 1])
  /\ @get_max_v_pen affine_strategies (Coercible X52) (Coercible X52) (WIter [1; 2; 3])
       ArgNone ArgNone [("grad_splits"%string, ArgOther "5")]
     = Ok (Many [1 + 2; 2 + 2; 3 + 2])
  /\ @get_max_v_pen affine_strategies (Coercible X52) (Coercible X52) (WIter [1; 2; 3])
       (ArgMatrix X52) (ArgMatrix X52) []
     = Ok (Many [1 + 3; 2 + 3; 3 + 3]).
Proof.
  split; [|split].
  - apply (C10_iterable_w_pen_elementwise affine_strategies (Coercible X52)
             (Coercible X52) [1; 2; 3] ArgNone ArgNone [] [1 + 1; 2 + 1; 3 + 1]).
    + exists X52, X52. split; [reflexivity|now left].
    + repeat constructor.
  - apply (C10_iterable_w_pen_elementwise affine_strategies (Coercible X52)
             (Coercible X52) [1; 2; 3] ArgNone ArgNone
             [("grad_splits"%string, ArgOther "5")] [1 + 2; 2 + 2; 3 + 2]).
    + exists X52, X52. split; [reflexivity|now left].
    + repeat constructor.
  - apply (C10_iterable_w_pen_elementwise affine_strategies (Coercible X52)
             (Coercible X52) [1; 2; 3] (ArgMatrix X52) (ArgMatrix X52) []
             [1 + 3; 2 + 3; 3 + 3]).
    + exists X52, X52. split; [reflexivity|].
      right. exists X52, X52. reflexivity.
    + repeat constructor.
Defined.

(** * Further properties of the code *)

(** ** The combination count [_ncr] *)

(** X1.  For [0 <= r <= n] the helper [_ncr] returns the binomial coefficient
    C(n, r), which is at least 1; for [r > n], where no combination exists,
    it returns 1 and not 0. *)
Theorem X1_ncr_binomial_or_one (n r : nat) :
  ((r <= n)%nat ->
   _ncr (Z.of_nat n) (Z.of_nat r) = Z.of_nat (binom n r)
   /\ (1 <= _ncr (Z.of_nat n) (Z.of_nat r))%Z)
  /\ ((n < r)%nat ->
      _ncr (Z.of_nat n) (Z.of_nat r) = 1%Z /\ binom n r = 0%nat).
Proof.
  split.
  - intros H. split; [now apply ncr_binom|apply ncr_pos].
  - intros H. split; [now apply ncr_degenerate|now apply binom_gt].
Qed.

Lemma X1_witness :
  (_ncr 20 3 = 1140%Z /\ (1 <= _ncr 20 3)%Z) /\ (_ncr 3 5 = 1%Z /\ binom 3 5 = 0%nat).
Proof.
  split.
  - apply (X1_ncr_binomial_or_one 20 3). lia.
  - apply (X1_ncr_binomial_or_one 3 5). lia.
Defined.

(** ** Sums and means *)

Lemma fold_left_Qplus_acc (l : vector) (a : Q) :
  fold_left Qplus l a == a + Qsum l.
Proof.
  unfold Qsum. revert a. induction l as [|x l IH]; intros a; cbn [fold_left].
  - ring.
  - rewrite IH, (IH (0 + x)). ring.
Qed.

Lemma Qsum_cons (x : Q) (l : vector) : Qsum (x :: l) == x + Qsum l.
Proof.
  unfold Qsum at 1. cbn [fold_left]. rewrite fold_left_Qplus_acc. ring.
Qed.

Lemma Qsum_bounds (lo hi : Q) (l : vector) :
  Forall (fun x => lo <= x /\ x <= hi) l ->
  lo * inject_Z (Z.of_nat (length l)) <= Qsum l
  /\ Qsum l <= hi * inject_Z (Z.of_nat (length l)).
Proof.
  induction 1 as [|x l [Hlo Hhi] _ [IHlo IHhi]].
  - cbn. split; ring_simplify; apply Qle_refl.
  - rewrite Qsum_cons. cbn [length]. rewrite Nat2Z.inj_succ. unfold Z.succ.
    rewrite inject_Z_plus. split; ring_simplify; lra.
Qed.

Lemma Qsum_nonneg (l : vector) : Forall (fun x => 0 <= x) l -> 0 <= Qsum l.
Proof.
  induction 1 as [|x l Hx _ IH].
  - apply Qle_refl.
  - rewrite Qsum_cons. lra.
Qed.

Lemma inject_length_pos {A : Type} (l : list A) :
  l <> [] -> 0 < inject_Z (Z.of_nat (length l)).
Proof.
  intros H. destruct l as [|x l]; [contradiction|].
  change 0 with (inject_Z 0). rewrite <- Zlt_Qlt. cbn [length]. lia.
Qed.

Lemma np_mean_bounds (lo hi : Q) (l : vector) :
  l <> [] -> Forall (fun x => lo <= x /\ x <= hi) l ->
  lo <= np_mean l /\ np_mean l <= hi.
Proof.
  intros Hne Hl. change (np_mean l) with (Qmean l). unfold Qmean.
  pose proof (inject_length_pos l Hne) as Hpos.
  destruct (Qsum_bounds lo hi l Hl) as [H1 H2].
  split.
  - apply Qle_shift_div_l; [exact Hpos|exact H1].
  - apply Qle_shift_div_r; [exact Hpos|exact H2].
Qed.

Lemma np_mean_nonneg (l : vector) : Forall (fun x => 0 <= x) l -> 0 <= np_mean l.
Proof.
  intros H. change (np_mean l) with (Qmean l). unfold Qmean.
  destruct l as [|x l].
  - cbn. unfold Qdiv, Qmult, Qle. cbn. lia.
  - apply Qle_shift_div_l.
    + apply inject_length_pos. discriminate.
    + ring_simplify. now apply Qsum_nonneg.
Qed.

(** Rounding keeps zero and the sign. *)
Lemma py_round_nonneg (x : Q) : 0 <= x -> (0 <= py_round x)%Z.
Proof.
  intros H. pose proof (Qfloor_resp_le 0 x H) as Hf. change (Qfloor 0) with 0%Z in Hf.
  unfold py_round.
  destruct (Qcompare (x - inject_Z (Qfloor x)) (1 # 2)); [destruct (Z.even _)| |]; lia.
Qed.

Lemma fl_pos_nonneg (x : Q) : 0 <= x -> 0 <= fl_pos x.
Proof.
  intros H. unfold fl_pos. rewrite Qred_correct.
  apply Qmult_le_0_compat.
  - change 0 with (inject_Z 0). rewrite <- Zle_Qle. apply py_round_nonneg.
    apply Qmult_le_0_compat; [exact H|]. apply Qpower_0_le. discriminate.
  - apply Qpower_0_le. discriminate.
Qed.

Lemma fl_nonneg (x : Q) : 0 <= x -> 0 <= fl x.
Proof.
  intros H. unfold fl.
  destruct (Qcompare (Qred x) 0) eqn:C.
  - apply Qle_refl.
  - apply Qlt_alt in C. rewrite Qred_correct in C. lra.
  - apply fl_pos_nonneg. rewrite Qred_correct. exact H.
Qed.

Lemma fl_zero (x : Q) : x == 0 -> fl x == 0.
Proof.
  intros H. unfold fl. rewrite (Qred_complete x 0 H). reflexivity.
Qed.

Lemma np_square_nonneg (x : Q) : 0 <= np_square x.
Proof. unfold np_square. apply fl_nonneg. nra. Qed.

Lemma np_square_zero (x : Q) : x == 0 -> np_square x == 0.
Proof. intros H. unfold np_square. apply fl_zero. rewrite H. reflexivity. Qed.

Lemma py_round_ge_1 (x : Q) : 1 <= x -> (1 <= py_round x)%Z.
Proof.
  intros H. pose proof (Qfloor_resp_le 1 x H) as Hf. change (Qfloor 1) with 1%Z in Hf.
  unfold py_round.
  destruct (Qcompare (x - inject_Z (Qfloor x)) (1 # 2)); [destruct (Z.even _)| |]; lia.
Qed.

Lemma Qpower_2_nat (n : Z) : (0 <= n)%Z -> 2 ^ n == inject_Z (2 ^ n).
Proof.
  intros H. change 2 with (inject_Z 2) at 1. symmetry. now apply Zpower_Qpower.
Qed.

(** [2 ^ ilog2 x <= x] for a positive [x]. *)
Lemma ilog2_le (x : Q) : 0 < x -> 2 ^ ilog2 x <= x.
Proof.
  intros Hx. unfold ilog2.
  set (a := Qnum x). set (b := Zpos (Qden x)).
  destruct (Qle_bool (2 ^ (Z.log2 a - Z.log2 b)) x) eqn:E.
  - now apply Qle_bool_iff.
  - assert (Ha : (0 < a)%Z).
    { unfold a. unfold Qlt in Hx. cbn in Hx. lia. }
    pose proof (Z.log2_spec a Ha) as [Hla _].
    pose proof (Z.log2_spec b ltac:(unfold b; lia)) as [_ Hlb].
    pose proof (Z.log2_nonneg a) as Hna. pose proof (Z.log2_nonneg b) as Hnb.
    replace (Z.log2 a - Z.log2 b - 1)%Z with (Z.log2 a - (Z.log2 b + 1))%Z by lia.
    rewrite Qpower_minus by discriminate.
    rewrite !Qpower_2_nat by lia.
    assert (Hb2 : 0 < inject_Z (2 ^ (Z.log2 b + 1))).
    { change 0 with (inject_Z 0). rewrite <- Zlt_Qlt. lia. }
    apply Qle_shift_div_r; [exact Hb2|].
    assert (Hxe : x == inject_Z a / inject_Z b).
    { unfold a, b. rewrite <- Qmake_Qdiv. destruct x; reflexivity. }
    rewrite Hxe.
    assert (Hbp : 0 < inject_Z b).
    { change 0 with (inject_Z 0). rewrite <- Zlt_Qlt. unfold b. lia. }
    unfold Qdiv. rewrite <- Qmult_assoc, (Qmult_comm (/ inject_Z b)), Qmult_assoc.
    apply Qle_shift_div_l; [exact Hbp|].
    rewrite <- !inject_Z_mult, <- Zle_Qle. nia.
Qed.

(** A real number of at least [2^-1074], the smallest positive float, is not
    rounded to zero. *)
Lemma fl_pos_positive (x : Q) : 1 <= x * 2 ^ 1074 -> 0 < fl_pos x.
Proof.
  intros H.
  assert (Hp : 0 < 2 ^ 1074) by (apply Qpower_0_lt; reflexivity).
  assert (Hx : 0 < x).
  { destruct (Qlt_le_dec 0 x) as [Hlt|Hle]; [exact Hlt|].
    exfalso. assert (x * 2 ^ 1074 <= 0) by nra. lra. }
  unfold fl_pos. rewrite Qred_correct.
  set (e := Z.max (ilog2 x) (-1022)).
  assert (Hm : 1 <= x * 2 ^ (52 - e)).
  { destruct (Z.max_spec (ilog2 x) (-1022)) as [[_ He]|[_ He]]; fold e in He; rewrite He.
    - exact H.
    - pose proof (ilog2_le x Hx) as Hl.
      rewrite Qpower_minus by discriminate.
      assert (Hq : 0 < 2 ^ ilog2 x) by (apply Qpower_0_lt; reflexivity).
      assert (H52 : 1 <= 2 ^ 52) by (vm_compute; discriminate).
      unfold Qdiv. rewrite (Qmult_comm (2 ^ 52)), Qmult_assoc.
      assert (Hr : 1 <= x * / 2 ^ ilog2 x).
      { apply Qle_shift_div_l; [exact Hq|]. lra. }
      nra. }
  apply py_round_ge_1 in Hm.
  apply Qmult_lt_0_compat.
  - change 0 with (inject_Z 0). rewrite <- Zlt_Qlt. lia.
  - apply Qpower_0_lt. reflexivity.
Qed.

(** For up to [2^1000] combinations the float [2 / n_pl] is not zero. *)
Lemma fl_quotient_nonzero (n : Z) :
  (1 <= n <= 2 ^ 1000)%Z -> ~ fl (2 / inject_Z n) == 0.
Proof.
  intros [H1 H2].
  assert (Hn : 0 < inject_Z n) by (change 0 with (inject_Z 0); rewrite <- Zlt_Qlt; lia).
  assert (Hx : 0 < 2 / inject_Z n).
  { apply Qlt_shift_div_l; [exact Hn|]. lra. }
  unfold fl.
  rewrite <- (Qred_correct (2 / inject_Z n)) in Hx.
  destruct (Qcompare (Qred (2 / inject_Z n)) 0) eqn:C.
  - apply Qeq_alt in C. lra.
  - apply Qlt_alt in C. lra.
  - intros Hz.
    assert (Hpos : 0 < fl_pos (Qred (2 / inject_Z n))); [|lra].
    apply fl_pos_positive. rewrite Qred_correct.
    assert (Hb : inject_Z n <= inject_Z (2 ^ 1000)) by (rewrite <- Zle_Qle; exact H2).
    assert (E : 2 ^ 1074 == inject_Z (2 ^ 1000) * 2 ^ 74).
    { vm_compute. reflexivity. }
    rewrite E.
    assert (H74 : 1 <= 2 ^ 74) by (vm_compute; discriminate).
    unfold Qdiv.
    assert (Hr : 1 <= / inject_Z n * inject_Z (2 ^ 1000)).
    { rewrite Qmult_comm. apply Qle_shift_div_l; [exact Hn|]. lra. }
    assert (Hi : 0 < / inject_Z n) by (apply Qinv_lt_0_compat; exact Hn).
    set (u := / inject_Z n) in *. set (v := inject_Z (2 ^ 1000)) in *.
    set (t := 2 ^ 74) in *. clearbody u v t.
    nra.
Qed.

(** ** [simulation_eval] *)

Lemma elementwise_same {A B C : Type} (f : A -> B -> C) (a : list A) (b : list B) :
  length a = length b ->
  elementwise f a b = Ok (map (fun ab => f (fst ab) (snd ab)) (combine a b)).
Proof. intros H. unfold elementwise. rewrite H, Nat.eqb_refl. reflexivity. Qed.

Lemma simulation_eval_same (effects CI_lowers CI_uppers : vector) (true_effect : Q) :
  length CI_lowers = length effects -> length CI_uppers = length effects ->
  simulation_eval effects CI_lowers CI_uppers true_effect
  = Ok (np_mean (map (fun e => np_square (e - true_effect)) effects),
        np_mean (map (fun b => inject_Z (int_of_bool b))
                   (map (fun ab => andb (fst ab) (snd ab))
                      (combine
                         (map (fun ab => Qge_bool (fst ab) (snd ab))
                            (combine effects CI_lowers))
                         (map (fun ab => Qle_bool (fst ab) (snd ab))
                            (combine effects CI_uppers))))),
        np_mean (map (fun ab => fst ab - snd ab) (combine CI_uppers CI_lowers))).
Proof.
  intros Hl Hu. unfold simulation_eval, broadcast_ge, broadcast_le, broadcast_and,
    broadcast_sub.
  rewrite (elementwise_same Qge_bool) by congruence. cbn [bind].
  rewrite (elementwise_same Qle_bool) by congruence. cbn [bind].
  rewrite (elementwise_same andb) by (rewrite !length_map_combine; congruence).
  cbn [bind].
  rewrite (elementwise_same Qminus) by congruence. reflexivity.
Qed.

Lemma covered_nth (effects CI_lowers CI_uppers : vector) (i : nat) :
  length CI_lowers = length effects -> length CI_uppers = length effects ->
  (i < length effects)%nat ->
  nth i (map (fun ab => andb (fst ab) (snd ab))
           (combine
              (map (fun ab => Qge_bool (fst ab) (snd ab)) (combine effects CI_lowers))
              (map (fun ab => Qle_bool (fst ab) (snd ab)) (combine effects CI_uppers))))
    false
  = (Qge_bool (nth i effects 0) (nth i CI_lowers 0)
     && Qle_bool (nth i effects 0) (nth i CI_uppers 0))%bool.
Proof.
  intros Hl Hu Hi.
  rewrite (nth_map_combine andb _ _ i false false false).
  - rewrite (nth_map_combine Qge_bool _ _ i 0 0 false) by congruence.
    rewrite (nth_map_combine Qle_bool _ _ i 0 0 false) by congruence.
    reflexivity.
  - rewrite length_map_combine; congruence.
  - rewrite !length_map_combine; congruence.
Qed.

(** X2.  On arrays of one common, non-zero length [simulation_eval] returns
    a coverage between 0 and 1; the coverage is 1 when every effect lies in
    its interval (bounds included) and 0 when none does. *)
Theorem X2_simulation_eval_coverage
    (effects CI_lowers CI_uppers : vector) (true_effect : Q) :
  effects <> [] ->
  length CI_lowers = length effects -> length CI_uppers = length effects ->
  exists te_mse cov ci_len,
    simulation_eval effects CI_lowers CI_uppers true_effect = Ok (te_mse, cov, ci_len)
    /\ 0 <= cov /\ cov <= 1
    /\ ((forall i, (i < length effects)%nat ->
           nth i CI_lowers 0 <= nth i effects 0
           /\ nth i effects 0 <= nth i CI_uppers 0) -> cov == 1)
    /\ ((forall i, (i < length effects)%nat ->
           ~ (nth i CI_lowers 0 <= nth i effects 0
              /\ nth i effects 0 <= nth i CI_uppers 0)) -> cov == 0).
Proof.
  intros Hne Hl Hu.
  rewrite simulation_eval_same by assumption.
  eexists. eexists. eexists. split; [reflexivity|].
  set (both := map (fun ab => andb (fst ab) (snd ab)) _).
  assert (Hlen : length both = length effects).
  { unfold both. rewrite !length_map_combine; try congruence.
    rewrite !length_map_combine; congruence. }
  assert (Hnth : forall i, (i < length effects)%nat ->
             nth i both false
             = (Qge_bool (nth i effects 0) (nth i CI_lowers 0)
                && Qle_bool (nth i effects 0) (nth i CI_uppers 0))%bool).
  { intros i Hi. unfold both. now apply covered_nth. }
  clearbody both.
  set (ind := map (fun b => inject_Z (int_of_bool b)) both).
  assert (Hind : ind <> []).
  { unfold ind. destruct both; [|discriminate].
    destruct effects; [contradiction|discriminate]. }
  assert (Hgen : forall lo hi,
             (forall i, (i < length effects)%nat ->
                lo <= inject_Z (int_of_bool (nth i both false))
                /\ inject_Z (int_of_bool (nth i both false)) <= hi) ->
             lo <= np_mean ind /\ np_mean ind <= hi).
  { intros lo hi H. apply np_mean_bounds; [exact Hind|].
    unfold ind. apply Forall_forall. intros x Hx.
    apply in_map_iff in Hx. destruct Hx as (b & <- & Hb).
    destruct (In_nth _ _ false Hb) as (i & Hi & <-).
    apply H. lia. }
  split; [|split; [|split]].
  - apply (Hgen 0 1). intros i Hi.
    destruct (nth i both false); cbn; unfold Qle; cbn; lia.
  - apply (Hgen 0 1). intros i Hi.
    destruct (nth i both false); cbn; unfold Qle; cbn; lia.
  - intros Hall. apply Qle_antisym; apply (Hgen 1 1); intros i Hi;
      rewrite (Hnth i Hi); destruct (Hall i Hi) as [H1 H2];
      apply Qle_bool_iff in H1; apply Qle_bool_iff in H2;
      unfold Qge_bool; rewrite H1, H2; cbn; unfold Qle; cbn; lia.
  - intros Hnone. apply Qle_antisym; apply (Hgen 0 0); intros i Hi;
      rewrite (Hnth i Hi); unfold Qge_bool;
      destruct (Qle_bool (nth i CI_lowers 0) (nth i effects 0)) eqn:E1;
      destruct (Qle_bool (nth i effects 0) (nth i CI_uppers 0)) eqn:E2;
      cbn; try (unfold Qle; cbn; lia);
      exfalso; apply (Hnone i Hi); split; now apply Qle_bool_iff.
Qed.

Lemma X2_witness :
  exists te_mse cov ci_len,
    simulation_eval [1; 2] [0; 0] [3; 3] 0 = Ok (te_mse, cov, ci_len)
    /\ 0 <= cov /\ cov <= 1.
Proof.
  destruct (X2_simulation_eval_coverage [1; 2] [0; 0] [3; 3] 0
              ltac:(discriminate) eq_refl eq_refl)
    as (m & c & l & H & H0 & H1 & _).
  exists m, c, l. auto.
Defined.

(** X3.  On non-empty arrays of one common length [simulation_eval]
    returns a non-negative mean squared error, which is 0 when every effect
    equals [true_effect], and a non-negative mean interval length when every
    lower bound is at most its upper bound; for bounds of another length
    greater than one the comparison cannot be broadcast and a [ValueError] is
    raised.  (On empty arrays numpy's means are [nan]; they are left out.) *)
Theorem X3_simulation_eval_mse_and_length
    (effects CI_lowers CI_uppers : vector) (true_effect : Q) :
  (effects <> [] ->
   length CI_lowers = length effects -> length CI_uppers = length effects ->
   exists te_mse cov ci_len,
     simulation_eval effects CI_lowers CI_uppers true_effect = Ok (te_mse, cov, ci_len)
     /\ 0 <= te_mse
     /\ (Forall (fun e => e == true_effect) effects -> te_mse == 0)
     /\ ((forall i, (i < length effects)%nat -> nth i CI_lowers 0 <= nth i CI_uppers 0)
         -> 0 <= ci_len))
  /\ (length CI_lowers <> length effects -> (1 < length CI_lowers)%nat ->
      (1 < length effects)%nat ->
      simulation_eval effects CI_lowers CI_uppers true_effect
      = Raise (ValueError "operands could not be broadcast together")).
Proof.
  split.
  - intros Hne Hl Hu. rewrite simulation_eval_same by assumption.
    eexists. eexists. eexists. split; [reflexivity|]. split; [|split].
    + apply np_mean_nonneg. apply Forall_forall. intros x Hx.
      apply in_map_iff in Hx. destruct Hx as (e & <- & _). apply np_square_nonneg.
    + intros Hall. apply Qle_antisym.
      * apply (np_mean_bounds 0 0).
        -- destruct effects; [contradiction|discriminate].
        -- apply Forall_forall. intros x Hx.
           apply in_map_iff in Hx. destruct Hx as (e & <- & He).
           rewrite Forall_forall in Hall. specialize (Hall e He).
           rewrite np_square_zero by lra. split; apply Qle_refl.
      * apply np_mean_nonneg. apply Forall_forall. intros x Hx.
        apply in_map_iff in Hx. destruct Hx as (e & <- & _).
        apply np_square_nonneg.
    + intros Hle. apply np_mean_nonneg. apply Forall_forall. intros x Hx.
      destruct (In_nth _ _ 0 Hx) as (i & Hi & <-).
      rewrite length_map_combine in Hi by congruence.
      rewrite (nth_map_combine Qminus _ _ i 0 0 0) by congruence.
      specialize (Hle i ltac:(lia)). lra.
  - intros Hne H1 H2. unfold simulation_eval, broadcast_ge, elementwise.
    destruct (Nat.eqb_spec (length effects) (length CI_lowers)) as [E|E];
      [congruence|].
    destruct effects as [|e1 [|e2 es]]; cbn in H2; try lia.
    destruct CI_lowers as [|l1 [|l2 ls]]; cbn in H1; try lia.
    reflexivity.
Qed.

Lemma X3_witness :
  (exists te_mse cov ci_len,
      simulation_eval [1; 1] [0; 0] [3; 3] 1 = Ok (te_mse, cov, ci_len)
      /\ te_mse == 0 /\ 0 <= ci_len)
  /\ simulation_eval [1; 1] [0; 0; 0] [3; 3] 1
     = Raise (ValueError "operands could not be broadcast together").
Proof.
  destruct (X3_simulation_eval_mse_and_length [1; 1] [0; 0] [3; 3] 1) as [H _].
  destruct (X3_simulation_eval_mse_and_length [1; 1] [0; 0; 0] [3; 3] 1) as [_ H'].
  split.
  - destruct (H ltac:(discriminate) eq_refl eq_refl) as (m & c & l & Hr & _ & Hz & Hl).
    exists m, c, l. split; [exact Hr|]. split.
    + apply Hz. repeat constructor; reflexivity.
    + apply Hl. intros [|[|i]] Hi; cbn in *; try lia; unfold Qle; cbn; lia.
  - apply H'; cbn; lia.
Defined.

(** ** Membership in a single interval *)

Lemma Qlt_negb_Qle_bool (a b : Q) : negb (Qle_bool b a) = true <-> a < b.
Proof.
  destruct (Qle_bool b a) eqn:E; cbn; split; try discriminate; auto.
  - intros H. apply Qle_bool_iff in E. lra.
  - intros _. apply Qnot_le_lt. intros H. apply Qle_bool_iff in H. congruence.
Qed.

(** X4.  For an interval whose two bounds are numpy scalars, as are the
    bounds of the average and of the RMS interval that the engine returns,
    the test [x in ci] never raises and is true exactly when
    [ci_low < x < ci_high], bounds excluded; [EstResultCI] gives the same
    answer. *)
Theorem X4_scalar_interval_membership
    (low high lv x : Q) (eff pv : ndvalue) (pl : option placebo_store) :
  exists b,
    in_CI_int x (mk_CI_int (Scalar low) (Scalar high) lv) = Ok b
    /\ in_EstResultCI x
         (mk_EstResultCI eff pv (Some (mk_CI_int (Scalar low) (Scalar high) lv)) pl)
       = Ok b
    /\ (b = true <-> low < x /\ x < high)
    /\ (x == low \/ x == high -> b = false).
Proof.
  unfold in_EstResultCI, EstResultCI__contains__, in_CI_int, CI_int__contains__.
  cbn.
  destruct (Qle_bool x low) eqn:E1; cbn.
  - exists false. repeat split; try discriminate.
    intros [H _]. apply Qlt_negb_Qle_bool in H. rewrite E1 in H. discriminate.
  - destruct (Qle_bool high x) eqn:E2; cbn.
    + exists false. repeat split; try discriminate.
      intros [_ H]. apply Qlt_negb_Qle_bool in H. rewrite E2 in H. discriminate.
    + exists true. repeat split; try reflexivity;
        try (apply Qlt_negb_Qle_bool; rewrite ?E1, ?E2; reflexivity).
      intros [H|H]; exfalso.
      * assert (Hle : x <= low) by (rewrite H; apply Qle_refl).
        apply Qle_bool_iff in Hle. congruence.
      * assert (Hle : high <= x) by (rewrite H; apply Qle_refl).
        apply Qle_bool_iff in Hle. congruence.
Qed.

(** ** The default weight penalty *)

Lemma np_var_nonneg (l : vector) : 0 <= np_var l.
Proof.
  unfold np_var. apply np_mean_nonneg. apply Forall_forall. intros y Hy.
  apply in_map_iff in Hy. destruct Hy as (z & <- & _). apply np_square_nonneg.
Qed.

(** X5.  For a matrix with at least one row and one column, and entries in
    range, the guessed weight penalty [w_pen_guestimate X] is not negative
    (without rows numpy's variance is [nan]); the guess is the value
    [get_max_v_pen] uses when [w_pen] is omitted. *)
Theorem X5_w_pen_guestimate
    (GS : GradientStrategies) (X : ndarray2) :
  (rows X <> [] -> (0 < shape1 X)%nat -> finite_range X -> 0 <= w_pen_guestimate X)
  /\ (forall Xr Yr Ym X_treat Y_treat kw,
         parameter_qc Xr Yr X_treat Y_treat = Ok (X, Ym) ->
         get_max_v_pen Xr Yr WNone X_treat Y_treat kw
         = get_max_v_pen Xr Yr (WScalar (w_pen_guestimate X)) X_treat Y_treat kw).
Proof.
  split.
  - intros _ _ _. unfold w_pen_guestimate. apply np_mean_nonneg. apply Forall_forall.
    intros v Hv. apply in_map_iff in Hv. destruct Hv as (t & <- & _).
    apply np_var_nonneg.
  - intros Xr Yr Ym X_treat Y_treat kw Hqc.
    unfold get_max_v_pen. rewrite Hqc. reflexivity.
Qed.

Lemma X5_witness :
  0 <= w_pen_guestimate X52
  /\ @get_max_v_pen affine_strategies (Coercible X52) (Coercible X52) WNone
       ArgNone ArgNone []
     = @get_max_v_pen affine_strategies (Coercible X52) (Coercible X52)
         (WScalar (w_pen_guestimate X52)) ArgNone ArgNone [].
Proof.
  split.
  - apply (X5_w_pen_guestimate affine_strategies X52); [discriminate|cbn; lia|].
    repeat constructor; vm_compute; discriminate.
  - destruct (X5_w_pen_guestimate affine_strategies X52) as (_ & H).
    apply (H (Coercible X52) (Coercible X52) X52 ArgNone ArgNone []). reflexivity.
Defined.

(** ** The parameter checks of [get_max_v_pen] *)

(** X6.  [get_max_v_pen] rejects its arguments before any strategy is
    called, in this order: an [X] or [Y] that cannot be made a matrix; a
    treated pair of which exactly one is [None]; an [X], then a [Y], without
    columns; different row counts of [X] and [Y], reported with both counts.
    Each is a [ValueError] naming the cause, whatever [w_pen], the options
    and the strategies are. *)
Theorem X6_parameter_errors
    (GS : GradientStrategies) (Xm Ym : ndarray2) (Y : raw_data) (w_pen : w_pen_arg)
    (X_treat Y_treat : pyarg) (kw : kwargs) :
  let is_none a := match a with ArgNone => true | _ => false end in
  get_max_v_pen NotCoercible Y w_pen X_treat Y_treat kw
  = Raise (ValueError "X is not coercible to a matrix")
  /\ get_max_v_pen (Coercible Xm) NotCoercible w_pen X_treat Y_treat kw
     = Raise (ValueError "Y is not coercible to a matrix")
  /\ (is_none X_treat <> is_none Y_treat ->
      get_max_v_pen (Coercible Xm) (Coercible Ym) w_pen X_treat Y_treat kw
      = Raise (ValueError
                 "parameters `X_treat` and `Y_treat` must both be Matrices or None"))
  /\ (is_none X_treat = is_none Y_treat ->
      (shape1 Xm = 0%nat ->
       get_max_v_pen (Coercible Xm) (Coercible Ym) w_pen X_treat Y_treat kw
       = Raise (ValueError "X.shape[1] == 0"))
      /\ (shape1 Xm <> 0%nat -> shape1 Ym = 0%nat ->
          get_max_v_pen (Coercible Xm) (Coercible Ym) w_pen X_treat Y_treat kw
          = Raise (ValueError "Y.shape[1] == 0"))
      /\ (shape1 Xm <> 0%nat -> shape1 Ym <> 0%nat -> shape0 Xm <> shape0 Ym ->
          get_max_v_pen (Coercible Xm) (Coercible Ym) w_pen X_treat Y_treat kw
          = Raise (ValueError ("X and Y have different number of rows ("
                               ++ str_of_nat (shape0 Xm) ++ " and "
                               ++ str_of_nat (shape0 Ym) ++ ")")%string))).
Proof.
  cbv zeta. split; [reflexivity|]. split; [reflexivity|]. split.
  - intros H. unfold get_max_v_pen, parameter_qc. cbn [bind].
    destruct (Bool.eqb _ _) eqn:E; [|reflexivity].
    apply Bool.eqb_prop in E. contradiction.
  - intros H. unfold get_max_v_pen, parameter_qc. cbn [bind].
    rewrite H, Bool.eqb_reflx. cbn [negb].
    split; [|split].
    + intros ->. reflexivity.
    + intros H1 ->. destruct (Nat.eqb_spec (shape1 Xm) 0); [contradiction|reflexivity].
    + intros H1 H2 H3.
      destruct (Nat.eqb_spec (shape1 Xm) 0); [contradiction|].
      destruct (Nat.eqb_spec (shape1 Ym) 0); [contradiction|].
      destruct (Nat.eqb_spec (shape0 Xm) (shape0 Ym)); [contradiction|reflexivity].
Qed.

(** The literal cases: [X] of shape (5,0) with [Y] of shape (5,2); [X] of
    shape (5,2) with [Y] of shape (4,2); [X_treat] without [Y_treat]. *)
Lemma X6_witness :
  @get_max_v_pen affine_strategies (Coercible (mk_ndarray2 5 0 [[]; []; []; []; []]))
    (Coercible X52) WNone ArgNone ArgNone []
  = Raise (ValueError "X.shape[1] == 0")
  /\ @get_max_v_pen affine_strategies (Coercible X52)
       (Coercible (mk_ndarray2 4 2 [[1; 2]; [2; 3]; [3; 5]; [4; 7]])) WNone
       ArgNone ArgNone []
     = Raise (ValueError "X and Y have different number of rows (5 and 4)")
  /\ @get_max_v_pen affine_strategies (Coercible X52) (Coercible X52) WNone
       (ArgMatrix X52) ArgNone []
     = Raise (ValueError
                "parameters `X_treat` and `Y_treat` must both be Matrices or None").
Proof.
  split; [|split].
  - destruct (X6_parameter_errors affine_strategies
                (mk_ndarray2 5 0 [[]; []; []; []; []]) X52 (Coercible X52) WNone
                ArgNone ArgNone []) as (_ & _ & _ & H).
    destruct (H eq_refl) as (H1 & _). apply H1. reflexivity.
  - destruct (X6_parameter_errors affine_strategies X52
                (mk_ndarray2 4 2 [[1; 2]; [2; 3]; [3; 5]; [4; 7]]) (Coercible X52) WNone
                ArgNone ArgNone []) as (_ & _ & _ & H).
    destruct (H eq_refl) as (_ & _ & H3). apply H3; cbn; lia.
  - destruct (X6_parameter_errors affine_strategies X52 X52 (Coercible X52) WNone
                (ArgMatrix X52) ArgNone []) as (_ & _ & H & _).
    apply H. discriminate.
Defined.

(** ** The held-out-treated dispatch *)

(** X7.  With a treated pair that passes its checks and has the column
    counts of [X] and [Y], a call with one [w_pen] is one call of
    [ct_v_matrix] on the stacked matrices (control rows first), with
    [return_max_v_pen=True], and with index sets that split the stacked rows:
    [control_units] are the first [X.shape[0]] row numbers, [treated_units]
    the remaining [X_treat.shape[0]].  A treated [X] of another column count
    is not checked for; it fails in [np.vstack] with a [ValueError]. *)
Theorem X7_held_out_treated_dispatch
    (GS : GradientStrategies) (X Y : raw_data) (Xm Ym Xt Yt : ndarray2) (w : Q)
    (kw : kwargs) :
  parameter_qc X Y (ArgMatrix Xt) (ArgMatrix Yt) = Ok (Xm, Ym) ->
  treat_qc Xm Ym (ArgMatrix Xt) (ArgMatrix Yt) = Ok (Xt, Yt) ->
  (shape1 Xm = shape1 Xt -> shape1 Ym = shape1 Yt ->
   exists Xs Ys control_units treated_units,
     get_max_v_pen X Y (WScalar w) (ArgMatrix Xt) (ArgMatrix Yt) kw
     = (b <- ct_v_matrix Xs Ys w control_units treated_units true _GRADIENT_MESSAGE kw ;;
        Ok (Single b))
     /\ rows Xs = rows Xm ++ rows Xt /\ rows Ys = rows Ym ++ rows Yt
     /\ shape0 Xs = (shape0 Xm + shape0 Xt)%nat /\ shape0 Ys = shape0 Xs
     /\ control_units = seq 0 (shape0 Xm)
     /\ length treated_units = shape0 Xt
     /\ control_units ++ treated_units = seq 0 (shape0 Xs))
  /\ (shape1 Xm <> shape1 Xt ->
      get_max_v_pen X Y (WScalar w) (ArgMatrix Xt) (ArgMatrix Yt) kw
      = Raise (ValueError "all the input array dimensions except for the concatenation axis must match exactly")).
Proof.
  intros Hqc Htq.
  assert (Hrows : shape0 Xm = shape0 Ym /\ shape0 Xt = shape0 Yt).
  { unfold parameter_qc in Hqc. destruct X as [X0|]; [|discriminate].
    destruct Y as [Y0|]; [|discriminate]. cbn in Hqc.
    destruct (shape1 X0 =? 0)%nat; [discriminate|].
    destruct (shape1 Y0 =? 0)%nat; [discriminate|].
    destruct (Nat.eqb_spec (shape0 X0) (shape0 Y0)); [|discriminate].
    injection Hqc as <- <-.
    unfold treat_qc in Htq.
    destruct (shape1 Xt =? 0)%nat; [discriminate|].
    destruct (shape1 Yt =? 0)%nat; [discriminate|].
    destruct (Nat.eqb_spec (shape0 Xt) (shape0 Yt)); [|discriminate].
    auto. }
  destruct Hrows as [HrX HrT].
  split.
  - intros HcX HcY.
    exists (mk_ndarray2 (shape0 Xm + shape0 Xt) (shape1 Xm) (rows Xm ++ rows Xt)),
           (mk_ndarray2 (shape0 Ym + shape0 Yt) (shape1 Ym) (rows Ym ++ rows Yt)),
           (np_arange 0 (shape0 Xm)),
           (np_arange (shape0 Xm) (shape0 Xm + shape0 Xt)).
    split.
    + unfold get_max_v_pen. rewrite Hqc. cbn [bind]. rewrite Htq. cbn [bind].
      unfold call_ct, np_vstack. rewrite HcX, HcY, !Nat.eqb_refl. reflexivity.
    + cbn [rows shape0]. unfold np_arange.
      rewrite Nat.sub_0_r.
      replace (shape0 Xm + shape0 Xt - shape0 Xm)%nat with (shape0 Xt) by lia.
      repeat split; try reflexivity.
      * lia.
      * apply length_seq.
      * now rewrite <- seq_app.
  - intros Hne. unfold get_max_v_pen. rewrite Hqc. cbn [bind]. rewrite Htq. cbn [bind].
    unfold call_ct, np_vstack.
    destruct (Nat.eqb_spec (shape1 Xm) (shape1 Xt)); [contradiction|reflexivity].
Qed.

Lemma X7_witness :
  exists Xs Ys control_units treated_units,
    @get_max_v_pen affine_strategies (Coercible X52) (Coercible X52) (WScalar 2)
      (ArgMatrix control4) (ArgMatrix control4) []
    = Raise (ValueError "all the input array dimensions except for the concatenation axis must match exactly")
    /\ @get_max_v_pen affine_strategies (Coercible X52) (Coercible X52) (WScalar 2)
         (ArgMatrix X52) (ArgMatrix X52) []
       = (b <- @ct_v_matrix affine_strategies Xs Ys 2 control_units treated_units true
                 _GRADIENT_MESSAGE [] ;; Ok (Single b))
    /\ control_units ++ treated_units = seq 0 10.
Proof.
  destruct (X7_held_out_treated_dispatch affine_strategies (Coercible X52)
              (Coercible X52) X52 X52 X52 X52 2 [] eq_refl eq_refl) as [H _].
  destruct (H eq_refl eq_refl) as (Xs & Ys & cu & tu & Hc & _ & _ & Hs & _ & _ & _ & Hp).
  destruct (X7_held_out_treated_dispatch affine_strategies (Coercible X52)
              (Coercible X52) X52 X52 control4 control4 2 [] eq_refl eq_refl)
    as [_ H'].
  exists Xs, Ys, cu, tu. split; [apply H'; cbn; lia|]. split; [exact Hc|].
  rewrite Hp, Hs. reflexivity.
Defined.

(** ** Failures with an iterable [w_pen] *)

Lemma mapM_Raise {A B : Type} (f : A -> result B) (l : list A) (e : exn) :
  mapM f l = Raise e
  <-> exists pre a post,
        l = pre ++ a :: post
        /\ Forall (fun x => exists b, f x = Ok b) pre
        /\ f a = Raise e.
Proof.
  induction l as [|x l IH]; cbn [mapM].
  - split; [discriminate|]. intros (pre & a & post & H & _). destruct pre; discriminate.
  - split.
    + intros H. destruct (f x) as [b|e0] eqn:Ex; cbn [bind] in H.
      * destruct (mapM f l) as [bs|e1] eqn:El; cbn [bind] in H; [discriminate|].
        injection H as ->.
        destruct (proj1 IH eq_refl) as (pre & a & post & -> & Hpre & Ha).
        exists (x :: pre), a, post. repeat split; auto.
        constructor; [now exists b|exact Hpre].
      * injection H as ->. exists [], x, l. repeat split; auto.
    + intros (pre & a & post & H & Hpre & Ha).
      destruct pre as [|y pre]; cbn in H; injection H as -> ->.
      * rewrite Ha. reflexivity.
      * inversion Hpre as [|? ? [b Hb] Hpre']; subst. rewrite Hb. cbn [bind].
        rewrite (proj2 IH (ex_intro _ pre (ex_intro _ a (ex_intro _ post
                             (conj eq_refl (conj Hpre' Ha)))))).
        reflexivity.
Qed.

Lemma except_MemoryError_mapM {A B : Type} (f : A -> result B) (l : list A) :
  except_MemoryError (mapM f l) = mapM (fun x => except_MemoryError (f x)) l.
Proof.
  induction l as [|x l IH]; cbn [mapM]; [reflexivity|].
  destruct (f x) as [b|e]; cbn [bind except_MemoryError].
  - rewrite <- IH. destruct (mapM f l) as [bs|[]]; reflexivity.
  - destruct e; reflexivity.
Qed.

Lemma single_bound_bind (r : result Q) :
  single_bound (b <- r ;; Ok (Single b)) = r.
Proof. destruct r; reflexivity. Qed.

Lemma mapM_ext {A B : Type} (f g : A -> result B) (l : list A) :
  (forall a, f a = g a) -> mapM f l = mapM g l.
Proof.
  intros H. induction l as [|a l IH]; cbn [mapM]; [reflexivity|].
  now rewrite H, IH.
Qed.

(** The call with an iterable [w_pen] is the sequence of the separate
    calls, stopped at the first one that raises. *)
Lemma get_max_v_pen_iter_mapM `{GS : GradientStrategies} (X Y : raw_data)
    (ws : list Q) (X_treat Y_treat : pyarg) (kw : kwargs) :
  valid_inputs X Y X_treat Y_treat ->
  get_max_v_pen X Y (WIter ws) X_treat Y_treat kw
  = (bs <- mapM (fun w => single_bound
                            (get_max_v_pen X Y (WScalar w) X_treat Y_treat kw)) ws ;;
     Ok (Many bs)).
Proof.
  intros (Xm & Ym & Hqc & Htreat).
  destruct X_treat as [|Xt|s].
  - destruct (kw_mem "grad_splits" kw) eqn:Hkw.
    + rewrite (mapM_ext _ (fun w => fold_v_matrix Xm Ym w true _GRADIENT_MESSAGE kw)).
      * unfold get_max_v_pen. rewrite Hqc. cbn [bind]. now rewrite Hkw.
      * intros w. unfold get_max_v_pen. rewrite Hqc. cbn [bind]. rewrite Hkw.
        apply single_bound_bind.
    + rewrite (mapM_ext _ (fun w => except_MemoryError
                                      (loo_v_matrix Xm Ym w true _GRADIENT_MESSAGE kw))).
      * unfold get_max_v_pen. rewrite Hqc. cbn [bind]. rewrite Hkw.
        now rewrite except_MemoryError_mapM.
      * intros w. unfold get_max_v_pen. rewrite Hqc. cbn [bind]. rewrite Hkw.
        apply single_bound_bind.
  - destruct Htreat as [Hnone|(Xt' & Yt' & Ht)]; [discriminate|].
    rewrite (mapM_ext _ (call_ct Xm Ym Xt' Yt' (np_arange 0 (shape0 Xm))
                           (np_arange (shape0 Xm) (shape0 Xm + shape0 Xt')) kw)).
    + unfold get_max_v_pen. rewrite Hqc. cbn [bind]. now rewrite Ht.
    + intros w. unfold get_max_v_pen. rewrite Hqc. cbn [bind]. rewrite Ht. cbn [bind].
      apply single_bound_bind.
  - destruct Htreat as [Hnone|(Xt' & Yt' & Ht)]; [discriminate|].
    cbn in Ht. discriminate.
Qed.

(** X8.  For inputs that pass the parameter checks, [get_max_v_pen] with an
    iterable [w_pen] raises [e] exactly when some separate call with a single
    [w_pen[i]] raises [e] and every separate call before it returns a bound:
    the failure reported is that of the first failing element, already
    translated when it is a [MemoryError] of the leave-one-out strategy.  An
    empty iterable returns the empty list. *)
Theorem X8_iterable_w_pen_first_failure
    (GS : GradientStrategies) (X Y : raw_data) (ws : list Q)
    (X_treat Y_treat : pyarg) (kw : kwargs) (e : exn) :
  valid_inputs X Y X_treat Y_treat ->
  (get_max_v_pen X Y (WIter ws) X_treat Y_treat kw = Raise e
   <-> exists pre w post,
         ws = pre ++ w :: post
         /\ Forall (fun w' =>
                      exists b, get_max_v_pen X Y (WScalar w') X_treat Y_treat kw
                                = Ok (Single b)) pre
         /\ get_max_v_pen X Y (WScalar w) X_treat Y_treat kw = Raise e)
  /\ get_max_v_pen X Y (WIter []) X_treat Y_treat kw = Ok (Many []).
Proof.
  intros Hv. split.
  - rewrite (get_max_v_pen_iter_mapM X Y ws X_treat Y_treat kw Hv).
    set (f := fun w => single_bound (get_max_v_pen X Y (WScalar w) X_treat Y_treat kw)).
    assert (Hok : forall w b, f w = Ok b
                    <-> get_max_v_pen X Y (WScalar w) X_treat Y_treat kw = Ok (Single b)).
    { intros w b. unfold f.
      destruct (get_max_v_pen X Y (WScalar w) X_treat Y_treat kw) as [[r|rs]|e0] eqn:E;
        cbn; split; try discriminate; try congruence;
        apply get_max_v_pen_scalar_single in E; destruct E as (r' & Hr); discriminate. }
    assert (Herr : forall w e0, f w = Raise e0
                     <-> get_max_v_pen X Y (WScalar w) X_treat Y_treat kw = Raise e0).
    { intros w e0. unfold f.
      destruct (get_max_v_pen X Y (WScalar w) X_treat Y_treat kw) as [[r|rs]|e1] eqn:E;
        cbn; split; try discriminate; try congruence;
        apply get_max_v_pen_scalar_single in E; destruct E as (r' & Hr); discriminate. }
    split.
    + intros H. destruct (mapM f ws) as [bs|e0] eqn:Em; [discriminate|].
      cbn in H. injection H as ->.
      apply mapM_Raise in Em. destruct Em as (pre & w & post & Hws & Hpre & Hw).
      exists pre, w, post. split; [exact Hws|]. split; [|now apply Herr].
      eapply Forall_impl; [|exact Hpre]. intros w' (b & Hb). exists b. now apply Hok.
    + intros (pre & w & post & Hws & Hpre & Hw).
      assert (Em : mapM f ws = Raise e).
      { apply mapM_Raise. exists pre, w, post. split; [exact Hws|].
        split; [|now apply Herr].
        eapply Forall_impl; [|exact Hpre]. intros w' (b & Hb). exists b. now apply Hok. }
      rewrite Em. reflexivity.
  - rewrite (get_max_v_pen_iter_mapM X Y [] X_treat Y_treat kw Hv). reflexivity.
Qed.

Lemma X8_witness :
  @get_max_v_pen exhausted_strategies (Coercible X52) (Coercible X52) (WIter [1; 2])
    ArgNone ArgNone [] = Raise (RuntimeError memory_message)
  /\ @get_max_v_pen exhausted_strategies (Coercible X52) (Coercible X52) (WIter [])
       ArgNone ArgNone [] = Ok (Many []).
Proof.
  assert (Hv : valid_inputs (Coercible X52) (Coercible X52) ArgNone ArgNone).
  { exists X52, X52. split; [reflexivity|now left]. }
  split.
  - apply (X8_iterable_w_pen_first_failure exhausted_strategies (Coercible X52)
             (Coercible X52) [1; 2] ArgNone ArgNone [] (RuntimeError memory_message) Hv).
    exists [], 1, [2]. repeat split. constructor.
  - apply (X8_iterable_w_pen_first_failure exhausted_strategies (Coercible X52)
             (Coercible X52) [1; 2] ArgNone ArgNone [] MemoryError Hv).
Defined.

(** ** The order statistics read by [_gen_CI] *)

Lemma get_item_in_range (a : vector) (i : Z) :
  (0 <= i < Z.of_nat (length a))%Z -> get_item a i = Ok (nth (Z.to_nat i) a 0).
Proof.
  intros H. unfold get_item.
  destruct (Z.ltb_spec i (Z.of_nat (length a))); [|lia].
  destruct (Z.leb_spec (- Z.of_nat (length a)) i); [|lia].
  destruct (Z.ltb_spec i 0); [lia|]. reflexivity.
Qed.

Lemma get_item_too_large (a : vector) (i : Z) :
  (Z.of_nat (length a) <= i)%Z ->
  get_item a i = Raise (IndexError "index is out of bounds for axis 0").
Proof.
  intros H. unfold get_item.
  destruct (Z.ltb_spec i (Z.of_nat (length a))); [lia|]. reflexivity.
Qed.

Lemma insert_sorted_In (x y : Q) (l : vector) :
  In y (insert_sorted x l) -> y = x \/ In y l.
Proof.
  induction l as [|z l IH]; cbn.
  - intros [<-|[]]. now left.
  - destruct (Qle_bool x z); cbn.
    + intros [<-|H]; auto.
    + intros [<-|H]; auto. destruct (IH H); auto.
Qed.

Lemma insert_sorted_sorted (x : Q) (l : vector) :
  StronglySorted Qle l -> StronglySorted Qle (insert_sorted x l).
Proof.
  induction 1 as [|z l Hs IH Hz]; cbn.
  - constructor; constructor.
  - destruct (Qle_bool x z) eqn:E.
    + apply Qle_bool_iff in E. constructor.
      * now constructor.
      * constructor; [exact E|].
        rewrite Forall_forall in *. intros y Hy. specialize (Hz y Hy). lra.
    + assert (Hzx : z <= x).
      { apply Qlt_le_weak, Qnot_le_lt. intros H. apply Qle_bool_iff in H. congruence. }
      constructor; [exact IH|].
      rewrite Forall_forall in *. intros y Hy.
      destruct (insert_sorted_In _ _ _ Hy) as [->|Hy']; auto.
Qed.

Lemma np_sort_sorted (l : vector) : StronglySorted Qle (np_sort l).
Proof.
  unfold np_sort. induction l as [|x l IH]; cbn [fold_right].
  - constructor.
  - now apply insert_sorted_sorted.
Qed.

Lemma sorted_nth (l : vector) (i j : nat) :
  StronglySorted Qle l -> (i <= j)%nat -> (j < length l)%nat ->
  nth i l 0 <= nth j l 0.
Proof.
  intros Hs. revert i j. induction Hs as [|x l Hs IH Hx]; intros i j Hij Hj.
  - cbn in Hj. lia.
  - destruct i as [|i], j as [|j]; cbn in *; try lia.
    + apply Qle_refl.
    + rewrite Forall_forall in Hx. apply Hx. apply nth_In. lia.
    + apply IH; lia.
Qed.

Lemma gen_CI_in_range `{RS : RandomState} (pl : vector) (alpha_ind : Z) (effect : Q)
    (null_is_zero : bool) (w : world) :
  (2 <= alpha_ind <= Z.of_nat (length pl) - 1)%Z ->
  exists w',
    _gen_CI pl alpha_ind effect null_is_zero w
    = (Ok (effect - nth (Z.to_nat (Z.of_nat (length pl) + 1 - alpha_ind)) (np_sort pl) 0,
           effect - nth (Z.to_nat alpha_ind) (np_sort pl) 0), w')
    /\ gen w' = gen w
    /\ exists b, log w' = log w ++ warnings_of [b].
Proof.
  intros H2.
  pose proof (np_sort_length pl) as Hlen.
  destruct (gen_CI_spec pl alpha_ind effect null_is_zero w
              (nth (Z.to_nat alpha_ind) (np_sort pl) 0)
              (nth (Z.to_nat (Z.of_nat (length pl) + 1 - alpha_ind)) (np_sort pl) 0))
    as (w' & Hrun & Hg & Hy & Hn).
  - apply get_item_in_range. rewrite Hlen. lia.
  - apply get_item_in_range. rewrite Hlen. lia.
  - exists w'. split; [exact Hrun|]. split; [exact Hg|].
    set (low := nth (Z.to_nat alpha_ind) (np_sort pl) 0) in *.
    set (high := nth (Z.to_nat (Z.of_nat (length pl) + 1 - alpha_ind)) (np_sort pl) 0)
      in *.
    destruct null_is_zero.
    + destruct ((np_sign low =? np_sign high)%Z && Qneq_bool low 0
                && Qneq_bool high 0)%bool eqn:E.
      * exists true. cbn. apply Hy. split; [reflexivity|].
        now apply warning_test_spec.
      * exists false. cbn. rewrite app_nil_r. apply Hn. intros [_ Hd].
        apply warning_test_spec in Hd. congruence.
    + exists false. cbn. rewrite app_nil_r. apply Hn. intros [Hd _]. discriminate.
Qed.

Lemma gen_CI_out_of_range `{RS : RandomState} (pl : vector) (alpha_ind : Z)
    (effect : Q) (null_is_zero : bool) (w : world) :
  (1 <= alpha_ind)%Z ->
  ~ (2 <= alpha_ind <= Z.of_nat (length pl) - 1)%Z ->
  _gen_CI pl alpha_ind effect null_is_zero w
  = (Raise (IndexError "index is out of bounds for axis 0"), w).
Proof.
  intros H1 H2. unfold _gen_CI, bindM, lift.
  pose proof (np_sort_length pl) as Hlen.
  destruct (Z_lt_le_dec alpha_ind (Z.of_nat (length pl))) as [Hlt|Hge].
  - rewrite (get_item_in_range (np_sort pl) alpha_ind) by (rewrite Hlen; lia).
    rewrite (get_item_too_large (np_sort pl)) by (rewrite Hlen; lia).
    reflexivity.
  - rewrite (get_item_too_large (np_sort pl) alpha_ind) by (rewrite Hlen; lia).
    reflexivity.
Qed.

(** X10.  For an index [alpha_ind >= 1] and a distribution of [npl] draws
    [_gen_CI] returns exactly when [2 <= alpha_ind <= npl - 1]; it then
    returns [(effect - s[npl + 1 - alpha_ind], effect - s[alpha_ind])] for
    the ascending sort [s] of the draws and leaves the generator alone.
    Otherwise it raises [IndexError] and logs nothing. *)
Theorem X10_gen_CI_returns_iff_indices_in_range
    (RS : RandomState) (placebo_effects : vector) (alpha_ind : Z) (effect : Q)
    (null_is_zero : bool) (w : world) :
  (1 <= alpha_ind)%Z ->
  let npl := Z.of_nat (length placebo_effects) in
  let s := np_sort placebo_effects in
  ((2 <= alpha_ind <= npl - 1)%Z ->
   exists w',
     _gen_CI placebo_effects alpha_ind effect null_is_zero w
     = (Ok (effect - nth (Z.to_nat (npl + 1 - alpha_ind)) s 0,
            effect - nth (Z.to_nat alpha_ind) s 0), w')
     /\ gen w' = gen w)
  /\ (~ (2 <= alpha_ind <= npl - 1)%Z ->
      _gen_CI placebo_effects alpha_ind effect null_is_zero w
      = (Raise (IndexError "index is out of bounds for axis 0"), w)).
Proof.
  intros H1 npl s. split.
  - intros H2.
    destruct (gen_CI_in_range placebo_effects alpha_ind effect null_is_zero w H2)
      as (w' & Hrun & Hg & _).
    exists w'. auto.
  - intros H2. now apply gen_CI_out_of_range.
Qed.

Lemma X10_witness :
  (exists w',
      _gen_CI [4; 1; 3; 2] 2 5 true (mk_world counter_rng 0%nat [])
      = (Ok (5 - 4, 5 - 3), w'))
  /\ _gen_CI [4; 1; 3; 2] 4 5 true (mk_world counter_rng 0%nat [])
     = (Raise (IndexError "index is out of bounds for axis 0"),
        mk_world counter_rng 0%nat []).
Proof.
  destruct (X10_gen_CI_returns_iff_indices_in_range counter_rng [4; 1; 3; 2] 2 5 true
              (mk_world counter_rng 0%nat []) ltac:(lia)) as [H _].
  destruct (X10_gen_CI_returns_iff_indices_in_range counter_rng [4; 1; 3; 2] 4 5 true
              (mk_world counter_rng 0%nat []) ltac:(lia)) as [_ H'].
  split.
  - destruct (H ltac:(cbn; lia)) as (w' & Hrun & _). exists w'. exact Hrun.
  - apply H'. cbn. lia.
Defined.

(** X11.  When [_gen_CI] returns, the interval is ordered, lower end first,
    if [2 * alpha_ind <= npl + 1]; for a larger index the two order
    statistics are read in the other order and the lower end is at least the
    upper end. *)
Theorem X11_gen_CI_interval_order
    (RS : RandomState) (placebo_effects : vector) (alpha_ind : Z) (effect : Q)
    (null_is_zero : bool) (w w' : world) (lower upper : Q) :
  (1 <= alpha_ind)%Z ->
  _gen_CI placebo_effects alpha_ind effect null_is_zero w = (Ok (lower, upper), w') ->
  let npl := Z.of_nat (length placebo_effects) in
  ((2 * alpha_ind <= npl + 1)%Z -> lower <= upper)
  /\ ((npl + 1 <= 2 * alpha_ind)%Z -> upper <= lower).
Proof.
  intros H1 Hrun npl.
  destruct (Z_le_dec 2 alpha_ind) as [H2|H2];
    [destruct (Z_le_dec alpha_ind (npl - 1)) as [H3|H3]|].
  - destruct (gen_CI_in_range placebo_effects alpha_ind effect null_is_zero w
                (conj H2 H3)) as (w2 & Hrun2 & _).
    fold npl in Hrun2. rewrite Hrun in Hrun2. injection Hrun2 as -> -> _.
    pose proof (np_sort_sorted placebo_effects) as Hs.
    pose proof (np_sort_length placebo_effects) as Hl.
    split; intros Hcmp.
    + assert (nth (Z.to_nat alpha_ind) (np_sort placebo_effects) 0
              <= nth (Z.to_nat (npl + 1 - alpha_ind)) (np_sort placebo_effects) 0).
      { apply sorted_nth; [exact Hs| |]; unfold npl in *; lia. }
      lra.
    + assert (nth (Z.to_nat (npl + 1 - alpha_ind)) (np_sort placebo_effects) 0
              <= nth (Z.to_nat alpha_ind) (np_sort placebo_effects) 0).
      { apply sorted_nth; [exact Hs| |]; unfold npl in *; lia. }
      lra.
  - rewrite (gen_CI_out_of_range placebo_effects alpha_ind effect null_is_zero w H1)
      in Hrun by (fold npl; lia).
    discriminate.
  - rewrite (gen_CI_out_of_range placebo_effects alpha_ind effect null_is_zero w H1)
      in Hrun by (fold npl; lia).
    discriminate.
Qed.

Lemma X11_witness : 5 - 4 <= 5 - 3.
Proof.
  destruct (X11_gen_CI_interval_order counter_rng [4; 1; 3; 2] 2 5 true
              (mk_world counter_rng 0%nat [])
              (mk_world counter_rng 0%nat [ci_warning]) (5 - 4) (5 - 3)
              ltac:(lia) eq_refl)
    as [H _].
  apply H. cbn. lia.
Defined.

(** X12.  On valid input the draw loop completes after exactly C(N0,N1)
    calls of [np.random.choice], whatever [max_n_pl] is; every draw consists
    of [N1] different control indices; no warning is written.  At the end
    the average and RMS counters hold the number of draws whose aggregate is
    at least as extreme as the observed one, the counter of each period [t]
    does so for that period, and, when draws are retained, the three arrays
    hold the aggregates of the draws in draw order.  This holds for every
    choice of the reductions and of the square root. *)
Theorem X12_draw_loop_counts_and_retains
    (RS : RandomState) (SQ : Sqrt) (MN : Mean) (control treated : ndarray2)
    (max_n_pl : Z) (keep : bool) (w : world) :
  valid_placebo_input control treated ->
  let C := binom (shape0 control) (shape0 treated) in
  let draws := drawn C (shape0 control) (shape0 treated) (gen w) in
  let ev := obs_effect_vec treated in
  exists st w',
    draw_loop control treated max_n_pl keep w = (Ok st, w')
    /\ gen w' = gen_after C (shape0 control) (gen w)
    /\ log w' = log w
    /\ length draws = C
    /\ Forall (fun comb => length comb = shape0 treated /\ NoDup comb
                           /\ Forall (fun i => (i < shape0 control)%nat) comb) draws
    /\ avg_joint_p st
       = count_if (fun comb => Qge_bool (Qabs (draw_mean (np_mean_axis1 control) comb))
                                 (Qabs (obs_avg_joint_effect treated))) draws
    /\ rms_joint_p st
       = count_if (fun comb => Qge_bool (draw_mean (rms_per_unit control) comb)
                                 (obs_rms_joint_effect treated)) draws
    /\ length (vec_p st) = shape1 treated
    /\ (forall t, (t < shape1 treated)%nat ->
          nth t (vec_p st) 0%Z
          = count_if (fun comb => Qge_bool (Qabs (nth t (draw_vec control comb) 0))
                                    (Qabs (nth t ev 0))) draws)
    /\ placebo_effect_vecs st
       = (if keep then Some (map (draw_vec control) draws) else None)
    /\ placebo_avg_joint_effects st
       = (if keep then Some (map (draw_mean (np_mean_axis1 control)) draws) else None)
    /\ placebo_rms_joint_effects st
       = (if keep then Some (map (draw_mean (rms_per_unit control)) draws) else None).
Proof.
  intros ((Hrows & _) & _ & HT & HNs & _) C draws ev.
  assert (HN : (shape0 treated <= shape0 control)%nat) by lia.
  destruct (draw_loop_spec control treated max_n_pl keep w Hrows HT HN)
    as (st & w' & Hrun & Hinv & Hg & Hl).
  destruct (drawn_spec C (shape0 control) (shape0 treated) (gen w) HN) as [Hlen Hsub].
  fold C in Hinv, Hg. fold draws in Hinv, Hlen, Hsub.
  destruct Hinv as (H1 & H2 & H3 & H4 & H5 & H6 & H7).
  assert (Hev : length (obs_effect_vec treated) = shape1 treated)
    by apply obs_effect_vec_length.
  rewrite Hlen, Nat.sub_diag in H5, H6, H7. cbn [repeat] in H5, H6, H7.
  rewrite app_nil_r in H5, H6, H7.
  exists st, w'. rewrite Hev in H1, H2.
  repeat split; assumption.
Qed.

(** The draws of a run over four control units, two treated units and two
    periods. *)
Lemma X12_witness :
  exists st w',
    draw_loop (mk_ndarray2 4 2 [[1; 2]; [2; 0]; [3; -1]; [4; 4]])
      (mk_ndarray2 2 2 [[2; 2]; [3; 1]]) 3 true (mk_world counter_rng 0%nat [])
    = (Ok st, w')
    /\ gen w' = 6%nat
    /\ log w' = []
    /\ avg_joint_p st = 2%Z.
Proof.
  assert (Hvalid : valid_placebo_input
                     (mk_ndarray2 4 2 [[1; 2]; [2; 0]; [3; -1]; [4; 4]])
                     (mk_ndarray2 2 2 [[2; 2]; [3; 1]])).
  { repeat split; repeat constructor; cbn; try lia; vm_compute; discriminate. }
  destruct (X12_draw_loop_counts_and_retains counter_rng rational_sqrt rational_mean
              (mk_ndarray2 4 2 [[1; 2]; [2; 0]; [3; -1]; [4; 4]])
              (mk_ndarray2 2 2 [[2; 2]; [3; 1]]) 3 true (mk_world counter_rng 0%nat [])
              Hvalid)
    as (st & w' & Hrun & Hg & Hl & _ & _ & Ha & _).
  exists st, w'. repeat split; assumption.
Defined.

(** ** The returned structure *)

(** X13.  On valid input and with no interval requested the engine returns
    a result, writes no warning and leaves the generator where the C(N0,N1)
    draws left it.  The result reports [N_placebo = C(N0,N1)], carries no
    interval, holds the observed aggregates as effects and, as p-values,
    [(count + 1) / (C(N0,N1) + 1)] for the counts of draws at least as
    extreme; it carries the placebo distributions exactly when [ret_pl] is
    set.  This holds for every choice of the reductions and of the square
    root. *)
Theorem X13_result_without_intervals
    (RS : RandomState) (SQ : Sqrt) (MN : Mean) (control treated : ndarray2)
    (max_n_pl : Z) (ret_pl : bool) (level : Q) (w : world) :
  valid_placebo_input control treated ->
  let C := binom (shape0 control) (shape0 treated) in
  let draws := drawn C (shape0 control) (shape0 treated) (gen w) in
  let ev := obs_effect_vec treated in
  exists res w' pv,
    _gen_placebo_stats_from_diffs control treated max_n_pl ret_pl false level w
    = (Ok res, w')
    /\ gen w' = gen_after C (shape0 control) (gen w) /\ log w' = log w
    /\ N_placebo res = Z.of_nat C
    /\ ci (effect_vec res) = None /\ ci (avg_joint_effect res) = None
    /\ ci (rms_joint_effect res) = None
    /\ effect (effect_vec res) = Array ev
    /\ effect (avg_joint_effect res) = Scalar (obs_avg_joint_effect treated)
    /\ effect (rms_joint_effect res) = Scalar (obs_rms_joint_effect treated)
    /\ p (avg_joint_effect res)
       = Scalar (inclusive_p_value
                   (count_if (fun comb =>
                                Qge_bool (Qabs (draw_mean (np_mean_axis1 control) comb))
                                  (Qabs (obs_avg_joint_effect treated))) draws)
                   (Z.of_nat C))
    /\ p (rms_joint_effect res)
       = Scalar (inclusive_p_value
                   (count_if (fun comb =>
                                Qge_bool (draw_mean (rms_per_unit control) comb)
                                  (obs_rms_joint_effect treated)) draws)
                   (Z.of_nat C))
    /\ p (effect_vec res) = Array pv /\ length pv = shape1 treated
    /\ (forall t, (t < shape1 treated)%nat ->
          nth_error pv t
          = Some (inclusive_p_value
                    (count_if (fun comb =>
                                 Qge_bool (Qabs (nth t (draw_vec control comb) 0))
                                   (Qabs (nth t ev 0))) draws)
                    (Z.of_nat C)))
    /\ placebos (effect_vec res)
       = (if ret_pl then Some (Placebos2 (map (draw_vec control) draws)) else None)
    /\ placebos (avg_joint_effect res)
       = (if ret_pl then Some (Placebos1 (map (draw_mean (np_mean_axis1 control)) draws))
          else None)
    /\ placebos (rms_joint_effect res)
       = (if ret_pl then Some (Placebos1 (map (draw_mean (rms_per_unit control)) draws))
          else None).
Proof.
  intros ((Hrows & _) & _ & HT & HNs & _) C draws ev.
  assert (HN : (shape0 treated <= shape0 control)%nat) by lia.
  destruct (draw_loop_spec control treated max_n_pl (ret_pl || false) w Hrows HT HN)
    as (st & w' & Hrun & Hinv & Hg & Hl).
  destruct (drawn_spec C (shape0 control) (shape0 treated) (gen w) HN) as [Hlen _].
  fold C in Hinv, Hg. fold draws in Hinv, Hlen.
  destruct Hinv as (H1 & H2 & H3 & H4 & H5 & H6 & H7).
  assert (Hev : length (obs_effect_vec treated) = shape1 treated)
    by apply obs_effect_vec_length.
  rewrite Hlen, Nat.sub_diag in H5, H6, H7. cbn [repeat] in H5, H6, H7.
  rewrite app_nil_r in H5, H6, H7. rewrite Bool.orb_false_r in *.
  rewrite Hev in H1, H2.
  rewrite (engine_after_loop control treated max_n_pl ret_pl false level w w' st)
    by (rewrite Bool.orb_false_r; exact Hrun).
  cbv zeta. rewrite (ncr_binom _ _ HN). fold C.
  unfold bindM, ret.
  eexists. eexists. eexists. split; [reflexivity|].
  cbn [effect_vec avg_joint_effect rms_joint_effect N_placebo effect p ci placebos].
  rewrite H3, H4, H5, H6, H7.
  repeat split; try assumption; try reflexivity.
  - now rewrite length_map.
  - intros t Ht. rewrite nth_error_map.
    rewrite (nth_error_nth' (vec_p st) 0%Z) by lia.
    cbn [option_map]. now rewrite (H2 t Ht).
  - now destruct ret_pl.
  - now destruct ret_pl.
  - now destruct ret_pl.
Qed.

(** Three control units with effects 1, 2, 3 and a treated unit with effect
    2: the p-value of the average effect is (2 + 1) / (3 + 1). *)
Lemma X13_witness :
  exists res w',
    run (_gen_placebo_stats_from_diffs control3 (mk_ndarray2 1 1 [[2]]) 2 true false
           (95 # 100)) 0%nat
    = (Ok res, w')
    /\ gen w' = 3%nat
    /\ N_placebo res = 3%Z
    /\ ci (avg_joint_effect res) = None
    /\ p (avg_joint_effect res) = Scalar (inclusive_p_value 2 3).
Proof.
  assert (Hvalid : valid_placebo_input control3 (mk_ndarray2 1 1 [[2]])).
  { repeat split; repeat constructor; cbn; try lia; vm_compute; discriminate. }
  destruct (X13_result_without_intervals counter_rng rational_sqrt rational_mean
              control3 (mk_ndarray2 1 1 [[2]]) 2 true (95 # 100)
              (mk_world counter_rng 0%nat []) Hvalid)
    as (res & w' & pv & Hrun & Hg & _ & HN & _ & Hci & _ & _ & _ & _ & Hp & _).
  exists res, w'. repeat split; assumption.
Defined.

(** ** The intervals of a run *)

Lemma flipped_interval_ordered (pl : vector) (alpha_ind : Z) (eff : Q) :
  (2 <= alpha_ind)%Z -> (2 * alpha_ind <= Z.of_nat (length pl) + 1)%Z ->
  fst (flipped_interval pl alpha_ind eff) <= snd (flipped_interval pl alpha_ind eff).
Proof.
  intros H2 Hh. unfold flipped_interval. cbn [fst snd].
  assert (nth (Z.to_nat alpha_ind) (np_sort pl) 0
          <= nth (Z.to_nat (Z.of_nat (length pl) + 1 - alpha_ind)) (np_sort pl) 0).
  { apply sorted_nth; [apply np_sort_sorted| |]; rewrite ?np_sort_length; lia. }
  lra.
Qed.

Section IntervalsOfARun.

Context `{RS : RandomState}.

Lemma gen_CI_vec_total (ts : list nat) (pev : list vector) (alpha_ind : Z)
    (ev : vector) (w : world) :
  (2 <= alpha_ind <= Z.of_nat (length pev) - 1)%Z ->
  Forall (fun t => (t < length ev)%nat) ts ->
  exists w',
    gen_CI_vec ts pev alpha_ind ev w
    = (Ok (map (fun t => flipped_interval (column t pev) alpha_ind (nth t ev 0)) ts), w')
    /\ gen w' = gen w
    /\ exists flags, log w' = log w ++ warnings_of flags.
Proof.
  intros Ha Hts. revert w. induction Hts as [|t ts Ht _ IH]; intros w.
  - exists w. cbn. repeat split. exists []. cbn. now rewrite app_nil_r.
  - cbn [gen_CI_vec map]. unfold bindM at 1, lift at 1.
    rewrite (nth_error_nth' ev 0 Ht).
    unfold bindM at 1.
    destruct (gen_CI_in_range (column t pev) alpha_ind (nth t ev 0) true w)
      as (w1 & Hrun & Hg1 & b & Hl1).
    { unfold column. rewrite length_map. exact Ha. }
    rewrite Hrun. unfold bindM at 1.
    destruct (IH w1) as (w2 & Hrest & Hg2 & flags & Hl2).
    rewrite Hrest. cbn [ret].
    exists w2. split; [reflexivity|]. split; [congruence|].
    exists (b :: flags). rewrite Hl2, Hl1.
    change (b :: flags) with ([b] ++ flags).
    rewrite warnings_of_app. now rewrite app_assoc.
Qed.

Lemma gen_CI_vec_fails (ts : list nat) (pev : list vector) (alpha_ind : Z)
    (ev : vector) (w : world) :
  (1 <= alpha_ind)%Z ->
  ~ (2 <= alpha_ind <= Z.of_nat (length pev) - 1)%Z ->
  ts <> [] ->
  Forall (fun t => (t < length ev)%nat) ts ->
  gen_CI_vec ts pev alpha_ind ev w
  = (Raise (IndexError "index is out of bounds for axis 0"), w).
Proof.
  intros H1 Ha Hne Hts. destruct Hts as [|t ts Ht _]; [contradiction|].
  cbn [gen_CI_vec]. unfold bindM at 1, lift at 1.
  rewrite (nth_error_nth' ev 0 Ht). unfold bindM at 1.
  rewrite gen_CI_out_of_range; [reflexivity|exact H1|].
  unfold column. now rewrite length_map.
Qed.

Lemma gen_CIs_valid_level (level : Q) (n_pl : Z) (T1 : nat) (st : loop_state)
    (ev : vector) (avg rms : Q) (pev : list vector) (pavg prms : vector) :
  0 < level -> level < 1 -> (1 <= n_pl)%Z -> ~ fl (2 / inject_Z n_pl) == 0 ->
  placebo_effect_vecs st = Some pev ->
  placebo_avg_joint_effects st = Some pavg ->
  placebo_rms_joint_effects st = Some prms ->
  gen_CIs level n_pl T1 st ev avg rms
  = (cv <~ gen_CI_vec (seq 0 T1) pev (alpha_index level n_pl) ev ;;
     ca <~ _gen_CI pavg (alpha_index level n_pl) avg true ;;
     cr <~ _gen_CI prms (alpha_index level n_pl) rms false ;;
     ret (mk_CI_int (Array (map fst cv)) (Array (map snd cv)) level,
          mk_CI_int (Scalar (fst ca)) (Scalar (snd ca)) level,
          mk_CI_int (Scalar (fst cr)) (Scalar (snd cr)) level)).
Proof.
  intros H0 H1 Hn Hq E1 E2 E3. unfold gen_CIs. fold (alpha_index level n_pl).
  assert (L0 : Qle_bool level 0 = false).
  { destruct (Qle_bool level 0) eqn:E; [|reflexivity]. apply Qle_bool_iff in E. lra. }
  assert (L1 : Qle_bool 1 level = false).
  { destruct (Qle_bool 1 level) eqn:E; [|reflexivity]. apply Qle_bool_iff in E. lra. }
  rewrite L0, L1. cbn [negb andb].
  destruct (Z.eqb_spec n_pl 0); [lia|].
  destruct (Qeq_bool (fl (2 / inject_Z n_pl)) 0) eqn:Ez.
  { apply Qeq_bool_iff in Ez. contradiction. }
  rewrite E1, E2, E3. reflexivity.
Qed.

End IntervalsOfARun.

(** X14.  On valid input with fewer than [2^1000] combinations, a level in
    (0,1) and intervals requested, let [a] be the index that the floats
    give, [max(1, round((1 - level) / (2 / C(N0,N1))))].  The run ends in
    [IndexError] (after all draws, with no warning written) unless
    [2 <= a <= C(N0,N1) - 1].  Otherwise it returns: each interval is the
    pair of order statistics [a] and [C(N0,N1) + 1 - a] of its placebo
    distribution, flipped around the observed effect, with its lower end at
    most its upper end when [2 * a <= C(N0,N1) + 1], and the placebo
    distributions are returned even when [ret_pl] is not set.  This holds
    for every choice of the reductions and of the square root. *)
Theorem X14_intervals_of_a_run
    (RS : RandomState) (SQ : Sqrt) (MN : Mean) (control treated : ndarray2)
    (max_n_pl : Z) (ret_pl : bool) (lv : Q) (w : world) :
  valid_placebo_input control treated ->
  0 < lv -> lv < 1 ->
  let C := binom (shape0 control) (shape0 treated) in
  (Z.of_nat C <= 2 ^ 1000)%Z ->
  let draws := drawn C (shape0 control) (shape0 treated) (gen w) in
  let a := alpha_index lv (Z.of_nat C) in
  let avgs := map (draw_mean (np_mean_axis1 control)) draws in
  let rmss := map (draw_mean (rms_per_unit control)) draws in
  let ivs :=
    map (fun t => flipped_interval (map (fun comb => nth t (draw_vec control comb) 0) draws)
                    a (nth t (obs_effect_vec treated) 0))
      (seq 0 (shape1 treated)) in
  (~ (2 <= a <= Z.of_nat C - 1)%Z ->
   exists w',
     _gen_placebo_stats_from_diffs control treated max_n_pl ret_pl true lv w
     = (Raise (IndexError "index is out of bounds for axis 0"), w')
     /\ log w' = log w)
  /\ ((2 <= a <= Z.of_nat C - 1)%Z ->
      exists res w',
        _gen_placebo_stats_from_diffs control treated max_n_pl ret_pl true lv w
        = (Ok res, w')
        /\ ci (avg_joint_effect res)
           = Some (mk_CI_int
                     (Scalar (fst (flipped_interval avgs a (obs_avg_joint_effect treated))))
                     (Scalar (snd (flipped_interval avgs a (obs_avg_joint_effect treated))))
                     lv)
        /\ ci (rms_joint_effect res)
           = Some (mk_CI_int
                     (Scalar (fst (flipped_interval rmss a (obs_rms_joint_effect treated))))
                     (Scalar (snd (flipped_interval rmss a (obs_rms_joint_effect treated))))
                     lv)
        /\ ci (effect_vec res)
           = Some (mk_CI_int (Array (map fst ivs)) (Array (map snd ivs)) lv)
        /\ ((2 * a <= Z.of_nat C + 1)%Z ->
            fst (flipped_interval avgs a (obs_avg_joint_effect treated))
            <= snd (flipped_interval avgs a (obs_avg_joint_effect treated))
            /\ fst (flipped_interval rmss a (obs_rms_joint_effect treated))
               <= snd (flipped_interval rmss a (obs_rms_joint_effect treated))
            /\ Forall (fun iv => fst iv <= snd iv) ivs)
        /\ placebos (avg_joint_effect res) = Some (Placebos1 avgs)
        /\ placebos (rms_joint_effect res) = Some (Placebos1 rmss)
        /\ placebos (effect_vec res) = Some (Placebos2 (map (draw_vec control) draws))).
Proof.
  intros ((Hrows & _) & _ & HT & HNs & HT1 & _) H0 H1 C HCb draws a avgs rmss ivs.
  assert (HN : (shape0 treated <= shape0 control)%nat) by lia.
  destruct (draw_loop_spec control treated max_n_pl (ret_pl || true) w Hrows HT HN)
    as (st & w1 & Hrun & Hinv & Hg & Hl).
  destruct (drawn_spec C (shape0 control) (shape0 treated) (gen w) HN) as [Hlen _].
  fold C in Hinv, Hg. fold draws in Hinv, Hlen.
  destruct Hinv as (I1 & I2 & I3 & I4 & I5 & I6 & I7).
  assert (Hev : length (obs_effect_vec treated) = shape1 treated)
    by apply obs_effect_vec_length.
  rewrite Hlen, Nat.sub_diag in I5, I6, I7. cbn [repeat] in I5, I6, I7.
  rewrite app_nil_r in I5, I6, I7. rewrite Bool.orb_true_r in I5, I6, I7.
  fold avgs in I6. fold rmss in I7.
  assert (HC : (1 <= Z.of_nat C)%Z).
  { pose proof (binom_pos _ _ HN). unfold C. lia. }
  assert (Hts : Forall (fun t => (t < length (obs_effect_vec treated))%nat)
                  (seq 0 (shape1 treated))).
  { apply Forall_forall. intros t Ht. apply in_seq in Ht. lia. }
  assert (Hcol : forall t, column t (map (draw_vec control) draws)
                           = map (fun comb => nth t (draw_vec control comb) 0) draws).
  { intros t. unfold column. now rewrite map_map. }
  pose proof (engine_after_loop control treated max_n_pl ret_pl true lv w w1 st Hrun)
    as Heng.
  cbv zeta in Heng. rewrite (ncr_binom _ _ HN) in Heng. fold C in Heng.
  rewrite (gen_CIs_valid_level lv (Z.of_nat C) (shape1 treated) st _ _ _ _ _ _
             H0 H1 HC (fl_quotient_nonzero _ (conj HC HCb)) I5 I6 I7) in Heng.
  fold a in Heng.
  assert (Ha1 : (1 <= a)%Z) by (unfold a, alpha_index; lia).
  split.
  - intros Hout. exists w1. split; [|exact Hl].
    rewrite Heng. unfold bindM.
    rewrite gen_CI_vec_fails; [reflexivity|exact Ha1| | |exact Hts].
    + rewrite length_map, Hlen. exact Hout.
    + destruct (shape1 treated); [lia|discriminate].
  - intros Hin.
    assert (Hrange : forall (l : vector), length l = C ->
               (2 <= a <= Z.of_nat (length l) - 1)%Z) by (intros l ->; lia).
    destruct (gen_CI_vec_total (seq 0 (shape1 treated)) (map (draw_vec control) draws) a
                (obs_effect_vec treated) w1) as (w2 & Hvec & _ & _).
    { rewrite length_map, Hlen. lia. }
    { exact Hts. }
    destruct (gen_CI_in_range avgs a (obs_avg_joint_effect treated) true w2)
      as (w3 & Havg & _ & _).
    { apply Hrange. unfold avgs. now rewrite length_map. }
    destruct (gen_CI_in_range rmss a (obs_rms_joint_effect treated) false w3)
      as (w4 & Hrms & _ & _).
    { apply Hrange. unfold rmss. now rewrite length_map. }
    eexists. exists w4. split.
    { rewrite Heng. unfold bindM. rewrite Hvec, Havg, Hrms. cbn [ret]. reflexivity. }
    cbn [effect_vec avg_joint_effect rms_joint_effect ci placebos fst snd].
    rewrite I5, I6, I7. cbn [option_map].
    assert (Hivs : map (fun t => flipped_interval (column t (map (draw_vec control) draws))
                                   a (nth t (obs_effect_vec treated) 0))
                     (seq 0 (shape1 treated)) = ivs).
    { unfold ivs. apply map_ext. intros t. now rewrite Hcol. }
    rewrite Hivs.
    split; [reflexivity|]. split; [reflexivity|]. split; [reflexivity|].
    split; [|repeat split].
    intros Hord. split; [|split].
    + apply flipped_interval_ordered; unfold avgs; rewrite ?length_map, ?Hlen; lia.
    + apply flipped_interval_ordered; unfold rmss; rewrite ?length_map, ?Hlen; lia.
    + unfold ivs. apply Forall_forall. intros iv Hiv.
      apply in_map_iff in Hiv. destruct Hiv as (t & <- & _).
      apply flipped_interval_ordered; rewrite ?length_map, ?Hlen; lia.
Qed.

(** Three control units at the default level, where the index is 1, and
    four control units at level 1/4, where it is 2. *)
Lemma X14_witness :
  (alpha_index (fl (95 # 100)) 3 = 1%Z
   /\ exists w',
        run (_gen_placebo_stats_from_diffs control3 treated1 1000000 false true
               (fl (95 # 100))) 0%nat
        = (Raise (IndexError "index is out of bounds for axis 0"), w'))
  /\ (alpha_index (1 # 4) 4 = 2%Z
      /\ exists res w',
           run (_gen_placebo_stats_from_diffs control4 treated1 1000000 false true
                  (1 # 4)) 0%nat
           = (Ok res, w')
           /\ placebos (avg_joint_effect res)
              = Some (Placebos1
                        (map (draw_mean (np_mean_axis1 control4))
                           (drawn 4 4 1 0%nat)))).
Proof.
  assert (V3 : valid_placebo_input control3 treated1).
  { repeat split; repeat constructor; cbn; try lia; vm_compute; discriminate. }
  assert (V4 : valid_placebo_input control4 treated1).
  { repeat split; repeat constructor; cbn; try lia; vm_compute; discriminate. }
  assert (A3 : alpha_index (fl (95 # 100)) 3 = 1%Z) by (vm_compute; reflexivity).
  assert (A4 : alpha_index (1 # 4) 4 = 2%Z) by (vm_compute; reflexivity).
  split.
  - split; [exact A3|].
    destruct (X14_intervals_of_a_run counter_rng rational_sqrt rational_mean
                control3 treated1 1000000 false (fl (95 # 100))
                (mk_world counter_rng 0%nat [])
                V3 ltac:(vm_compute; reflexivity) ltac:(vm_compute; reflexivity)
                ltac:(vm_compute; discriminate))
      as [H _].
    change (Z.of_nat (binom (shape0 control3) (shape0 treated1))) with 3%Z in H.
    rewrite A3 in H.
    destruct H as (w' & Hrun & _); [lia|].
    exists w'. exact Hrun.
  - split; [exact A4|].
    destruct (X14_intervals_of_a_run counter_rng rational_sqrt rational_mean
                control4 treated1 1000000 false (1 # 4) (mk_world counter_rng 0%nat [])
                V4 ltac:(reflexivity) ltac:(reflexivity)
                ltac:(vm_compute; discriminate))
      as [_ H].
    change (Z.of_nat (binom (shape0 control4) (shape0 treated1))) with 4%Z in H.
    rewrite A4 in H.
    destruct H as (res & w' & Hrun & _ & _ & _ & _ & Hpl & _); [lia|].
    exists res, w'. split; [exact Hrun|exact Hpl].
Defined.

(** ** The two p-value conventions *)

(** X15.  For a count between 0 and [npl > 0], [_calculate_p_value] without
    the observed statistic in the reference set returns [count / npl], a
    value between 0 and 1 that is 0 for a zero count; with it (the default)
    the value is never smaller, and both are 1 when [count = npl]. *)
Theorem X15_p_value_conventions (count npl : Z) :
  (0 <= count <= npl)%Z -> (0 < npl)%Z ->
  exists p_excl p_incl,
    _calculate_p_value count npl false = Ok p_excl
    /\ _calculate_p_value count npl true = Ok p_incl
    /\ 0 <= p_excl /\ p_excl <= 1
    /\ (count = 0%Z -> p_excl == 0)
    /\ p_excl <= p_incl
    /\ (count = npl -> p_excl == 1 /\ p_incl == 1).
Proof.
  intros Hc Hn.
  rewrite calculate_p_value_exclusive by lia.
  rewrite calculate_p_value_inclusive by lia.
  eexists. eexists. split; [reflexivity|]. split; [reflexivity|].
  unfold inclusive_p_value.
  destruct npl as [|d|d] eqn:En; try lia.
  assert (Hd1 : (Z.pos d + 1 = Z.pos (d + 1))%Z) by lia.
  rewrite Hd1. rewrite <- !Qmake_Qdiv.
  unfold Qle, Qlt, Qeq. cbn [Qnum Qden].
  repeat split; try intros ->; try nia.
Qed.

Lemma X15_witness :
  exists p_excl p_incl,
    _calculate_p_value 0 20 false = Ok p_excl
    /\ _calculate_p_value 0 20 true = Ok p_incl
    /\ p_excl == 0 /\ p_excl <= p_incl.
Proof.
  destruct (X15_p_value_conventions 0 20 ltac:(lia) ltac:(lia))
    as (pe & pi & H1 & H2 & _ & _ & H0 & Hle & _).
  exists pe, pi. repeat split; auto.
Defined.

(** ** The cap [max_n_pl] *)

(** X16.  The engine never reads [max_n_pl]: two runs that differ only in
    [max_n_pl] return the same result, the same generator state and the same
    log, for all inputs. *)
Theorem X16_max_n_pl_is_ignored
    (RS : RandomState) (SQ : Sqrt) (MN : Mean) (control treated : ndarray2)
    (max_n_pl max_n_pl' : Z) (ret_pl ret_CI : bool) (lv : Q) (w : world) :
  _gen_placebo_stats_from_diffs control treated max_n_pl ret_pl ret_CI lv w
  = _gen_placebo_stats_from_diffs control treated max_n_pl' ret_pl ret_CI lv w.
Proof.
  unfold _gen_placebo_stats_from_diffs.
  rewrite !choose_iter_random.
  rewrite (draw_loop_unfold control treated max_n_pl),
          (draw_loop_unfold control treated max_n_pl').
  reflexivity.
Qed.

(** ** The checks on the treated pair *)

(** X17.  When [X] and [Y] pass their checks and a treated pair is given,
    [get_max_v_pen] raises before any strategy is called: a [TypeError] for
    an [X_treat], then a [Y_treat], that is not an [np.matrix]; a
    [ValueError] for an [X_treat], then a [Y_treat], without columns; and a
    [ValueError] for different row counts of the pair, whose message reports
    the row counts of [X] and [Y]. *)
Theorem X17_treated_pair_errors
    (GS : GradientStrategies) (X Y : raw_data) (Xm Ym Xt Yt : ndarray2)
    (w_pen : w_pen_arg) (kw : kwargs) (s : string) (Y_treat : pyarg) :
  (parameter_qc X Y (ArgOther s) Y_treat = Ok (Xm, Ym) ->
   get_max_v_pen X Y w_pen (ArgOther s) Y_treat kw
   = Raise (TypeError "X_treat is not a matrix"))
  /\ (parameter_qc X Y (ArgMatrix Xt) (ArgOther s) = Ok (Xm, Ym) ->
      get_max_v_pen X Y w_pen (ArgMatrix Xt) (ArgOther s) kw
      = Raise (TypeError "Y_treat is not a matrix"))
  /\ (parameter_qc X Y (ArgMatrix Xt) (ArgMatrix Yt) = Ok (Xm, Ym) ->
      (shape1 Xt = 0%nat ->
       get_max_v_pen X Y w_pen (ArgMatrix Xt) (ArgMatrix Yt) kw
       = Raise (ValueError "X_treat.shape[1] == 0"))
      /\ (shape1 Xt <> 0%nat -> shape1 Yt = 0%nat ->
          get_max_v_pen X Y w_pen (ArgMatrix Xt) (ArgMatrix Yt) kw
          = Raise (ValueError "Y_treat.shape[1] == 0"))
      /\ (shape1 Xt <> 0%nat -> shape1 Yt <> 0%nat -> shape0 Xt <> shape0 Yt ->
          get_max_v_pen X Y w_pen (ArgMatrix Xt) (ArgMatrix Yt) kw
          = Raise (ValueError ("X_treat and Y_treat have different number of rows ("
                               ++ str_of_nat (shape0 Xm) ++ " and "
                               ++ str_of_nat (shape0 Ym) ++ ")")%string))).
Proof.
  split; [|split].
  - intros Hqc. unfold get_max_v_pen. rewrite Hqc. reflexivity.
  - intros Hqc. unfold get_max_v_pen. rewrite Hqc. reflexivity.
  - intros Hqc. unfold get_max_v_pen. rewrite Hqc. cbn [bind]. unfold treat_qc.
    split; [|split].
    + intros ->. reflexivity.
    + intros H1 ->. destruct (Nat.eqb_spec (shape1 Xt) 0); [contradiction|reflexivity].
    + intros H1 H2 H3.
      destruct (Nat.eqb_spec (shape1 Xt) 0); [contradiction|].
      destruct (Nat.eqb_spec (shape1 Yt) 0); [contradiction|].
      destruct (Nat.eqb_spec (shape0 Xt) (shape0 Yt)); [contradiction|reflexivity].
Qed.

Lemma X17_witness :
  @get_max_v_pen affine_strategies (Coercible X52) (Coercible X52) WNone
    (ArgOther "a list") (ArgMatrix X52) []
  = Raise (TypeError "X_treat is not a matrix")
  /\ @get_max_v_pen affine_strategies (Coercible X52) (Coercible X52) WNone
       (ArgMatrix X52) (ArgMatrix control4) []
     = Raise (ValueError "X_treat and Y_treat have different number of rows (5 and 5)").
Proof.
  split.
  - destruct (X17_treated_pair_errors affine_strategies (Coercible X52) (Coercible X52)
                X52 X52 X52 X52 WNone [] "a list" (ArgMatrix X52)) as (H & _).
    apply H. reflexivity.
  - destruct (X17_treated_pair_errors affine_strategies (Coercible X52) (Coercible X52)
                X52 X52 X52 control4 WNone [] "a list" ArgNone) as (_ & _ & H).
    destruct (H eq_refl) as (_ & _ & H3). apply H3; cbn; lia.
Defined.

(** ** One strategy per call *)

(** X18.  The result of [get_max_v_pen] depends on one strategy only: on
    [fold_v_matrix] when no treated pair is given and [grad_splits] is among
    the options, on [loo_v_matrix] when neither is given, and on
    [ct_v_matrix] when a treated pair is given.  Two sets of strategies that
    agree on that one give the same result. *)
Theorem X18_one_strategy_per_call
    (GS1 GS2 : GradientStrategies) (X Y : raw_data) (w_pen : w_pen_arg)
    (X_treat Y_treat : pyarg) (kw : kwargs) :
  (X_treat = ArgNone -> kw_mem "grad_splits" kw = true ->
   (forall Xm Ym w b m k,
       @fold_v_matrix GS1 Xm Ym w b m k = @fold_v_matrix GS2 Xm Ym w b m k) ->
   @get_max_v_pen GS1 X Y w_pen X_treat Y_treat kw
   = @get_max_v_pen GS2 X Y w_pen X_treat Y_treat kw)
  /\ (X_treat = ArgNone -> kw_mem "grad_splits" kw = false ->
      (forall Xm Ym w b m k,
          @loo_v_matrix GS1 Xm Ym w b m k = @loo_v_matrix GS2 Xm Ym w b m k) ->
      @get_max_v_pen GS1 X Y w_pen X_treat Y_treat kw
      = @get_max_v_pen GS2 X Y w_pen X_treat Y_treat kw)
  /\ (X_treat <> ArgNone ->
      (forall Xm Ym w cu tu b m k,
          @ct_v_matrix GS1 Xm Ym w cu tu b m k = @ct_v_matrix GS2 Xm Ym w cu tu b m k) ->
      @get_max_v_pen GS1 X Y w_pen X_treat Y_treat kw
      = @get_max_v_pen GS2 X Y w_pen X_treat Y_treat kw).
Proof.
  split; [|split].
  - intros -> Hkw Hf. unfold get_max_v_pen.
    destruct (parameter_qc X Y ArgNone Y_treat) as [[Xm Ym]|]; [|reflexivity].
    cbn [bind]. rewrite Hkw.
    destruct w_pen as [|w|ws]; rewrite ?Hf; try reflexivity.
    rewrite (mapM_ext _ (fun w => @fold_v_matrix GS2 Xm Ym w true _GRADIENT_MESSAGE kw));
      [reflexivity|intros; apply Hf].
  - intros -> Hkw Hf. unfold get_max_v_pen.
    destruct (parameter_qc X Y ArgNone Y_treat) as [[Xm Ym]|]; [|reflexivity].
    cbn [bind]. rewrite Hkw.
    destruct w_pen as [|w|ws]; rewrite ?Hf; try reflexivity.
    rewrite (mapM_ext _ (fun w => @loo_v_matrix GS2 Xm Ym w true _GRADIENT_MESSAGE kw));
      [reflexivity|intros; apply Hf].
  - intros Hne Hf. unfold get_max_v_pen.
    destruct (parameter_qc X Y X_treat Y_treat) as [[Xm Ym]|]; [|reflexivity].
    cbn [bind].
    destruct X_treat as [|Xt|s]; [contradiction| |reflexivity].
    destruct (treat_qc Xm Ym (ArgMatrix Xt) Y_treat) as [[Xt' Yt']|]; [|reflexivity].
    cbn [bind].
    assert (Hc : forall cu tu w, @call_ct GS1 Xm Ym Xt' Yt' cu tu kw w
                                 = @call_ct GS2 Xm Ym Xt' Yt' cu tu kw w).
    { intros cu tu w. unfold call_ct.
      destruct (np_vstack Xm Xt'); [|reflexivity]. cbn [bind].
      destruct (np_vstack Ym Yt'); [|reflexivity]. cbn [bind]. apply Hf. }
    destruct w_pen as [|w|ws]; rewrite ?Hc; try reflexivity.
    rewrite (mapM_ext _ (@call_ct GS2 Xm Ym Xt' Yt' (np_arange 0 (shape0 Xm))
                           (np_arange (shape0 Xm) (shape0 Xm + shape0 Xt')) kw));
      [reflexivity|intros; apply Hc].
Qed.

Lemma X18_witness :
  @get_max_v_pen affine_strategies (Coercible X52) (Coercible X52) (WIter [1; 2])
    ArgNone ArgNone [("grad_splits"%string, ArgOther "5")]
  = @get_max_v_pen fold_only_strategies (Coercible X52) (Coercible X52) (WIter [1; 2])
      ArgNone ArgNone [("grad_splits"%string, ArgOther "5")].
Proof.
  destruct (X18_one_strategy_per_call affine_strategies fold_only_strategies
              (Coercible X52) (Coercible X52) (WIter [1; 2]) ArgNone ArgNone
              [("grad_splits"%string, ArgOther "5")]) as (H & _).
  apply H; reflexivity.
Defined.

(** ** Period counts that differ *)

Lemma broadcast2_mismatch {A B C : Type} (f : A -> B -> C) (a : list A) (b : list B) :
  length a <> length b -> length a <> 1%nat -> length b <> 1%nat ->
  broadcast2 f a b = Raise (ValueError "operands could not be broadcast together").
Proof.
  intros H Ha Hb. unfold broadcast2.
  destruct (Nat.eqb_spec (length a) (length b)); [contradiction|].
  destruct a as [|x [|y a]]; cbn in Ha; try lia;
    destruct b as [|u [|v b]]; cbn in Hb; try lia; try reflexivity.
Qed.

(** X19.  The period counts of the two matrices are not compared.  When
    they differ and neither is 1, a run on otherwise well-shaped inputs with
    [N1 <= N0] ends, on its first draw, in the [ValueError] of the
    element-wise comparison, with no warning written. *)
Theorem X19_period_mismatch_fails_in_broadcast
    (RS : RandomState) (SQ : Sqrt) (MN : Mean) (control treated : ndarray2)
    (max_n_pl : Z)
    (ret_pl ret_CI : bool) (lv : Q) (w : world) :
  length (rows control) = shape0 control ->
  (shape0 treated <= shape0 control)%nat ->
  shape1 control <> shape1 treated ->
  shape1 control <> 1%nat -> shape1 treated <> 1%nat ->
  exists w',
    _gen_placebo_stats_from_diffs control treated max_n_pl ret_pl ret_CI lv w
    = (Raise (ValueError "operands could not be broadcast together"), w')
    /\ log w' = log w.
Proof.
  intros Hrows HN Hne Hc1 Ht1.
  pose proof (ncr_pos (shape0 control) (shape0 treated)) as Hpos.
  destruct (np_random_choice_value (shape0 control) (shape0 treated) w HN) as [Hch Hin].
  eexists. split.
  - apply engine_loop_raises. rewrite draw_loop_unfold. cbv zeta.
    destruct (Z.to_nat (_ncr (Z.of_nat (shape0 control)) (Z.of_nat (shape0 treated)) - 0))
      as [|fuel] eqn:Ef; [lia|].
    cbn [for_enumerate next_comb]. unfold bindM at 1.
    destruct (Z.ltb_spec 0 (_ncr (Z.of_nat (shape0 control)) (Z.of_nat (shape0 treated))));
      [|lia].
    unfold bindM at 1. rewrite Hch. cbn [ret]. unfold bindM at 1, lift at 1.
    unfold loop_body.
    rewrite placebo_draw_in_range; try assumption.
    + cbn [bind]. unfold count_draw.
      rewrite broadcast2_mismatch; [reflexivity| | |].
      * now rewrite draw_vec_length, obs_effect_vec_length.
      * now rewrite draw_vec_length.
      * now rewrite obs_effect_vec_length.
    + now rewrite rms_per_unit_length.
    + now rewrite np_mean_axis1_shape.
  - reflexivity.
Qed.

Lemma X19_witness :
  exists w',
    run (_gen_placebo_stats_from_diffs
           (mk_ndarray2 2 2 [[1; 2]; [3; 4]]) (mk_ndarray2 1 3 [[1; 2; 3]])
           1000000 false false (95 # 100)) 0%nat
    = (Raise (ValueError "operands could not be broadcast together"), w').
Proof.
  destruct (X19_period_mismatch_fails_in_broadcast counter_rng rational_sqrt rational_mean
              (mk_ndarray2 2 2 [[1; 2]; [3; 4]]) (mk_ndarray2 1 3 [[1; 2; 3]])
              1000000 false false (95 # 100) (mk_world counter_rng 0%nat [])
              eq_refl ltac:(cbn; lia) ltac:(cbn; lia) ltac:(cbn; lia) ltac:(cbn; lia))
    as (w' & Hrun & _).
  exists w'. exact Hrun.
Defined.
